(** * A shallow embedding of the Pants backend rules and of the engine
      contracts they consume.

    The Python sources are embedded function by function.  Exceptions are
    values of [Py.exn]; a fallible computation returns [Py.result]; an
    [await] of an engine rule is a call of a function that the enclosing
    Section takes as a variable (the engine itself is not part of the
    sources embedded here). *)

From Stdlib Require Import Ascii String ZArith Lia SpecFloat.
From stdpp Require Import base tactics option list strings gmap sets pretty
  sorting.

Open Scope string_scope.
Set Warnings "-register-all,-clear-no-such-hyp".

(** ** Python values shared by all modules *)
Module Py.

(** The exception classes the embedded code raises or lets through. *)
Inductive exn :=
| ValueError (msg : string)
| TypeError (msg : string)
| KeyError (key : string)
| IndexError (msg : string)
| AttributeError (msg : string)
| AssertionError (msg : string)
| FrozenInstanceError (msg : string)
| JSONDecodeError (msg : string)
| InvalidFieldException (msg : string)
| ProcessExecutionFailure (exit_code : Z) (description : string)
| EngineFailure (rule_name : string).

(** [result A]: the outcome of evaluating a Python expression of type [A]. *)
Inductive result (A : Type) :=
| Return (a : A)
| Raise (e : exn).
Arguments Return {A} a.
Arguments Raise {A} e.

#[global] Instance result_ret : MRet result := λ A a, Return a.
#[global] Instance result_bind : MBind result := λ A B f m,
  match m with
  | Return a => f a
  | Raise e => Raise e
  end.
#[global] Instance result_fmap : FMap result := λ A B f m,
  match m with
  | Return a => Return (f a)
  | Raise e => Raise e
  end.

(** [needle in haystack] for strings: substring containment. *)
Fixpoint str_in (needle haystack : string) : bool :=
  if String.prefix needle haystack then true
  else match haystack with
       | EmptyString => false
       | String _ rest => str_in needle rest
       end.

(** [os.path.basename] of posixpath: everything after the last slash.  [cur]
    is the part of the path after the last slash seen so far. *)
Fixpoint basename_from (cur s : string) : string :=
  match s with
  | EmptyString => cur
  | String c rest =>
      if Ascii.eqb c "/" then basename_from rest rest else basename_from cur rest
  end.
Definition basename (path : string) : string := basename_from path path.

(** The characters of a string. *)
Fixpoint chars (s : string) : list ascii :=
  match s with
  | EmptyString => []
  | String c rest => c :: chars rest
  end.

Lemma bind_return {A B} (f : A → result B) (m : result A) (b : B) :
  m ≫= f = Return b ↔ ∃ a, m = Return a ∧ f a = Return b.
Proof.
  destruct m as [a|e]; simpl; split.
  - intros H. by exists a.
  - by intros (a' & [= <-] & H).
  - discriminate.
  - by intros (a' & [=] & _).
Qed.

Lemma bind_raise {A B} (f : A → result B) (m : result A) (e : exn) :
  m ≫= f = Raise e ↔ m = Raise e ∨ ∃ a, m = Return a ∧ f a = Raise e.
Proof.
  destruct m as [a|e']; simpl; split.
  - intros H. right. by exists a.
  - intros [[=]|(a' & [= <-] & H)]. done.
  - intros [= ->]. by left.
  - intros [[= ->]|(a' & [=] & _)]. done.
Qed.

(** A one-character needle is found exactly when the character occurs. *)
Lemma str_in_char (c : ascii) (s : string) :
  str_in (String c EmptyString) s = true ↔ c ∈ chars s.
Proof.
  induction s as [|d s IH]; simpl.
  - split; [discriminate | by intros ?%elem_of_nil].
  - rewrite elem_of_cons.
    destruct (ascii_dec c d) as [->|Hne].
    + destruct s; simpl; split; auto.
    + rewrite IH. split; [auto | by intros [?|?]].
Qed.

End Py.

(** ** [pants/backend/python/util_rules/faas.py] *)
Module Faas.
Import Py.

Section PythonFaaSHandlerField.
(** [pants.engine.addresses.Address] with its [str()]; the class is
    declared outside the embedded sources. *)
Variable Address : Type.
Variable address_str : Address → string.
(** [StringField.compute_value], the superclass method that
    [super().compute_value(raw_value, address)] reaches; it returns the
    string the field will hold or raises. *)
Variable StringField_compute_value : option string → Address → result string.

Definition alias : string := "handler".

(** [PythonFaaSHandlerField.compute_value] (faas.py, lines 136-144). *)
Definition compute_value (raw_value : option string) (address : Address)
  : result string :=
  value ← StringField_compute_value raw_value address;
  if negb (str_in ":" value) then
    Raise (InvalidFieldException
             ("The `" ++ alias ++ "` field in target at " ++ address_str address
              ++ " must end in the format `:my_handler_func`, but was "
              ++ value ++ "."))
  else Return value.

Lemma compute_value_with_colon raw_value address value :
  StringField_compute_value raw_value address = Return value →
  ":"%char ∈ chars value →
  compute_value raw_value address = Return value.
Proof.
  intros Hsuper Hin. unfold compute_value. rewrite Hsuper. simpl.
  apply str_in_char in Hin. by rewrite Hin.
Qed.

Lemma compute_value_without_colon raw_value address value :
  StringField_compute_value raw_value address = Return value →
  ":"%char ∉ chars value →
  ∃ msg, compute_value raw_value address = Raise (InvalidFieldException msg).
Proof.
  intros Hsuper Hnotin. unfold compute_value. rewrite Hsuper. simpl.
  destruct (str_in ":" value) eqn:Hin.
  - by apply str_in_char in Hin.
  - simpl. eauto.
Qed.

Lemma compute_value_returned raw_value address stored :
  compute_value raw_value address = Return stored →
  StringField_compute_value raw_value address = Return stored
  ∧ ":"%char ∈ chars stored.
Proof.
  unfold compute_value. intros (value & Hsuper & Hif)%bind_return.
  destruct (str_in ":" value) eqn:Hin; simpl in Hif; [|discriminate].
  injection Hif as <-. split; [done|]. by apply str_in_char.
Qed.

(** C10.  Whatever string the superclass computes, [compute_value] hands it
    back unchanged when it holds a colon and raises [InvalidFieldException]
    when it holds none; hence every value the field stores holds a colon. *)
Theorem compute_value_requires_colon raw_value address :
  (∀ value, StringField_compute_value raw_value address = Return value →
     if decide (":"%char ∈ chars value)
     then compute_value raw_value address = Return value
     else ∃ msg, compute_value raw_value address
                 = Raise (InvalidFieldException msg))
  ∧ (∀ stored, compute_value raw_value address = Return stored →
       ":"%char ∈ chars stored).
Proof.
  split.
  - intros value Hsuper. case_decide.
    + by apply compute_value_with_colon.
    + by apply (compute_value_without_colon _ _ value).
  - intros stored Hret. by apply compute_value_returned in Hret as [_ ?].
Qed.
End PythonFaaSHandlerField.

(** A stand-in for the superclass on a required field: a missing value is
    refused, a given one is kept. *)
Definition required_string_field (raw_value : option string) (address : string)
  : result string :=
  match raw_value with
  | None => Raise (InvalidFieldException "required field missing")
  | Some s => Return s
  end.

Example compute_value_module_handler :
  compute_value string id required_string_field
    (Some "path.to.module:handler_func") "src/py:lambda"
  = Return "path.to.module:handler_func".
Proof. reflexivity. Qed.

Example compute_value_no_handler_func :
  compute_value string id required_string_field
    (Some "cloud_function.py") "src/py:lambda"
  = Raise (InvalidFieldException
      "The `handler` field in target at src/py:lambda must end in the format `:my_handler_func`, but was cloud_function.py.").
Proof. reflexivity. Qed.

(** The theorem at a handler given as a module path. *)
Lemma compute_value_at_module_handler :
  compute_value string id required_string_field
    (Some "path.to.module:handler_func") "src/py:lambda"
  = Return "path.to.module:handler_func"
  ∧ ":"%char ∈ chars "path.to.module:handler_func".
Proof.
  destruct (compute_value_requires_colon string id required_string_field
              (Some "path.to.module:handler_func") "src/py:lambda")
    as [_ Hstored].
  split; [reflexivity|]. apply Hstored. reflexivity.
Defined.

End Faas.

(** ** [pants/backend/scala/goals/tailor.py] *)
Module ScalaTailor.
Import Py.

(** The three target types [classify_source_files] keys its result by. *)
Inductive target_type :=
| ScalaJunitTestsGeneratorTarget
| ScalaSourcesGeneratorTarget
| ScalatestTestsGeneratorTarget.

#[global] Instance target_type_eq_dec : EqDecision target_type.
Proof. solve_decision. Defined.

(** A Python [dict] in insertion order. *)
Definition dict_get {V} (d : list (target_type * V)) (k : target_type) : option V :=
  (λ found, found.2.2) <$> list_find (λ kv, kv.1 = k) d.

Section classify.
(** [FilespecMatcher(includes, excludes).matches(paths)] and the two
    [default] glob tuples are declared outside the embedded sources. *)
Variable FilespecMatcher_matches : list string → list string → list string → list string.
Variable ScalatestTestsGeneratorSourcesField_default : list string.
Variable ScalaJunitTestsGeneratorSourcesField_default : list string.

Definition basenames (paths : list string) : list string := basename <$> paths.

Definition scalatest_matched (paths : list string) : gset string :=
  list_to_set (FilespecMatcher_matches ScalatestTestsGeneratorSourcesField_default []
                 (basenames paths)).
Definition junit_matched (paths : list string) : gset string :=
  list_to_set (FilespecMatcher_matches ScalaJunitTestsGeneratorSourcesField_default []
                 (basenames paths)).

(** [classify_source_files] (tailor.py, lines 38-59). *)
Definition classify_source_files (paths : list string)
  : list (target_type * gset string) :=
  let scalatest_files : gset string :=
    list_to_set (filter (λ path, basename path ∈ scalatest_matched paths) paths) in
  let junit_files : gset string :=
    list_to_set (filter (λ path, basename path ∈ junit_matched paths) paths) in
  let sources_files : gset string :=
    list_to_set paths ∖ scalatest_files ∖ junit_files in
  [ (ScalaJunitTestsGeneratorTarget, junit_files);
    (ScalaSourcesGeneratorTarget, sources_files);
    (ScalatestTestsGeneratorTarget, scalatest_files) ].

(** The files filed under a target type; the empty set for a missing key. *)
Definition files_of (ty : target_type) (paths : list string) : gset string :=
  default ∅ (dict_get (classify_source_files paths) ty).

Lemma elem_of_scalatest_files paths path :
  path ∈ files_of ScalatestTestsGeneratorTarget paths
  ↔ path ∈ paths ∧ basename path ∈ scalatest_matched paths.
Proof.
  unfold files_of, classify_source_files, dict_get. simpl.
  rewrite elem_of_list_to_set, list_elem_of_filter. tauto.
Qed.

Lemma elem_of_junit_files paths path :
  path ∈ files_of ScalaJunitTestsGeneratorTarget paths
  ↔ path ∈ paths ∧ basename path ∈ junit_matched paths.
Proof.
  unfold files_of, classify_source_files, dict_get. simpl.
  rewrite elem_of_list_to_set, list_elem_of_filter. tauto.
Qed.

Lemma elem_of_sources_files paths path :
  path ∈ files_of ScalaSourcesGeneratorTarget paths
  ↔ path ∈ paths ∧ (basename path ∉ scalatest_matched paths)
                 ∧ (basename path ∉ junit_matched paths).
Proof.
  unfold files_of, classify_source_files, dict_get. simpl.
  rewrite !elem_of_difference, !elem_of_list_to_set, !list_elem_of_filter.
  tauto.
Qed.

(** C9.  The result is keyed by exactly the three target types; every input
    path is filed under at least one of them; the plain-sources set is
    exactly the input paths whose basename neither matcher reports, and is
    therefore disjoint from the two test sets. *)
Theorem classify_source_files_partition (paths : list string) :
  (classify_source_files paths).*1
    = [ScalaJunitTestsGeneratorTarget; ScalaSourcesGeneratorTarget;
       ScalatestTestsGeneratorTarget]
  ∧ (∀ path, path ∈ paths →
       path ∈ files_of ScalaJunitTestsGeneratorTarget paths
       ∨ path ∈ files_of ScalaSourcesGeneratorTarget paths
       ∨ path ∈ files_of ScalatestTestsGeneratorTarget paths)
  ∧ (∀ path, path ∈ files_of ScalaSourcesGeneratorTarget paths
       ↔ path ∈ paths ∧ (basename path ∉ scalatest_matched paths)
                      ∧ (basename path ∉ junit_matched paths))
  ∧ files_of ScalaSourcesGeneratorTarget paths
      ## files_of ScalatestTestsGeneratorTarget paths
  ∧ files_of ScalaSourcesGeneratorTarget paths
      ## files_of ScalaJunitTestsGeneratorTarget paths.
Proof.
  split; [done|]. split; [|split; [|split]].
  - intros path Hin.
    destruct (decide (basename path ∈ junit_matched paths)) as [Hj|Hj].
    { left. by apply elem_of_junit_files. }
    destruct (decide (basename path ∈ scalatest_matched paths)) as [Hs|Hs].
    { right; right. by apply elem_of_scalatest_files. }
    right; left. by apply elem_of_sources_files.
  - apply elem_of_sources_files.
  - intros path (_ & Hs & _)%elem_of_sources_files
      [_ ?]%elem_of_scalatest_files. done.
  - intros path (_ & _ & Hj)%elem_of_sources_files
      [_ ?]%elem_of_junit_files. done.
Qed.
End classify.

(** A glob of the shape [*suffix], which is the shape of the default globs of
    the two test source fields, for running the classifier on examples. *)
Definition ends_with (suffix s : string) : bool :=
  bool_decide (String.substring (String.length s - String.length suffix)
                 (String.length suffix) s = suffix).
Definition star_glob_matches (includes excludes paths : list string) : list string :=
  filter (λ path, existsb
            (λ glob, match glob with
                     | String "*" suffix => ends_with suffix path
                     | _ => bool_decide (glob = path)
                     end) includes = true) paths.

Example basename_nested : basename "src/jvm/FooSpec.scala" = "FooSpec.scala".
Proof. reflexivity. Qed.

Example basename_no_directory : basename "Foo.scala" = "Foo.scala".
Proof. reflexivity. Qed.

Example classify_three_files :
  classify_source_files star_glob_matches
    ["*Spec.scala"; "*Suite.scala"] ["*Test.scala"]
    ["src/a/FooSpec.scala"; "src/a/Foo.scala"; "src/b/FooTest.scala"]
  = [ (ScalaJunitTestsGeneratorTarget, {["src/b/FooTest.scala"]});
      (ScalaSourcesGeneratorTarget, {["src/a/Foo.scala"]});
      (ScalatestTestsGeneratorTarget, {["src/a/FooSpec.scala"]}) ].
Proof. reflexivity. Qed.

(** The theorem at two files of one directory. *)
Lemma classify_files_one_of_three :
  "src/a/Foo.scala" ∈ files_of star_glob_matches ["*Spec.scala"; "*Suite.scala"]
      ["*Test.scala"] ScalaJunitTestsGeneratorTarget
      ["src/a/FooSpec.scala"; "src/a/Foo.scala"]
  ∨ "src/a/Foo.scala" ∈ files_of star_glob_matches ["*Spec.scala"; "*Suite.scala"]
      ["*Test.scala"] ScalaSourcesGeneratorTarget
      ["src/a/FooSpec.scala"; "src/a/Foo.scala"]
  ∨ "src/a/Foo.scala" ∈ files_of star_glob_matches ["*Spec.scala"; "*Suite.scala"]
      ["*Test.scala"] ScalatestTestsGeneratorTarget
      ["src/a/FooSpec.scala"; "src/a/Foo.scala"].
Proof.
  apply (classify_source_files_partition star_glob_matches
           ["*Spec.scala"; "*Suite.scala"] ["*Test.scala"]
           ["src/a/FooSpec.scala"; "src/a/Foo.scala"]).
  right; left.
Defined.

End ScalaTailor.

(** ** Engine value classes the backends pass around

    [Digest], [LogLevel] and [Address] are declared by the engine, outside the
    embedded sources; they are hashable value classes compared by content.  An
    address is identified here by its spec string. *)
Module Engine.

Record Digest := { fingerprint : string; serialized_bytes_length : Z }.
Inductive LogLevel := TRACE | DEBUG | INFO | WARN | ERROR.
Definition Address : Type := string.

#[global] Instance Digest_eq_dec : EqDecision Digest.
Proof. solve_decision. Defined.
#[global] Instance LogLevel_eq_dec : EqDecision LogLevel.
Proof. solve_decision. Defined.

Definition EMPTY_DIGEST : Digest :=
  {| fingerprint := "e3b0c44298fc1c149afbf4c8996fb92427ae41e4649b934ca495991b7852b855";
     serialized_bytes_length := 0 |}.

End Engine.

(** ** [pants/backend/kotlin/dependency_inference/kotlin_parser.py] *)
Module KotlinParser.
Import Py Engine.

(** *** Values exchanged with the engine *)

Record Snapshot := { digest : Digest; snapshot_files : list string }.
(** [SourceFiles]: [files] is a property of the class, kept here as a field
    next to the snapshot it is read from. *)
Record SourceFiles := { snapshot : Snapshot; files : list string }.
Record FileContent := { path : string; content : string }.
Record FallibleProcessResult :=
  { exit_code : Z; stdout : string; stderr : string; output_digest : Digest }.
Record ProcessResult :=
  { result_stdout : string; result_stderr : string; result_output_digest : Digest }.

(** What [json.loads] produces.  A number without fraction and exponent
    is an [int]; any other number, and each of [NaN], [Infinity] and
    [-Infinity], is a [float], given by its sign, mantissa and exponent. *)
Inductive json :=
| JNull
| JBool (b : bool)
| JNumber (z : Z)
| JFloat (f : spec_float)
| JString (s : string)
| JArray (items : list json)
| JObject (members : gmap string json).

(** *** The dataclasses of the module

    [KotlinImport] and [KotlinSourceDependencyAnalysis] below are the
    instances whose fields hold values of the annotated types. *)

Record KotlinImport :=
  { name : string; alias : option string; is_wildcard : bool }.

#[global] Instance KotlinImport_eq_dec : EqDecision KotlinImport.
Proof. solve_decision. Defined.
#[global] Instance KotlinImport_countable : Countable KotlinImport.
Proof.
  apply (inj_countable'
           (λ i, (name i, alias i, is_wildcard i))
           (λ t, {| name := t.1.1; alias := t.1.2; is_wildcard := t.2 |})).
  by intros [].
Defined.

Record KotlinSourceDependencyAnalysis :=
  { package : string;
    imports : gset KotlinImport;
    named_declarations : gset string;
    consumed_symbols_by_scope : gmap string (gset string);
    scopes : gset string }.

Record FallibleKotlinSourceDependencyAnalysisResult :=
  { process_result : FallibleProcessResult }.

Record KotlinParserCompiledClassfiles := { classfiles_digest : Digest }.

(** *** Instances at run time

    A dataclass does not check its annotations, and neither
    [from_json_dict] checks what it reads: the fields of an instance hold
    whatever the constructor was given. *)

(** What a set tells its members apart by: [hash] and [==].  Numbers are
    compared by value: [True] equals [1] and [False] equals [0], and a float
    without fraction equals the integer of its value, with equal hashes, so
    each of them counts as that integer.  A float with a fraction is told by
    its sign, its odd mantissa and its exponent.  [json.loads] yields one and
    the same object for every [NaN], which a set takes as one member. *)
Inductive set_key :=
| KNone
| KInt (z : Z)
| KFraction (negative : bool) (mantissa : positive) (exponent : Z)
| KInfinity (negative : bool)
| KNaN
| KStr (s : string).

#[global] Instance set_key_eq_dec : EqDecision set_key.
Proof. solve_decision. Defined.
#[global] Instance set_key_countable : Countable set_key.
Proof.
  apply (inj_countable'
           (λ k, match k with
                 | KNone => inl ()
                 | KInt z => inr (inl z)
                 | KFraction s m e => inr (inr (inl (s, m, e)))
                 | KInfinity s => inr (inr (inr (inl (Some s))))
                 | KNaN => inr (inr (inr (inl None)))
                 | KStr s => inr (inr (inr (inr s)))
                 end)
           (λ e, match e with
                 | inl _ => KNone
                 | inr (inl z) => KInt z
                 | inr (inr (inl (s, m, e))) => KFraction s m e
                 | inr (inr (inr (inl (Some s)))) => KInfinity s
                 | inr (inr (inr (inl None))) => KNaN
                 | inr (inr (inr (inr s))) => KStr s
                 end)).
  by intros [].
Defined.

(** [m * 2 ^ e] with the factors two of [m] moved to the exponent. *)
Fixpoint odd_mantissa (m : positive) (e : Z) : positive * Z :=
  match m with
  | xO half => odd_mantissa half (e + 1)
  | _ => (m, e)
  end.

(** The key of a float. *)
Definition float_key (f : spec_float) : set_key :=
  match f with
  | S754_zero _ => KInt 0
  | S754_infinity negative => KInfinity negative
  | S754_nan => KNaN
  | S754_finite negative m e =>
      let '(mantissa, exponent) := odd_mantissa m e in
      if bool_decide (0 ≤ exponent)%Z then
        KInt ((if negative then -1 else 1) * (Z.pos mantissa * 2 ^ exponent))
      else KFraction negative mantissa exponent
  end.

(** A [frozenset]: one member for each key, the one inserted first. *)
Abbreviation frozenset K A := (gmap K A).

(** [s.add(x)] while a set is built: a member equal to [x] stays. *)
Definition frozenset_add {K A} `{Countable K} (key : K) (x : A)
    (s : frozenset K A) : frozenset K A :=
  match s !! key with
  | Some _ => s
  | None => <[key := x]> s
  end.

(** A [KotlinImport] as its constructor leaves it. *)
Record KotlinImport_instance :=
  { instance_name : json;
    instance_alias : json;
    instance_is_wildcard : json }.

(** A [KotlinSourceDependencyAnalysis] as its constructor leaves it; the
    imports are told apart by the keys of their three fields. *)
Record KotlinSourceDependencyAnalysis_instance :=
  { instance_package : json;
    instance_imports : frozenset (set_key * set_key * set_key) KotlinImport_instance;
    instance_named_declarations : frozenset set_key json;
    instance_consumed_symbols_by_scope : gmap string (frozenset set_key json);
    instance_scopes : frozenset set_key json }.

(** The instance that holds the fields of a [KotlinImport]. *)
Definition KotlinImport_instance_of (imp : KotlinImport) : KotlinImport_instance :=
  {| instance_name := JString (name imp);
     instance_alias := match alias imp with
                       | Some s => JString s
                       | None => JNull
                       end;
     instance_is_wildcard := JBool (is_wildcard imp) |}.

Definition KotlinImport_key (imp : KotlinImport) : set_key * set_key * set_key :=
  (KStr (name imp),
   match alias imp with Some s => KStr s | None => KNone end,
   KInt (if is_wildcard imp then 1 else 0)).

(** A set of strings as a [frozenset]. *)
Definition frozenset_of_strs (strs : gset string) : frozenset set_key json :=
  list_to_map ((λ s, (KStr s, JString s)) <$> elements strs).

(** The instance that holds the fields of a [KotlinSourceDependencyAnalysis]. *)
Definition KotlinSourceDependencyAnalysis_instance_of
    (a : KotlinSourceDependencyAnalysis) : KotlinSourceDependencyAnalysis_instance :=
  {| instance_package := JString (package a);
     instance_imports :=
       list_to_map ((λ imp, (KotlinImport_key imp, KotlinImport_instance_of imp))
                      <$> elements (imports a));
     instance_named_declarations := frozenset_of_strs (named_declarations a);
     instance_consumed_symbols_by_scope :=
       frozenset_of_strs <$> consumed_symbols_by_scope a;
     instance_scopes := frozenset_of_strs (scopes a) |}.

(** *** Reading the parser's JSON

    Python words the messages of [TypeError] and [AttributeError]
    differently from one interpreter to the next; the message kept here says
    what was refused. *)
Definition not_subscriptable : exn := TypeError "not subscriptable by str".
Definition not_a_set : exn := TypeError "not an iterable of hashable values".

(** [d[key]] for a key that is a string: [KeyError] on a dict without the
    key, [TypeError] on every value that is no dict (a list and a string
    take integers, the others are not subscriptable). *)
Definition subscript (d : json) (key : string) : result json :=
  match d with
  | JObject members =>
      match members !! key with
      | Some v => Return v
      | None => Raise (KeyError key)
      end
  | _ => Raise not_subscriptable
  end.

(** [d.get(key)]: [None] on a missing key. *)
Definition dict_get (d : json) (key : string) : result json :=
  match d with
  | JObject members => Return (default JNull (members !! key))
  | _ => Raise (AttributeError "get")
  end.

(** [d.items()] *)
Definition dict_items (d : json) : result (gmap string json) :=
  match d with
  | JObject members => Return members
  | _ => Raise (AttributeError "items")
  end.

(** [hash(v)]: lists and dicts are not hashable. *)
Definition hash_json (v : json) : result set_key :=
  match v with
  | JNull => Return KNone
  | JBool b => Return (KInt (if b then 1 else 0))
  | JNumber z => Return (KInt z)
  | JFloat f => Return (float_key f)
  | JString s => Return (KStr s)
  | JArray _ | JObject _ => Raise not_a_set
  end.

(** [iter(v)]: the items of a list, the characters of a string, the keys
    of a dict (in an order that nothing below depends on); the other values
    are not iterable. *)
Definition iterate (v : json) : result (list json) :=
  match v with
  | JArray items => Return items
  | JString s => Return ((λ c, JString (String c "")) <$> chars s)
  | JObject members => Return (JString <$> (map_to_list members).*1)
  | JNull | JBool _ | JNumber _ | JFloat _ => Raise not_a_set
  end.

(** [frozenset(read(i) for i in items)], continued from the members [s]:
    each item is read, hashed and added before the next one is looked at. *)
Fixpoint frozenset_of {K A} `{Countable K} (read : json → result A)
    (hash : A → result K) (items : list json) (s : frozenset K A)
  : result (frozenset K A) :=
  match items with
  | [] => Return s
  | i :: rest =>
      x ← read i;
      key ← hash x;
      frozenset_of read hash rest (frozenset_add key x s)
  end.

(** [frozenset(v)] *)
Definition frozenset_of_json (v : json) : result (frozenset set_key json) :=
  items ← iterate v;
  frozenset_of Return hash_json items ∅.

(** [KotlinImport.from_json_dict] (lines 66-72). *)
Definition KotlinImport_from_json_dict (d : json) : result KotlinImport_instance :=
  name ← subscript d "name";
  alias ← dict_get d "alias";
  is_wildcard ← subscript d "isWildcard";
  Return {| instance_name := name;
            instance_alias := alias;
            instance_is_wildcard := is_wildcard |}.

(** The [__hash__] that [@dataclass(frozen=True)] gives [KotlinImport]: the
    hash of the tuple of its fields. *)
Definition KotlinImport_hash (imp : KotlinImport_instance)
  : result (set_key * set_key * set_key) :=
  name ← hash_json (instance_name imp);
  alias ← hash_json (instance_alias imp);
  is_wildcard ← hash_json (instance_is_wildcard imp);
  Return (name, alias, is_wildcard).

(** One entry of [{k: frozenset(v) for k, v in d.items()}]. *)
Definition frozenset_entry (kv : string * json)
  : result (string * frozenset set_key json) :=
  v ← frozenset_of_json kv.2;
  Return (kv.1, v).

(** [KotlinSourceDependencyAnalysis.from_json_dict] (lines 132-142).  The
    arguments of the constructor are evaluated from left to right.  The
    entries of [consumedSymbolsByScope] are gone through in the order of
    [map_to_list]; whichever entry fails first, the exception is the same. *)
Definition from_json_dict (d : json)
  : result KotlinSourceDependencyAnalysis_instance :=
  package ← subscript d "package";
  imports_json ← subscript d "imports";
  import_items ← iterate imports_json;
  imports ← frozenset_of KotlinImport_from_json_dict KotlinImport_hash
              import_items ∅;
  named_json ← subscript d "namedDeclarations";
  named_declarations ← frozenset_of_json named_json;
  by_scope_json ← subscript d "consumedSymbolsByScope";
  by_scope ← dict_items by_scope_json;
  consumed ← mapM (M:=result) frozenset_entry (map_to_list by_scope);
  scopes_json ← subscript d "scopes";
  scopes ← frozenset_of_json scopes_json;
  Return {| instance_package := package;
            instance_imports := imports;
            instance_named_declarations := named_declarations;
            instance_consumed_symbols_by_scope := list_to_map consumed;
            instance_scopes := scopes |}.

(** The documents [from_json_dict] returns on, told by their shape.  A
    value can be hashed unless it is a list or a dict. *)
Definition hashable (v : json) : bool :=
  match v with
  | JArray _ | JObject _ => false
  | _ => true
  end.

(** [frozenset(v)] returns on a list of hashable values, on a string and
    on a dict. *)
Definition set_shaped (v : json) : bool :=
  match v with
  | JArray items => forallb hashable items
  | JString _ | JObject _ => true
  | JNull | JBool _ | JNumber _ | JFloat _ => false
  end.

(** An import is read and hashed when it is a dict with the keys [name]
    and [isWildcard] whose three fields can be hashed. *)
Definition import_shaped (i : json) : bool :=
  match i with
  | JObject members =>
      match members !! "name", members !! "isWildcard" with
      | Some name, Some is_wildcard =>
          hashable name && hashable (default JNull (members !! "alias"))
          && hashable is_wildcard
      | _, _ => false
      end
  | _ => false
  end.

(** The imports are read from a list of such dicts, and from a string or
    a dict with nothing in it. *)
Definition imports_shaped (v : json) : bool :=
  match v with
  | JArray items => forallb import_shaped items
  | JString s => bool_decide (s = "")
  | JObject members =>
      match map_to_list members with
      | [] => true
      | _ :: _ => false
      end
  | JNull | JBool _ | JNumber _ | JFloat _ => false
  end.

Definition readable (d : json) : bool :=
  match d with
  | JObject members =>
      match members !! "package", members !! "imports",
            members !! "namedDeclarations",
            members !! "consumedSymbolsByScope", members !! "scopes" with
      | Some _, Some imports, Some named_declarations, Some (JObject by_scope),
        Some scopes =>
          imports_shaped imports && set_shaped named_declarations
          && forallb (λ kv, set_shaped kv.2) (map_to_list by_scope)
          && set_shaped scopes
      | _, _, _, _, _ => false
      end
  | _ => false
  end.

(** Whether an evaluation returns. *)
Definition returns {A} (m : result A) : bool :=
  match m with
  | Return _ => true
  | Raise _ => false
  end.

Lemma returns_bind {A B} (m : result A) (f : A → result B) :
  returns (m ≫= f) = match m with Return a => returns (f a) | Raise _ => false end.
Proof. by destruct m. Qed.

Lemma returns_hash_json v : returns (hash_json v) = hashable v.
Proof. by destruct v. Qed.

Lemma returns_frozenset_of {K A} `{Countable K} (read : json → result A)
    (hash : A → result K) items : ∀ s,
  returns (frozenset_of read hash items s)
  = forallb (λ i, returns (read i ≫= hash)) items.
Proof.
  induction items as [|i rest IH]; intros s; simpl; [done|].
  destruct (read i) as [x|e]; simpl; [|done].
  destruct (hash x) as [key|e]; simpl; [|done].
  apply IH.
Qed.

Lemma forallb_fmap {A B} (f : A → B) (p : B → bool) l :
  forallb p (f <$> l) = forallb (p ∘ f) l.
Proof. induction l as [|x l IH]; [done|]. csimpl. by f_equal. Qed.

Lemma forallb_ext {A} (p q : A → bool) l :
  (∀ x, p x = q x) → forallb p l = forallb q l.
Proof. intros Hpq. induction l as [|x l IH]; simpl; [done|]. by rewrite Hpq, IH. Qed.

Lemma forallb_true_const {A} (l : list A) : forallb (λ _, true) l = true.
Proof. by induction l. Qed.

Lemma returns_frozenset_of_json v : returns (frozenset_of_json v) = set_shaped v.
Proof.
  unfold frozenset_of_json.
  destruct v as [|b|z|f|s|items|members]; simpl; try done.
  - rewrite returns_frozenset_of, forallb_fmap. apply forallb_true_const.
  - rewrite returns_frozenset_of. apply forallb_ext. intros v. simpl.
    apply returns_hash_json.
  - rewrite returns_frozenset_of, forallb_fmap. apply forallb_true_const.
Qed.

Lemma returns_import i :
  returns (KotlinImport_from_json_dict i ≫= KotlinImport_hash) = import_shaped i.
Proof.
  destruct i as [|b|z|f|s|items|members]; try done.
  unfold KotlinImport_from_json_dict, KotlinImport_hash, import_shaped. simpl.
  destruct (members !! "name") as [name|]; simpl; [|done].
  destruct (members !! "isWildcard") as [is_wildcard|]; simpl; [|done].
  destruct name, (default JNull (members !! "alias")), is_wildcard; done.
Qed.

Lemma returns_imports v s :
  returns (iterate v ≫= λ items,
           frozenset_of KotlinImport_from_json_dict KotlinImport_hash items s)
  = imports_shaped v.
Proof.
  destruct v as [|b|z|f|str|items|members]; simpl; try done.
  - rewrite returns_frozenset_of. by destruct str.
  - rewrite returns_frozenset_of. apply forallb_ext, returns_import.
  - rewrite returns_frozenset_of. by destruct (map_to_list members).
Qed.

Lemma returns_mapM {A B} (f : A → result B) l :
  returns (mapM (M:=result) f l) = forallb (λ x, returns (f x)) l.
Proof.
  induction l as [|x l IH]; simpl; [done|].
  destruct (f x) as [y|e]; simpl; [|done].
  rewrite <- IH. by destruct (mapM f l).
Qed.

Lemma returns_frozenset_entry kv :
  returns (frozenset_entry kv) = set_shaped kv.2.
Proof.
  unfold frozenset_entry. rewrite returns_bind.
  rewrite <- returns_frozenset_of_json. by destruct (frozenset_of_json kv.2).
Qed.

Lemma from_json_dict_returns d : returns (from_json_dict d) = readable d.
Proof.
  destruct d as [|b|z|f|s|items|members]; try done.
  unfold from_json_dict, readable. simpl.
  destruct (members !! "package") as [package|]; simpl; [|done].
  destruct (members !! "imports") as [imports_json|]; simpl; [|done].
  pose proof (returns_imports imports_json ∅) as Himports.
  destruct (iterate imports_json) as [import_items|e]; simpl in *.
  2:{ rewrite <- Himports.
      by destruct (members !! "namedDeclarations") as [|],
                  (members !! "consumedSymbolsByScope") as [[]|],
                  (members !! "scopes"). }
  destruct (frozenset_of _ _ import_items ∅) as [imports|e]; simpl in *;
    rewrite <- Himports.
  2:{ by destruct (members !! "namedDeclarations") as [|],
                  (members !! "consumedSymbolsByScope") as [[]|],
                  (members !! "scopes"). }
  destruct (members !! "namedDeclarations") as [named_json|]; simpl; [|done].
  rewrite <- returns_frozenset_of_json.
  destruct (frozenset_of_json named_json) as [named|e]; simpl.
  2:{ by destruct (members !! "consumedSymbolsByScope") as [[]|],
                  (members !! "scopes"). }
  destruct (members !! "consumedSymbolsByScope") as [by_scope_json|]; simpl;
    [|done].
  destruct by_scope_json as [|b|z|f|s|items|by_scope]; simpl;
    try by destruct (members !! "scopes").
  rewrite (forallb_ext _ (λ kv, returns (frozenset_entry kv)))
    by (intros kv; symmetry; apply returns_frozenset_entry).
  rewrite <- returns_mapM.
  destruct (mapM _ _) as [consumed|e]; simpl.
  2:{ by destruct (members !! "scopes"). }
  destruct (members !! "scopes") as [scopes_json|]; simpl; [|done].
  rewrite <- returns_frozenset_of_json.
  by destruct (frozenset_of_json scopes_json).
Qed.

(** [frozenset(v)] raises one exception only, so the entry of
    [consumedSymbolsByScope] that fails first does not matter. *)
Lemma frozenset_of_json_raises v e :
  frozenset_of_json v = Raise e → e = not_a_set.
Proof.
  assert (∀ items s, frozenset_of Return hash_json items s = Raise e →
                     e = not_a_set) as Hitems.
  { induction items as [|i rest IH]; intros s; simpl; [done|].
    destruct i; simpl; eauto; by intros [= <-]. }
  unfold frozenset_of_json.
  destruct v; simpl; eauto; by intros [= <-].
Qed.

Lemma frozenset_entries_raise entries e :
  mapM (M:=result) frozenset_entry entries = Raise e → e = not_a_set.
Proof.
  induction entries as [|kv rest IH]; simpl; [done|].
  destruct (frozenset_entry kv) as [y|e'] eqn:Hentry; simpl.
  - destruct (mapM frozenset_entry rest) as [|e'']; simpl; [done|].
    intros [= ->]. by apply IH.
  - intros [= ->]. unfold frozenset_entry in Hentry.
    destruct (frozenset_of_json kv.2) as [v|e''] eqn:Hset; simpl in Hentry;
      [done|].
    injection Hentry as ->. by eapply frozenset_of_json_raises.
Qed.

(** Whether a path ends in a slash. *)
Fixpoint ends_with_slash (s : string) : bool :=
  match s with
  | EmptyString => false
  | String c EmptyString => Ascii.eqb c "/"
  | String _ rest => ends_with_slash rest
  end.

(** [os.path.join] of posixpath for two components. *)
Definition path_join (a b : string) : string :=
  if String.prefix "/" b then b
  else if bool_decide (a = "") then b
  else if ends_with_slash a then a ++ b
  else a ++ "/" ++ b.

(** *** The rules

    A rule body runs against an [engine]: one function per engine rule it
    awaits, each returning the awaited value or the failure the await
    re-raises in the body.  The body's outcome is paired with the list of
    requests it issued, in order. *)
Section Rules.
Variables JdkEnvironment InternalJdk Lockfile ToolClasspath KotlinParser : Type.
Variable from_jdk_environment : JdkEnvironment → InternalJdk.
Variable GenerateJvmLockfileFromTool_create : KotlinParser → Lockfile.
Variable tool_classpath_digest : ToolClasspath → Digest.
Variable classpath_entries : ToolClasspath → string → list string.
Variable json_loads : string → result json.

Record ToolClasspathRequest := { lockfile : Lockfile }.

Record JvmProcess :=
  { jdk : InternalJdk;
    jvm_classpath_entries : list string;
    argv : list string;
    input_digest : Digest;
    extra_immutable_input_digests : list (string * Digest);
    output_files : list string;
    extra_nailgun_keys : list string;
    description : string;
    level : LogLevel }.

Record engine :=
  { prepare_jdk_environment : string → result JdkEnvironment;
    materialize_classpath_for_tool : ToolClasspathRequest → result ToolClasspath;
    add_prefix : Digest → string → result Digest;
    execute_process : JvmProcess → result FallibleProcessResult;
    fallible_to_exec_result_or_raise :
      FallibleProcessResult → string → result ProcessResult;
    get_digest_contents : Digest → result (list FileContent) }.

Inductive request :=
| Get_prepare_jdk_environment (jdk_request : string)
| Get_materialize_classpath_for_tool (r : ToolClasspathRequest)
| Get_add_prefix (d : Digest) (prefix : string)
| Get_execute_process (p : JvmProcess)
| Get_fallible_to_exec_result_or_raise (r : FallibleProcessResult) (desc : string)
| Get_get_digest_contents (d : Digest).

Definition rule (A : Type) : Type := list request * result A.

Definition rule_return {A} (a : A) : rule A := ([], Return a).
Definition raise {A} (e : exn) : rule A := ([], Raise e).
Definition rule_bind_def {A B} (f : A → rule B) (m : rule A) : rule B :=
  match m.2 with
  | Return a => ((m.1 ++ (f a).1)%list, (f a).2)
  | Raise e => (m.1, Raise e)
  end.
#[local] Instance rule_ret : MRet rule := @rule_return.
#[local] Instance rule_bind : MBind rule := @rule_bind_def.

(** [await rule(args)]: the request is recorded, the engine's answer is the
    value of the expression. *)
Definition await {A} (q : request) (answer : result A) : rule A := ([q], answer).

(** [await concurrently(a, b)]: both requests are issued; the pair is
    returned when both succeed, a failure of either is raised. *)
Definition concurrently {A B} (a : rule A) (b : rule B) : rule (A * B) :=
  ((a.1 ++ b.1)%list,
   match a.2, b.2 with
   | Return x, Return y => Return (x, y)
   | Raise e, _ => Raise e
   | Return _, Raise e => Raise e
   end).

Definition jdk_request : string := "zulu:8.0.392".
Definition source_prefix : string := "__source_to_analyze".
Definition processorcp_relpath : string := "__processorcp".
Definition toolcp_relpath : string := "__toolcp".
Definition analysis_output_path : string := "__source_analysis.json".

(** The [JvmProcess] built at lines 208-225. *)
Definition parser_process (jdk : InternalJdk) (tool_classpath : ToolClasspath)
    (processor_classfiles : KotlinParserCompiledClassfiles)
    (file0 : string) (prefixed_source_files_digest : Digest) : JvmProcess :=
  let source_path := path_join source_prefix file0 in
  let extra_immutable_input_digests :=
    [ (toolcp_relpath, tool_classpath_digest tool_classpath);
      (processorcp_relpath, classfiles_digest processor_classfiles) ] in
  {| jdk := jdk;
     jvm_classpath_entries :=
       (classpath_entries tool_classpath toolcp_relpath
          ++ [processorcp_relpath])%list;
     argv := [ "org.pantsbuild.backend.kotlin.dependency_inference.KotlinParserKt";
               analysis_output_path; source_path ];
     input_digest := prefixed_source_files_digest;
     extra_immutable_input_digests := extra_immutable_input_digests;
     output_files := [analysis_output_path];
     extra_nailgun_keys := extra_immutable_input_digests.*1;
     description := "Analyzing " ++ file0;
     level := DEBUG |}.

(** [analyze_kotlin_source_dependencies] (lines 165-229). *)
Definition analyze_kotlin_source_dependencies (E : engine)
    (processor_classfiles : KotlinParserCompiledClassfiles)
    (source_files : SourceFiles) (tool : KotlinParser)
  : rule FallibleKotlinSourceDependencyAnalysisResult :=
  env ← await (Get_prepare_jdk_environment jdk_request)
              (prepare_jdk_environment E jdk_request);
  let jdk := from_jdk_environment env in
  if bool_decide (1 < length (files source_files)) then
    raise (ValueError
      ("analyze_kotlin_source_dependencies expects sources with exactly 1 source file, but found "
       ++ pretty (length (snapshot_files (snapshot source_files))) ++ "."))
  else if bool_decide (length (files source_files) = 0) then
    raise (ValueError
      "analyze_kotlin_source_dependencies expects sources with exactly 1 source file, but found none.")
  else
    match files source_files with
    | [] => raise (IndexError "tuple index out of range")
    | file0 :: _ =>
        let classpath_request :=
          {| lockfile := GenerateJvmLockfileFromTool_create tool |} in
        got ← concurrently
                (await (Get_materialize_classpath_for_tool classpath_request)
                       (materialize_classpath_for_tool E classpath_request))
                (await (Get_add_prefix (digest (snapshot source_files)) source_prefix)
                       (add_prefix E (digest (snapshot source_files)) source_prefix));
        let process :=
          parser_process jdk got.1 processor_classfiles file0 got.2 in
        process_result ← await (Get_execute_process process)
                               (execute_process E process);
        rule_return {| process_result := process_result |}
    end.

Definition failure_description : string :=
  "Kotlin source dependency analysis failed.".

(** [resolve_fallible_result_to_analysis] (lines 232-244). *)
Definition resolve_fallible_result_to_analysis (E : engine)
    (fallible_result : FallibleKotlinSourceDependencyAnalysisResult)
  : rule KotlinSourceDependencyAnalysis_instance :=
  let desc := failure_description in
  result ← await (Get_fallible_to_exec_result_or_raise
                    (process_result fallible_result) desc)
                 (fallible_to_exec_result_or_raise E
                    (process_result fallible_result) desc);
  analysis_contents ← await (Get_get_digest_contents (result_output_digest result))
                            (get_digest_contents E (result_output_digest result));
  match analysis_contents with
  | [] => raise (IndexError "tuple index out of range")
  | first :: _ =>
      match json_loads (content first) with
      | Raise e => raise e
      | Return analysis =>
          match from_json_dict analysis with
          | Raise e => raise e
          | Return parsed => rule_return parsed
          end
      end
  end.

(** Whether a rule body asked for a process to be run. *)
Definition requests_process_execution {A} (r : rule A) : Prop :=
  ∃ p, Get_execute_process p ∈ r.1.

(** The contract of the engine's [fallible_to_exec_result_or_raise] that
    the rules rely on: a result with a non-zero exit code is raised. *)
Definition raises_on_failed_process (E : engine) : Prop :=
  ∀ r desc, exit_code r ≠ 0%Z →
    ∃ e, fallible_to_exec_result_or_raise E r desc = Raise e.

Ltac run_rule :=
  unfold mbind, rule_bind, rule_bind_def, await, raise, rule_return,
    concurrently; simpl.

(** A failure of the JDK request is re-raised before anything else runs. *)
Lemma analyze_jdk_failure E pc sf tool e :
  prepare_jdk_environment E jdk_request = Raise e →
  analyze_kotlin_source_dependencies E pc sf tool
  = ([Get_prepare_jdk_environment jdk_request], Raise e).
Proof.
  intros Hjdk. unfold analyze_kotlin_source_dependencies. run_rule.
  by rewrite Hjdk.
Qed.

Lemma analyze_not_one_file E pc sf tool env :
  prepare_jdk_environment E jdk_request = Return env →
  length (files sf) ≠ 1 →
  ∃ msg, analyze_kotlin_source_dependencies E pc sf tool
         = ([Get_prepare_jdk_environment jdk_request], Raise (ValueError msg)).
Proof.
  intros Hjdk Hlen. unfold analyze_kotlin_source_dependencies. run_rule.
  rewrite Hjdk. simpl.
  case_bool_decide; [by eexists|].
  case_bool_decide; [by eexists|]. lia.
Qed.

(** With one file and the three awaited values at hand, the body asks for
    the parser process and wraps whatever the engine answers. *)
Lemma analyze_one_file E pc sf tool env file0 tool_classpath prefixed :
  prepare_jdk_environment E jdk_request = Return env →
  files sf = [file0] →
  materialize_classpath_for_tool E
    {| lockfile := GenerateJvmLockfileFromTool_create tool |}
    = Return tool_classpath →
  add_prefix E (digest (snapshot sf)) source_prefix = Return prefixed →
  let process := parser_process (from_jdk_environment env) tool_classpath pc
                   file0 prefixed in
  analyze_kotlin_source_dependencies E pc sf tool
  = ([ Get_prepare_jdk_environment jdk_request;
       Get_materialize_classpath_for_tool
         {| lockfile := GenerateJvmLockfileFromTool_create tool |};
       Get_add_prefix (digest (snapshot sf)) source_prefix;
       Get_execute_process process ],
     match execute_process E process with
     | Return r => Return {| process_result := r |}
     | Raise e => Raise e
     end).
Proof.
  intros Hjdk Hfiles Hcp Hprefix process.
  unfold analyze_kotlin_source_dependencies. run_rule.
  rewrite Hjdk, Hfiles. simpl. rewrite Hcp, Hprefix. simpl.
  fold process. by destruct (execute_process E process).
Qed.

Lemma analyze_process_needs_one_file E pc sf tool :
  requests_process_execution (analyze_kotlin_source_dependencies E pc sf tool) →
  length (files sf) = 1.
Proof.
  intros [p Hp]. destruct (decide (length (files sf) = 1)) as [|Hlen]; [done|].
  exfalso. destruct (prepare_jdk_environment E jdk_request) as [env|e] eqn:Hjdk.
  - destruct (analyze_not_one_file E pc sf tool env Hjdk Hlen) as [msg Heq].
    rewrite Heq in Hp. simpl in Hp.
    apply list_elem_of_singleton in Hp. discriminate.
  - rewrite (analyze_jdk_failure E pc sf tool e Hjdk) in Hp. simpl in Hp.
    apply list_elem_of_singleton in Hp. discriminate.
Qed.

(** C8, as amended.  Once the JDK request has been answered, a file list of
    length zero or above one makes the body raise [ValueError] without having
    asked for a process; and a process is asked for only with exactly one
    file. *)
Theorem analyze_accepts_exactly_one_file E pc sf tool :
  (∀ env, prepare_jdk_environment E jdk_request = Return env →
          length (files sf) ≠ 1 →
     (∃ msg, (analyze_kotlin_source_dependencies E pc sf tool).2
             = Raise (ValueError msg))
     ∧ ¬ requests_process_execution
           (analyze_kotlin_source_dependencies E pc sf tool))
  ∧ (requests_process_execution
       (analyze_kotlin_source_dependencies E pc sf tool) →
     length (files sf) = 1).
Proof.
  split; [|apply analyze_process_needs_one_file].
  intros env Hjdk Hlen. split.
  - destruct (analyze_not_one_file E pc sf tool env Hjdk Hlen) as [msg ->].
    by exists msg.
  - by intros ?%analyze_process_needs_one_file.
Qed.

Lemma resolve_returns_iff E fr parsed :
  (resolve_fallible_result_to_analysis E fr).2 = Return parsed
  ↔ ∃ result first rest analysis,
      fallible_to_exec_result_or_raise E (process_result fr) failure_description
        = Return result
      ∧ get_digest_contents E (result_output_digest result) = Return (first :: rest)
      ∧ json_loads (content first) = Return analysis
      ∧ from_json_dict analysis = Return parsed.
Proof.
  unfold resolve_fallible_result_to_analysis. run_rule. split.
  - intros Hret.
    destruct (fallible_to_exec_result_or_raise E _ _) as [result|e] eqn:Hconv;
      simpl in Hret; [|discriminate].
    destruct (get_digest_contents E _) as [[|first rest]|e] eqn:Hcontents;
      simpl in Hret; try discriminate.
    destruct (json_loads (content first)) as [analysis|e] eqn:Hjson;
      simpl in Hret; [|discriminate].
    destruct (from_json_dict analysis) as [a|e] eqn:Hparse;
      simpl in Hret; [|discriminate].
    injection Hret as <-. by exists result, first, rest, analysis.
  - intros (result & first & rest & analysis & -> & Hcontents & Hjson & Hparse).
    simpl. rewrite Hcontents. simpl. by rewrite Hjson, Hparse.
Qed.

Lemma resolve_propagates E fr e :
  fallible_to_exec_result_or_raise E (process_result fr) failure_description
    = Raise e →
  resolve_fallible_result_to_analysis E fr
  = ([Get_fallible_to_exec_result_or_raise (process_result fr) failure_description],
     Raise e).
Proof.
  intros Hraise. unfold resolve_fallible_result_to_analysis. run_rule.
  by rewrite Hraise.
Qed.

(** C6, as amended.  For an engine whose conversion rule raises on a non-zero
    exit code: [analyze_kotlin_source_dependencies], once its other requests
    are answered, returns the process outcome wrapped and does not raise,
    whatever the exit code; [resolve_fallible_result_to_analysis] raises on a
    failed process, and returns an analysis exactly when the conversion
    succeeded, the output holds a first file, that file decodes as JSON and
    [from_json_dict] returns on the decoded value.  [from_json_dict] checks no
    types: it returns exactly on the values [readable] describes, a dict with
    the five keys whose imports and sets can be built. *)
Theorem fallible_delivery_of_process_failure E pc sf tool fr :
  raises_on_failed_process E →
  (∀ env file0 tool_classpath prefixed outcome,
      prepare_jdk_environment E jdk_request = Return env →
      files sf = [file0] →
      materialize_classpath_for_tool E
        {| lockfile := GenerateJvmLockfileFromTool_create tool |}
        = Return tool_classpath →
      add_prefix E (digest (snapshot sf)) source_prefix = Return prefixed →
      execute_process E
        (parser_process (from_jdk_environment env) tool_classpath pc file0 prefixed)
        = Return outcome →
      (analyze_kotlin_source_dependencies E pc sf tool).2
      = Return {| process_result := outcome |})
  ∧ (exit_code (process_result fr) ≠ 0%Z →
     ∃ e, (resolve_fallible_result_to_analysis E fr).2 = Raise e)
  ∧ (∀ parsed,
       (resolve_fallible_result_to_analysis E fr).2 = Return parsed
       ↔ exit_code (process_result fr) = 0%Z
         ∧ ∃ result first rest analysis,
             fallible_to_exec_result_or_raise E (process_result fr)
               failure_description = Return result
             ∧ get_digest_contents E (result_output_digest result)
               = Return (first :: rest)
             ∧ json_loads (content first) = Return analysis
             ∧ from_json_dict analysis = Return parsed)
  ∧ (returns (resolve_fallible_result_to_analysis E fr).2 = true
     ↔ exit_code (process_result fr) = 0%Z
       ∧ ∃ result first rest analysis,
           fallible_to_exec_result_or_raise E (process_result fr)
             failure_description = Return result
           ∧ get_digest_contents E (result_output_digest result)
             = Return (first :: rest)
           ∧ json_loads (content first) = Return analysis
           ∧ readable analysis = true).
Proof.
  intros Hcontract.
  assert (∀ parsed,
    (resolve_fallible_result_to_analysis E fr).2 = Return parsed
    ↔ exit_code (process_result fr) = 0%Z
      ∧ ∃ result first rest analysis,
          fallible_to_exec_result_or_raise E (process_result fr)
            failure_description = Return result
          ∧ get_digest_contents E (result_output_digest result)
            = Return (first :: rest)
          ∧ json_loads (content first) = Return analysis
          ∧ from_json_dict analysis = Return parsed) as Hreturn.
  { intros parsed. rewrite resolve_returns_iff. split.
    - intros (result & first & rest & analysis & Hconv & Hrest).
      split; [|by eauto 10].
      destruct (decide (exit_code (process_result fr) = 0%Z)) as [|Hne]; [done|].
      destruct (Hcontract _ failure_description Hne) as [e He]. congruence.
    - by intros [_ ?]. }
  split; [|split; [|split; [exact Hreturn|]]].
  - intros env file0 tool_classpath prefixed outcome Hjdk Hfiles Hcp Hprefix Hrun.
    rewrite (analyze_one_file E pc sf tool env file0 tool_classpath prefixed)
      by done.
    simpl. by rewrite Hrun.
  - intros Hfailed.
    destruct (Hcontract (process_result fr) failure_description Hfailed)
      as [e He].
    exists e. by rewrite (resolve_propagates E fr e He).
  - split.
    + destruct ((resolve_fallible_result_to_analysis E fr).2) as [parsed|e]
        eqn:Hresolved; [intros _|done].
      destruct (proj1 (Hreturn parsed) eq_refl)
        as (Hexit & result & first & rest & analysis & Hconv & Hcontents
            & Hjson & Hparse).
      split; [done|]. exists result, first, rest, analysis.
      repeat split; try done.
      by rewrite <- from_json_dict_returns, Hparse.
    + intros (Hexit & result & first & rest & analysis & Hconv & Hcontents
              & Hjson & Hreadable).
      rewrite <- from_json_dict_returns in Hreadable.
      destruct (from_json_dict analysis) as [parsed|e] eqn:Hparse; [|done].
      rewrite (proj2 (Hreturn parsed)); [done|].
      split; [done|]. by exists result, first, rest, analysis.
Qed.
End Rules.

(** *** A concrete engine to run the rules against

    The opaque engine types are instantiated by [unit]; the conversion rule
    returns the result on exit code 0 and raises [ProcessExecutionFailure]
    otherwise; the JSON decoder knows one document. *)
Definition convert_or_raise (r : FallibleProcessResult) (desc : string)
  : result ProcessResult :=
  if bool_decide (exit_code r = 0%Z) then
    Return {| result_stdout := stdout r; result_stderr := stderr r;
              result_output_digest := output_digest r |}
  else Raise (ProcessExecutionFailure (exit_code r) desc).

Definition sample_engine (jdk : result unit) (outcome : FallibleProcessResult)
    (contents : list FileContent) : engine unit unit unit unit :=
  {| prepare_jdk_environment := λ _, jdk;
     materialize_classpath_for_tool := λ _, Return tt;
     add_prefix := λ d _, Return d;
     execute_process := λ _, Return outcome;
     fallible_to_exec_result_or_raise := convert_or_raise;
     get_digest_contents := λ _, Return contents |}.

Definition sample_document : json :=
  JObject (list_to_map
    [ ("package", JString "org.example");
      ("imports", JArray [ JObject (list_to_map
                             [ ("name", JString "kotlin.io.path");
                               ("isWildcard", JBool true) ]) ]);
      ("namedDeclarations", JArray [ JString "org.example.Main" ]);
      ("consumedSymbolsByScope",
        JObject (list_to_map [ ("org.example", JArray [ JString "Path" ]) ]));
      ("scopes", JArray [ JString "org.example" ]) ]).

Definition sample_json_loads (text : string) : result json :=
  if bool_decide (text = "sample") then Return sample_document
  else Raise (JSONDecodeError "Expecting value").

Definition sample_analysis : KotlinSourceDependencyAnalysis :=
  {| package := "org.example";
     imports := {[ {| name := "kotlin.io.path"; alias := None; is_wildcard := true |} ]};
     named_declarations := {[ "org.example.Main" ]};
     consumed_symbols_by_scope := {[ "org.example" := {[ "Path" ]} ]};
     scopes := {[ "org.example" ]} |}.

Definition sample_analyze (E : engine unit unit unit unit) (sf : SourceFiles)
  : rule unit unit FallibleKotlinSourceDependencyAnalysisResult :=
  analyze_kotlin_source_dependencies unit unit unit unit unit
    (λ _, tt) (λ _, tt) (λ _, EMPTY_DIGEST) (λ _ prefix, [prefix ++ "/kotlinc.jar"])
    E {| classfiles_digest := EMPTY_DIGEST |} sf tt.

Definition sample_resolve (E : engine unit unit unit unit)
    (fr : FallibleKotlinSourceDependencyAnalysisResult)
  : rule unit unit KotlinSourceDependencyAnalysis_instance :=
  resolve_fallible_result_to_analysis unit unit unit unit sample_json_loads E fr.

Definition sources_of (paths : list string) : SourceFiles :=
  {| snapshot := {| digest := EMPTY_DIGEST; snapshot_files := paths |};
     files := paths |}.

Definition outcome_with_exit (code : Z) : FallibleProcessResult :=
  {| exit_code := code; stdout := ""; stderr := ""; output_digest := EMPTY_DIGEST |}.

Example from_json_dict_sample :
  from_json_dict sample_document
  = Return (KotlinSourceDependencyAnalysis_instance_of sample_analysis).
Proof. reflexivity. Qed.

Example from_json_dict_missing_key :
  from_json_dict (JObject ∅) = Raise (KeyError "package").
Proof. reflexivity. Qed.

Example from_json_dict_package_5 :
  from_json_dict
    (JObject (list_to_map
       [ ("package", JNumber 5); ("imports", JArray []);
         ("namedDeclarations", JArray []);
         ("consumedSymbolsByScope", JObject ∅); ("scopes", JArray []) ]))
  = Return {| instance_package := JNumber 5;
              instance_imports := ∅;
              instance_named_declarations := ∅;
              instance_consumed_symbols_by_scope := ∅;
              instance_scopes := ∅ |}.
Proof. reflexivity. Qed.

Example from_json_dict_named_declarations_str :
  from_json_dict
    (JObject (list_to_map
       [ ("package", JString "p"); ("imports", JArray []);
         ("namedDeclarations", JString "aba");
         ("consumedSymbolsByScope", JObject ∅); ("scopes", JArray []) ]))
  = Return {| instance_package := JString "p";
              instance_imports := ∅;
              instance_named_declarations :=
                {[ KStr "a" := JString "a"; KStr "b" := JString "b" ]};
              instance_consumed_symbols_by_scope := ∅;
              instance_scopes := ∅ |}.
Proof. reflexivity. Qed.

Example KotlinImport_from_json_dict_name_5 :
  KotlinImport_from_json_dict (JObject {[ "name" := JNumber 5 ]})
  = Raise (KeyError "isWildcard").
Proof. reflexivity. Qed.

(** [frozenset([True, 1, 1.0, 2, 1.5])] has the members [True], [2] and
    [1.5]. *)
Example frozenset_True_1 :
  frozenset_of_json
    (JArray [ JBool true; JNumber 1; JFloat (S754_finite false 4 (-2));
              JNumber 2; JFloat (S754_finite false 6 (-2)) ])
  = Return {[ KInt 1 := JBool true; KInt 2 := JNumber 2;
              KFraction false 3 (-1) := JFloat (S754_finite false 6 (-2)) ]}.
Proof. reflexivity. Qed.

Example from_json_dict_list : from_json_dict (JArray []) = Raise not_subscriptable.
Proof. reflexivity. Qed.

Example from_json_dict_imports_of_unhashable_name :
  from_json_dict
    (JObject (list_to_map
       [ ("package", JString "p");
         ("imports",
          JArray [ JObject (list_to_map [ ("name", JArray []);
                                          ("isWildcard", JBool false) ]);
                   JObject ∅ ]) ]))
  = Raise not_a_set.
Proof. reflexivity. Qed.

Example from_json_dict_by_scope_list :
  from_json_dict
    (JObject (list_to_map
       [ ("package", JString "p"); ("imports", JString "");
         ("namedDeclarations", JObject ∅);
         ("consumedSymbolsByScope", JArray []); ("scopes", JArray []) ]))
  = Raise (AttributeError "items").
Proof. reflexivity. Qed.

Example analyze_two_files :
  sample_analyze (sample_engine (Return tt) (outcome_with_exit 0) [])
    (sources_of ["a/Main.kt"; "a/Util.kt"])
  = ([Get_prepare_jdk_environment unit unit jdk_request],
     Raise (ValueError
       "analyze_kotlin_source_dependencies expects sources with exactly 1 source file, but found 2.")).
Proof. reflexivity. Qed.

Example analyze_no_file :
  (sample_analyze (sample_engine (Return tt) (outcome_with_exit 0) [])
     (sources_of [])).2
  = Raise (ValueError
      "analyze_kotlin_source_dependencies expects sources with exactly 1 source file, but found none.").
Proof. reflexivity. Qed.

Example resolve_sample :
  (sample_resolve
     (sample_engine (Return tt) (outcome_with_exit 0)
        [ {| path := analysis_output_path; content := "sample" |} ])
     {| process_result := outcome_with_exit 0 |}).2
  = Return (KotlinSourceDependencyAnalysis_instance_of sample_analysis).
Proof. reflexivity. Qed.

Lemma sample_engine_raises_on_failed_process jdk outcome contents :
  raises_on_failed_process unit unit unit unit (sample_engine jdk outcome contents).
Proof.
  intros r desc Hfailed. simpl. unfold convert_or_raise.
  rewrite bool_decide_false by done. eauto.
Qed.

(** The file-count check comes after the JDK request: when that request
    fails, an empty file list does not lead to [ValueError]. *)
Lemma analyze_no_file_jdk_failure :
  length (files (sources_of [])) = 0
  ∧ (sample_analyze
       (sample_engine (Raise (EngineFailure "prepare_jdk_environment"))
          (outcome_with_exit 0) [])
       (sources_of [])).2
    = Raise (EngineFailure "prepare_jdk_environment").
Proof. split; reflexivity. Qed.

(** A process that exits with 0 and leaves no output file: the conversion
    succeeds and the rule still raises. *)
Lemma resolve_raises_after_successful_process :
  exit_code (process_result {| process_result := outcome_with_exit 0 |}) = 0%Z
  ∧ (sample_resolve
       (sample_engine (Return tt) (outcome_with_exit 0) [])
       {| process_result := outcome_with_exit 0 |}).2
    = Raise (IndexError "tuple index out of range").
Proof. split; reflexivity. Qed.

(** The theorem at the sample engine with a process that exits with 1: the
    analysing rule returns the failed outcome as a value, the resolving rule
    raises on it. *)
Lemma fallible_delivery_at_failed_process :
  (sample_analyze (sample_engine (Return tt) (outcome_with_exit 1) [])
     (sources_of ["a/Main.kt"])).2
  = Return {| process_result := outcome_with_exit 1 |}
  ∧ ∃ e, (sample_resolve (sample_engine (Return tt) (outcome_with_exit 1) [])
            {| process_result := outcome_with_exit 1 |}).2 = Raise e.
Proof.
  destruct (fallible_delivery_of_process_failure unit unit unit unit unit
              (λ _, tt) (λ _, tt) (λ _, EMPTY_DIGEST)
              (λ _ prefix, [prefix ++ "/kotlinc.jar"]) sample_json_loads
              (sample_engine (Return tt) (outcome_with_exit 1) [])
              {| classfiles_digest := EMPTY_DIGEST |}
              (sources_of ["a/Main.kt"]) tt
              {| process_result := outcome_with_exit 1 |}
              (sample_engine_raises_on_failed_process _ _ _))
    as (Hanalyze & Hresolve & _).
  split.
  - apply (Hanalyze tt "a/Main.kt" tt EMPTY_DIGEST); reflexivity.
  - apply Hresolve. discriminate.
Defined.

(** The theorem at the sample engine with two source files. *)
Lemma analyze_two_files_rejected :
  (∃ msg, (sample_analyze (sample_engine (Return tt) (outcome_with_exit 0) [])
             (sources_of ["a/Main.kt"; "a/Util.kt"])).2
          = Raise (ValueError msg))
  ∧ ¬ requests_process_execution unit unit
        (sample_analyze (sample_engine (Return tt) (outcome_with_exit 0) [])
           (sources_of ["a/Main.kt"; "a/Util.kt"])).
Proof.
  apply (analyze_accepts_exactly_one_file unit unit unit unit unit
           (λ _, tt) (λ _, tt) (λ _, EMPTY_DIGEST)
           (λ _ prefix, [prefix ++ "/kotlinc.jar"])
           (sample_engine (Return tt) (outcome_with_exit 0) [])
           {| classfiles_digest := EMPTY_DIGEST |}
           (sources_of ["a/Main.kt"; "a/Util.kt"]) tt) with (env := tt).
  - reflexivity.
  - discriminate.
Defined.

End KotlinParser.

(** ** The frozen dataclasses of [nodejs.py], [install_node_package.py] and
       [kotlin_parser.py] *)
Module Dataclasses.
Import Py Engine.

(** The values the fields of these classes hold, after their annotations.
    [Mapping[str, str]] is met by a [FrozenDict] and by a plain [dict]. *)
Inductive field_value :=
| VStr (s : string)
| VOptStr (s : option string)
| VOptInt (n : option Z)
| VStrTuple (items : list string)
| VLogLevel (l : LogLevel)
| VDigest (d : Digest)
| VOptDigest (d : option Digest)
| VAddress (a : Address)
| VFrozenDict (m : gmap string string)
| VDict (m : gmap string string)
| VStrFrozenset (s : gset string)
| VImportFrozenset (s : gset KotlinParser.KotlinImport)
| VFrozensetFrozenDict (m : gmap string (gset string)).

(** [hash(v)] is defined for every value but a [dict]. *)
Definition hashable (v : field_value) : bool :=
  match v with
  | VDict _ => false
  | _ => true
  end.

(** The arguments of the [@dataclass] decorator, with their defaults. *)
Record dataclass_params :=
  { eq_ : bool; order : bool; frozen : bool; unsafe_hash : bool }.
Definition dataclass_defaults : dataclass_params :=
  {| eq_ := true; order := false; frozen := false; unsafe_hash := false |}.
(** [@dataclass(frozen=True)] *)
Definition frozen_dataclass : dataclass_params :=
  {| eq_ := true; order := false; frozen := true; unsafe_hash := false |}.

Record dataclass :=
  { cls_name : string; params : dataclass_params; field_names : list string }.

Record instance := { cls : dataclass; values : list field_value }.

(** What the decorator does about [__hash__] for a class that defines none:
    it adds one computed from the fields, sets it to [None], or leaves the
    inherited identity hash. *)
Inductive hash_action := AddHash | SetHashNone | InheritHash.
Definition hash_action_of (p : dataclass_params) : hash_action :=
  if unsafe_hash p then AddHash
  else if negb (eq_ p) then InheritHash
  else if frozen p then AddHash
  else SetHashNone.

(** [setattr(o, name, v)]: the [__setattr__] of a frozen dataclass raises; an
    ordinary instance rebinds the field (or gains an attribute that is no
    field). *)
Definition dataclass_setattr (o : instance) (name : string) (v : field_value)
  : result instance :=
  if frozen (params (cls o)) then
    Raise (FrozenInstanceError ("cannot assign to field '" ++ name ++ "'"))
  else
    match list_find (λ n, n = name) (field_names (cls o)) with
    | Some (i, _) => Return {| cls := cls o; values := <[i := v]> (values o) |}
    | None => Return o
    end.


#[global] Instance field_value_eq_dec : EqDecision field_value.
Proof. solve_decision. Defined.
#[global] Instance dataclass_params_eq_dec : EqDecision dataclass_params.
Proof. solve_decision. Defined.
#[global] Instance dataclass_eq_dec : EqDecision dataclass.
Proof. solve_decision. Defined.


Inductive hash_outcome :=
| Hashed (h : Z)
| HashedByIdentity
| Unhashable (e : exn).

Section Hash.
(** [hash] of a tuple of hashable values: within one interpreter run it is a
    function of the contents. *)
Variable tuple_hash : list field_value → Z.

(** [hash(o)]: the generated [__hash__] returns [hash((f1, ..., fn))]. *)
Definition dataclass_hash (o : instance) : hash_outcome :=
  match hash_action_of (params (cls o)) with
  | AddHash =>
      if forallb hashable (values o) then Hashed (tuple_hash (values o))
      else Unhashable (TypeError "unhashable type: 'dict'")
  | SetHashNone =>
      Unhashable (TypeError ("unhashable type: '" ++ cls_name (cls o) ++ "'"))
  | InheritHash => HashedByIdentity
  end.
End Hash.

(** *** The three classes *)

Inductive Mapping :=
| FrozenDict (items : gmap string string)
| dict (items : gmap string string).

Definition Mapping_value (m : Mapping) : field_value :=
  match m with FrozenDict items => VFrozenDict items | dict items => VDict items end.
Definition Mapping_items (m : Mapping) : gmap string string :=
  match m with FrozenDict items | dict items => items end.

(** [NodeJSToolProcess] (nodejs.py, lines 274-289). *)
Record NodeJSToolProcess :=
  { tool : string;
    tool_version : option string;
    args : list string;
    description : string;
    level : LogLevel;
    input_digest : Digest;
    output_files : list string;
    output_directories : list string;
    working_directory : option string;
    append_only_caches : gmap string string;
    timeout_seconds : option Z;
    extra_env : Mapping;
    project_digest : option Digest }.

(** [NodeJSToolProcess.npm] (lines 291-322); [x or FrozenDict()] replaces
    [None] and an empty mapping by an empty [FrozenDict]. *)
Definition npm (args : list string) (description : string) (level : LogLevel)
    (input_digest : Digest) (output_files output_directories : list string)
    (working_directory : option string)
    (append_only_caches : option (gmap string string))
    (timeout_seconds : option Z) (extra_env : option Mapping)
    (tool_version : option string) (project_digest : option Digest)
  : NodeJSToolProcess :=
  {| tool := "npm";
     tool_version := tool_version;
     args := args;
     description := description;
     level := level;
     input_digest := input_digest;
     output_files := output_files;
     output_directories := output_directories;
     working_directory := working_directory;
     append_only_caches := default ∅ append_only_caches;
     timeout_seconds := timeout_seconds;
     extra_env :=
       match extra_env with
       | Some m => if bool_decide (Mapping_items m = ∅) then FrozenDict ∅ else m
       | None => FrozenDict ∅
       end;
     project_digest := project_digest |}.

(** [InstalledNodePackageRequest] (install_node_package.py, lines 41-43). *)
Record InstalledNodePackageRequest := { address : Address }.

(** A class decorated with [@dataclass]: its descriptor and the tuple of its
    field values in declaration order. *)
Class Dataclass (T : Type) :=
  { descriptor : dataclass; astuple : T → list field_value }.

Definition instance_of {T} `{Dataclass T} (x : T) : instance :=
  {| cls := descriptor; values := astuple x |}.

#[global] Instance NodeJSToolProcess_dataclass : Dataclass NodeJSToolProcess :=
  {| descriptor :=
       {| cls_name := "NodeJSToolProcess";
          params := frozen_dataclass;
          field_names :=
            [ "tool"; "tool_version"; "args"; "description"; "level";
              "input_digest"; "output_files"; "output_directories";
              "working_directory"; "append_only_caches"; "timeout_seconds";
              "extra_env"; "project_digest" ] |};
     astuple p :=
       [ VStr (tool p); VOptStr (tool_version p); VStrTuple (args p);
         VStr (description p); VLogLevel (level p); VDigest (input_digest p);
         VStrTuple (output_files p); VStrTuple (output_directories p);
         VOptStr (working_directory p); VFrozenDict (append_only_caches p);
         VOptInt (timeout_seconds p); Mapping_value (extra_env p);
         VOptDigest (project_digest p) ] |}.

#[global] Instance InstalledNodePackageRequest_dataclass
  : Dataclass InstalledNodePackageRequest :=
  {| descriptor :=
       {| cls_name := "InstalledNodePackageRequest";
          params := frozen_dataclass;
          field_names := [ "address" ] |};
     astuple r := [ VAddress (address r) ] |}.

#[global] Instance KotlinSourceDependencyAnalysis_dataclass
  : Dataclass KotlinParser.KotlinSourceDependencyAnalysis :=
  {| descriptor :=
       {| cls_name := "KotlinSourceDependencyAnalysis";
          params := frozen_dataclass;
          field_names :=
            [ "package"; "imports"; "named_declarations";
              "consumed_symbols_by_scope"; "scopes" ] |};
     astuple a :=
       [ VStr (KotlinParser.package a);
         VImportFrozenset (KotlinParser.imports a);
         VStrFrozenset (KotlinParser.named_declarations a);
         VFrozensetFrozenDict (KotlinParser.consumed_symbols_by_scope a);
         VStrFrozenset (KotlinParser.scopes a) ] |}.



Section Properties.
Variable tuple_hash : list field_value → Z.












End Properties.

(** An [npm] request built with a plain, non-empty [dict] for [extra_env]:
    the annotation admits it and the instance has no hash. *)
Definition npm_install_with_dict_env : NodeJSToolProcess :=
  npm ["install"] "Installing node packages" INFO EMPTY_DIGEST [] [] None None
    None (Some (dict {[ "NODE_ENV" := "production" ]})) None None.


Example npm_install_frozen :
  dataclass_setattr (instance_of npm_install_with_dict_env) "tool" (VStr "yarn")
  = Raise (FrozenInstanceError "cannot assign to field 'tool'").
Proof. reflexivity. Qed.

Example npm_empty_dict_env_replaced :
  extra_env (npm ["ci"] "Installing" INFO EMPTY_DIGEST [] [] None None None
               (Some (dict ∅)) None None)
  = FrozenDict ∅.
Proof. reflexivity. Qed.

(** A class declared with a bare [@dataclass] is neither frozen nor hashable. *)
Example plain_dataclass_unhashable :
  dataclass_hash (λ _, 0%Z)
    {| cls := {| cls_name := "Plain"; params := dataclass_defaults;
                 field_names := ["x"] |};
       values := [VStr "a"] |}
  = Unhashable (TypeError "unhashable type: 'Plain'").
Proof. reflexivity. Qed.


End Dataclasses.

(** ** The Content Store (spec, sections 3 and 4.1)

    The store itself is engine code outside the embedded sources; the
    backends above only call it ([merge_digests], [add_prefix],
    [remove_prefix], [create_digest]). *)
Module ContentStore.

(** Modelled from the spec: the store's data (section 3: a Digest identifies
    "an immutable blob or directory tree") is missing from the sources.  A
    tree is a blob of bytes or a directory of named trees. *)
Inductive tree :=
| File (content : string)
| Directory (entries : gmap string tree).

(** Modelled from the spec: the error taxonomy of section 7, restricted to the
    store-level errors. *)
Inductive store_error :=
| ConflictError
| PathNotFoundError
| NotFoundError.

Inductive outcome (A : Type) :=
| Ok (a : A)
| Err (e : store_error).
Arguments Ok {A} a.
Arguments Err {A} e.

(** The components of a relative path: it is cut at slashes and empty
    components are dropped. *)
Fixpoint split_path_from (component path : string) : list string :=
  match path with
  | EmptyString => if bool_decide (component = "") then [] else [component]
  | String c rest =>
      if Ascii.eqb c "/" then
        if bool_decide (component = "") then split_path_from "" rest
        else component :: split_path_from "" rest
      else split_path_from (component ++ String c "") rest
  end.
Definition split_path (path : string) : list string := split_path_from "" path.

(** The node a tree holds at a path, if any. *)
Fixpoint lookup_path (t : tree) (path : list string) : option tree :=
  match path with
  | [] => Some t
  | name :: rest =>
      match t with
      | File _ => None
      | Directory entries =>
          match entries !! name with
          | Some sub => lookup_path sub rest
          | None => None
          end
      end
  end.

(** The bytes a tree defines at a path, if the path names a file. *)
Definition file_at (t : tree) (path : list string) : option string :=
  match lookup_path t path with
  | Some (File content) => Some content
  | _ => None
  end.

(** Modelled from the spec: [add_prefix] (section 4.1, "pure path-rewrites
    over the tree structure") is missing from the sources.  The operations
    are given on the trees that digests identify.  Every path [q] of the tree
    becomes [path/q]. *)
Fixpoint add_prefix_at (t : tree) (path : list string) : tree :=
  match path with
  | [] => t
  | name :: rest => Directory {[ name := add_prefix_at t rest ]}
  end.
Definition add_prefix (t : tree) (path : string) : tree :=
  add_prefix_at t (split_path path).

(** Modelled from the spec: [remove_prefix] (section 4.1: it "fails with
    PathNotFoundError if the prefix doesn't exist in the tree") is missing from
    the sources.  Every path [path/q] becomes [q]; the spec says nothing of
    entries outside the prefix, and the model leaves them out of the result. *)
Fixpoint remove_prefix_at (t : tree) (path : list string) : outcome tree :=
  match path with
  | [] => Ok t
  | name :: rest =>
      match t with
      | File _ => Err PathNotFoundError
      | Directory entries =>
          match entries !! name with
          | Some sub => remove_prefix_at sub rest
          | None => Err PathNotFoundError
          end
      end
  end.
Definition remove_prefix (t : tree) (path : string) : outcome tree :=
  remove_prefix_at t (split_path path).

(** Modelled from the spec: "different content at the same path" (section
    4.1).  Two nodes found at the same path are different content when they
    are two files with different bytes, or a file against a directory. *)
Definition clash (a b : tree) : Prop :=
  match a, b with
  | File x, File y => x ≠ y
  | Directory _, Directory _ => False
  | _, _ => True
  end.

(** Modelled from the spec: the union of two directory trees behind [merge]
    (section 4.1) is missing from the sources.  Directories are united entry
    by entry; two files unite when their bytes are equal; [None] is a
    conflict. *)
Fixpoint merge_tree (a b : tree) {struct a} : option tree :=
  match a, b with
  | File x, File y => if bool_decide (x = y) then Some a else None
  | Directory entries_a, Directory entries_b =>
      let merged : gmap string (option tree) :=
        merge (λ in_a in_b,
                 match in_a, in_b with
                 | Some sub_a, Some sub_b => Some (merge_tree sub_a sub_b)
                 | Some sub, None | None, Some sub => Some (Some sub)
                 | None, None => None
                 end) entries_a entries_b in
      if bool_decide (map_Forall (λ _ sub, is_Some sub) merged)
      then Some (Directory (omap id merged))
      else None
  | _, _ => None
  end.

(** Modelled from the spec: [merge] (section 4.1: it "unions directory trees;
    fails with ConflictError if two inputs define different content at the
    same path") is missing from the sources. *)
Fixpoint merge_onto (acc : tree) (trees : list tree) : outcome tree :=
  match trees with
  | [] => Ok acc
  | t :: rest =>
      match merge_tree acc t with
      | Some merged => merge_onto merged rest
      | None => Err ConflictError
      end
  end.
Definition merge (trees : list tree) : outcome tree :=
  match trees with
  | [] => Ok (Directory ∅)
  | t :: rest => merge_onto t rest
  end.

Fixpoint size_tree (t : tree) : nat :=
  match t with
  | File _ => 1
  | Directory entries => S (map_fold (λ _ sub acc, size_tree sub + acc) 0 entries)
  end.

(** *** Digests and writes *)

(** Modelled from the spec: the Digest of section 3, "a fixed-size
    cryptographic hash + byte length", is missing from the sources. *)
Record Digest := { fingerprint : N; serialized_bytes_length : nat }.

#[global] Instance Digest_eq_dec : EqDecision Digest.
Proof. solve_decision. Defined.
#[global] Instance Digest_countable : Countable Digest.
Proof.
  apply (inj_countable' (λ d, (fingerprint d, serialized_bytes_length d))
           (λ p, {| fingerprint := p.1; serialized_bytes_length := p.2 |})).
  by intros [].
Defined.

(** The size of a fingerprint, in bits. *)
Definition fingerprint_bits : N := 256.

Section Store.
(** The cryptographic hash function; its value is cut to the fixed size. *)
Variable hash : string → N.

Definition digest_of_bytes (content : string) : Digest :=
  {| fingerprint := (hash content mod 2 ^ fingerprint_bits)%N;
     serialized_bytes_length := String.length content |}.

(** The stored blobs, by digest. *)
Abbreviation store := (gmap Digest string).

(** Modelled from the spec: [write] (section 4.1: "idempotent; writing
    identical content twice returns the same Digest without duplicating
    storage") is missing from the sources.  Content whose digest the store
    already holds is not stored again. *)
Definition write (s : store) (content : string) : store * Digest :=
  let d := digest_of_bytes content in
  (match s !! d with
   | Some _ => s
   | None => <[d := content]> s
   end, d).

(** Modelled from the spec: [read] (section 4.1: it "fails with
    NotFoundError if the digest is unknown to the store"). *)
Definition read (s : store) (d : Digest) : outcome string :=
  match s !! d with
  | Some content => Ok content
  | None => Err NotFoundError
  end.


(** The store after the contents of [history] were written to the empty
    store, the first one first. *)
Definition writes (history : list string) : store :=
  foldl (λ s content, (write s content).1) ∅ history.

End Store.

(** The [len] low-order bytes of a number, lowest first. *)
Fixpoint bytes_of_N (len : nat) (n : N) : string :=
  match len with
  | O => ""
  | S len' => String (ascii_of_N (n mod 256)) (bytes_of_N len' (n / 256))
  end.

(** A hash for running the store on examples: the sum of the byte codes. *)
Fixpoint byte_sum (content : string) : N :=
  match content with
  | EmptyString => 0
  | String c rest => N_of_ascii c + byte_sum rest
  end.

(** A tree that holds the one file [foo.txt]. *)
Definition foo_txt (content : string) : tree :=
  Directory {[ "foo.txt" := File content ]}.

(** *** Induction over trees *)

Lemma fold_measure_ge (g : tree → nat) (entries : gmap string tree) name sub :
  entries !! name = Some sub →
  (g sub ≤ map_fold (λ _ t acc, g t + acc) 0 entries)%nat.
Proof.
  induction entries as [|i x m Hi IH] using map_ind.
  - by rewrite lookup_empty.
  - rewrite map_fold_insert_L; [|intros; lia|done].
    destruct (decide (i = name)) as [->|Hne].
    + rewrite lookup_insert_eq. intros [= ->]. lia.
    + rewrite lookup_insert_ne by done. intros Hsub%IH. lia.
Qed.

Lemma tree_ind_entries (P : tree → Prop) :
  (∀ content, P (File content)) →
  (∀ entries, map_Forall (λ _ sub, P sub) entries → P (Directory entries)) →
  ∀ t, P t.
Proof.
  intros Hfile Hdir.
  assert (∀ n t, (size_tree t < n)%nat → P t) as Hsize.
  { induction n as [|n IH]; intros t Hlt; [lia|].
    destruct t as [content|entries]; [apply Hfile|apply Hdir].
    intros name sub Hsub. apply IH.
    pose proof (fold_measure_ge size_tree entries name sub Hsub) as Hle.
    simpl in Hlt. lia. }
  intros t. apply (Hsize (S (size_tree t))). lia.
Qed.

(** *** Prefixes *)

Lemma remove_add_prefix_at t path :
  remove_prefix_at (add_prefix_at t path) path = Ok t.
Proof.
  induction path as [|name rest IH]; simpl; [done|].
  by rewrite lookup_singleton_eq.
Qed.

Lemma lookup_add_prefix_at t path rest :
  lookup_path (add_prefix_at t path) (path ++ rest) = lookup_path t rest.
Proof.
  induction path as [|name path IH]; simpl; [done|].
  by rewrite lookup_singleton_eq.
Qed.

Lemma remove_prefix_at_lookup t path :
  remove_prefix_at t path
  = match lookup_path t path with
    | Some sub => Ok sub
    | None => Err PathNotFoundError
    end.
Proof.
  revert t. induction path as [|name rest IH]; intros t; simpl; [done|].
  destruct t as [content|entries]; [done|].
  destruct (entries !! name); [apply IH|done].
Qed.

(** C4.  Adding a prefix and removing it again gives the tree back, whatever
    the tree and the path; under the added prefix the tree is found as it
    was; and removing a prefix fails with [PathNotFoundError] exactly when
    the tree holds nothing at that path. *)
Theorem remove_prefix_add_prefix (t : tree) (path : string) :
  remove_prefix (add_prefix t path) path = Ok t
  ∧ (∀ rest, lookup_path (add_prefix t path) (split_path path ++ rest)
             = lookup_path t rest)
  ∧ (lookup_path t (split_path path) = None
     ↔ remove_prefix t path = Err PathNotFoundError).
Proof.
  unfold remove_prefix, add_prefix. split; [|split].
  - apply remove_add_prefix_at.
  - intros rest. apply lookup_add_prefix_at.
  - rewrite remove_prefix_at_lookup.
    destruct (lookup_path t (split_path path)); split; done.
Qed.

(** *** Merging *)

Lemma merge_tree_clash a b path node_a node_b :
  lookup_path a path = Some node_a →
  lookup_path b path = Some node_b →
  clash node_a node_b →
  merge_tree a b = None.
Proof.
  revert a b. induction path as [|name rest IH]; intros a b; simpl.
  - intros [= <-] [= <-] Hclash.
    destruct a as [x|ea], b as [y|eb]; simpl in *; try done.
    by rewrite bool_decide_false.
  - destruct a as [x|ea]; [done|]. destruct b as [y|eb]; [done|].
    destruct (ea !! name) as [sub_a|] eqn:Ha; [|done].
    destruct (eb !! name) as [sub_b|] eqn:Hb; [|done].
    intros Hla Hlb Hclash. simpl.
    rewrite bool_decide_false; [done|].
    intros Hall. specialize (Hall name None).
    rewrite lookup_merge, Ha, Hb in Hall. simpl in Hall.
    rewrite (IH _ _ Hla Hlb Hclash) in Hall.
    by destruct Hall as [? [=]].
Qed.

Lemma merge_tree_none a : ∀ b,
  merge_tree a b = None →
  ∃ path node_a node_b,
    lookup_path a path = Some node_a ∧ lookup_path b path = Some node_b
    ∧ clash node_a node_b.
Proof.
  induction a as [x|ea IH] using tree_ind_entries; intros b Hnone.
  - exists [], (File x), b. repeat split; try done.
    destruct b as [y|eb]; simpl in *; [|done].
    by case_bool_decide.
  - destruct b as [y|eb].
    { by exists [], (Directory ea), (File y). }
    simpl in Hnone. case_bool_decide as Hall; [done|].
    apply map_not_Forall in Hall as (name & o & Hlook & Ho); [|apply _].
    rewrite lookup_merge in Hlook.
    destruct (ea !! name) as [sub_a|] eqn:Ha, (eb !! name) as [sub_b|] eqn:Hb;
      simpl in Hlook; simplify_eq; try (by destruct Ho; eauto).
    destruct (merge_tree sub_a sub_b) eqn:Hsub; [by destruct Ho; eauto|].
    destruct (IH name sub_a Ha sub_b Hsub) as (path & na & nb & Hla & Hlb & Hc).
    exists (name :: path), na, nb. simpl. by rewrite Ha, Hb.
Qed.

(** What a successful merge holds at a path, from what its inputs hold. *)
Lemma merge_tree_lookup path : ∀ a b u,
  merge_tree a b = Some u →
  match lookup_path a path, lookup_path b path with
  | Some node_a, Some node_b =>
      ∃ node, lookup_path u path = Some node ∧ merge_tree node_a node_b = Some node
  | Some node, None | None, Some node => lookup_path u path = Some node
  | None, None => lookup_path u path = None
  end.
Proof.
  induction path as [|name rest IH]; intros a b u Hmerge; simpl.
  { by exists u. }
  destruct a as [x|ea], b as [y|eb]; simpl in Hmerge; try done.
  { case_bool_decide; by simplify_eq. }
  case_bool_decide as Hall; [|done]. injection Hmerge as <-.
  rewrite lookup_omap, lookup_merge.
  pose proof (Hall name) as Hname. rewrite lookup_merge in Hname.
  destruct (ea !! name) as [sub_a|], (eb !! name) as [sub_b|]; simpl in *.
  - destruct (Hname _ eq_refl) as [sub Hsub]. rewrite Hsub. simpl.
    by apply IH.
  - by destruct (lookup_path sub_a rest).
  - by destruct (lookup_path sub_b rest).
  - done.
Qed.

Lemma merge_tree_file a b u content :
  merge_tree a b = Some u →
  (u = File content ↔ a = File content ∨ b = File content).
Proof.
  destruct a as [x|ea], b as [y|eb]; simpl; try done.
  - case_bool_decide; [|done]. intros [= <-]. naive_solver.
  - case_bool_decide; [|done]. intros [= <-]. naive_solver.
Qed.

Lemma merge_tree_file_at a b u path content :
  merge_tree a b = Some u →
  (file_at u path = Some content
   ↔ file_at a path = Some content ∨ file_at b path = Some content).
Proof.
  intros Hmerge. pose proof (merge_tree_lookup path a b u Hmerge) as Hlook.
  unfold file_at.
  destruct (lookup_path a path) as [node_a|], (lookup_path b path) as [node_b|].
  - destruct Hlook as (node & -> & Hnode).
    pose proof (merge_tree_file node_a node_b node content Hnode) as Hfile.
    destruct node as [?|?], node_a as [?|?], node_b as [?|?]; naive_solver.
  - rewrite Hlook. destruct node_a; naive_solver.
  - rewrite Hlook. destruct node_b; naive_solver.
  - rewrite Hlook. naive_solver.
Qed.

Lemma merge_two a b :
  merge [a; b] = match merge_tree a b with
                 | Some u => Ok u
                 | None => Err ConflictError
                 end.
Proof. simpl. by destruct (merge_tree a b). Qed.

(** C3.  Two trees that define the same path with different bytes do not
    merge: the result is [ConflictError]; more generally the merge fails
    with [ConflictError] exactly when some shared path holds different
    content.  When every shared path holds identical content the merge
    succeeds, and the merged tree defines at each path the bytes that either
    input defines there. *)
Theorem merge_conflict_or_union (a b : tree) :
  (∀ path content_a content_b,
     file_at a path = Some content_a → file_at b path = Some content_b →
     content_a ≠ content_b →
     merge [a; b] = Err ConflictError)
  ∧ (merge [a; b] = Err ConflictError
     ↔ ∃ path node_a node_b,
         lookup_path a path = Some node_a ∧ lookup_path b path = Some node_b
         ∧ clash node_a node_b)
  ∧ ((∀ path node_a node_b,
        lookup_path a path = Some node_a → lookup_path b path = Some node_b →
        ¬ clash node_a node_b) →
     ∃ u, merge [a; b] = Ok u
          ∧ (∀ path content,
               file_at u path = Some content
               ↔ file_at a path = Some content ∨ file_at b path = Some content)
          ∧ (∀ path, is_Some (lookup_path u path)
               ↔ is_Some (lookup_path a path) ∨ is_Some (lookup_path b path))).
Proof.
  rewrite merge_two. split; [|split].
  - intros path content_a content_b Ha Hb Hne. unfold file_at in Ha, Hb.
    destruct (lookup_path a path) as [[x|?]|] eqn:Hla; simplify_eq.
    destruct (lookup_path b path) as [[y|?]|] eqn:Hlb; simplify_eq.
    by rewrite (merge_tree_clash a b path (File content_a) (File content_b)).
  - split.
    + destruct (merge_tree a b) eqn:Hmerge; [done|].
      intros _. by apply merge_tree_none.
    + intros (path & node_a & node_b & Hla & Hlb & Hclash).
      by rewrite (merge_tree_clash a b path node_a node_b).
  - intros Hagree. destruct (merge_tree a b) as [u|] eqn:Hmerge.
    + exists u. split; [done|]. split.
      * intros path content. by apply merge_tree_file_at.
      * intros path. pose proof (merge_tree_lookup path a b u Hmerge) as Hlook.
        destruct (lookup_path a path), (lookup_path b path);
          [destruct Hlook as (? & -> & _)|rewrite Hlook..];
          rewrite <- ?not_eq_None_Some; naive_solver.
    + apply merge_tree_none in Hmerge
        as (path & node_a & node_b & Hla & Hlb & Hclash).
      by destruct (Hagree path node_a node_b).
Qed.

Example split_path_nested : split_path "classfiles/org//pants/" = ["classfiles"; "org"; "pants"].
Proof. reflexivity. Qed.

Example merge_foo_txt_conflict :
  merge [foo_txt "alpha"; foo_txt "beta"] = Err ConflictError.
Proof. reflexivity. Qed.

Example merge_foo_txt_identical :
  merge [foo_txt "alpha";
         Directory {[ "foo.txt" := File "alpha";
                      "node_modules" := Directory {[ "left-pad.js" := File "pad" ]} ]}]
  = Ok (Directory {[ "foo.txt" := File "alpha";
                     "node_modules" := Directory {[ "left-pad.js" := File "pad" ]} ]}).
Proof. reflexivity. Qed.

Example remove_prefix_missing :
  remove_prefix (foo_txt "alpha") "classfiles" = Err PathNotFoundError.
Proof. reflexivity. Qed.

Example add_prefix_empty_tree :
  add_prefix (Directory ∅) "__source_to_analyze"
  = Directory {[ "__source_to_analyze" := Directory ∅ ]}.
Proof. reflexivity. Qed.

Lemma length_bytes_of_N len n : String.length (bytes_of_N len n) = len.
Proof. revert n. induction len as [|len IH]; intros n; simpl; [done|]. by rewrite IH. Qed.

Lemma bytes_of_N_inj len (n m : N) :
  (n < 256 ^ N.of_nat len)%N → (m < 256 ^ N.of_nat len)%N →
  bytes_of_N len n = bytes_of_N len m → n = m.
Proof.
  revert n m. induction len as [|len IH]; intros n m Hn Hm Heq.
  - simpl in Hn, Hm. lia.
  - simpl in Heq. injection Heq as Hlow Hhigh.
    rewrite Nat2N.inj_succ, N.pow_succ_r' in Hn, Hm.
    assert (n mod 256 = m mod 256)%N as Hmod.
    { rewrite <- (N_ascii_embedding (n mod 256)), <- (N_ascii_embedding (m mod 256)).
      - by rewrite Hlow.
      - by apply N.mod_lt.
      - by apply N.mod_lt. }
    assert (n / 256 = m / 256)%N as Hdiv.
    { apply IH; [| |done].
      - apply N.Div0.div_lt_upper_bound. lia.
      - apply N.Div0.div_lt_upper_bound. lia. }
    rewrite (N.div_mod n 256), (N.div_mod m 256) by done. by rewrite Hmod, Hdiv.
Qed.

(** More items than values: no function maps the items to distinct values. *)
Lemma no_injection_into_fewer {A} (items : list A) (f : A → nat) (bound : nat) :
  NoDup items → (bound < length items)%nat →
  (∀ x, x ∈ items → (f x < bound)%nat) →
  ¬ (∀ x y, x ∈ items → y ∈ items → f x = f y → x = y).
Proof.
  intros Hnodup Hlen Hbound Hinj.
  assert (NoDup (f <$> items)) as Himage by by apply NoDup_fmap_2_strong.
  assert (f <$> items ⊆+ seq 0 bound) as Hsub.
  { apply NoDup_submseteq; [done|].
    intros y (x & -> & Hx)%list_elem_of_fmap. apply elem_of_seq.
    specialize (Hbound x Hx). lia. }
  apply submseteq_length in Hsub.
  rewrite length_fmap, length_seq in Hsub. lia.
Qed.

(** A hash cut to [bits] bits does not tell all byte strings apart: among
    the strings of [bits + 1] bytes two share their fingerprint. *)
Lemma cut_hash_collides (hash : string → N) (bits : N) :
  ¬ (∀ a b : string,
       String.length a = String.length b →
       (hash a mod 2 ^ bits)%N = (hash b mod 2 ^ bits)%N → a = b).
Proof.
  intros Hinj.
  set (len := S (N.to_nat bits)).
  assert (2 ^ bits < 256 ^ N.of_nat len)%N as Hroom.
  { unfold len. rewrite Nat2N.inj_succ, N2Nat.id, N.pow_succ_r'.
    assert (2 ^ bits ≤ 256 ^ bits)%N by (apply N.pow_le_mono_l; lia).
    assert (0 < 256 ^ bits)%N by (apply N.neq_0_lt_0, N.pow_nonzero; lia).
    lia. }
  remember (N.to_nat (2 ^ bits)) as bound eqn:Hb.
  assert (N.of_nat bound = 2 ^ bits)%N as Hbound by (subst; apply N2Nat.id).
  clear Hb.
  set (items := (λ i, bytes_of_N len (N.of_nat i)) <$> seq 0 (S bound)).
  apply (no_injection_into_fewer items
           (λ content, N.to_nat (hash content mod 2 ^ bits)) bound).
  - apply NoDup_fmap_2_strong; [|apply NoDup_seq].
    intros i j Hi%elem_of_seq Hj%elem_of_seq Heq.
    apply bytes_of_N_inj in Heq; lia.
  - unfold items. rewrite length_fmap, length_seq. lia.
  - intros content _.
    assert (hash content mod 2 ^ bits < 2 ^ bits)%N.
    { apply N.mod_lt, N.pow_nonzero. lia. }
    lia.
  - intros a b (i & -> & Hi)%list_elem_of_fmap (j & -> & Hj)%list_elem_of_fmap Heq.
    apply Hinj; [|lia]. by rewrite !length_bytes_of_N.
Qed.

Section StoreProperties.
Variable hash : string → N.
Abbreviation store := (gmap Digest string).

Lemma write_digest s content : (write hash s content).2 = digest_of_bytes hash content.
Proof. done. Qed.










(** The pigeonhole: no hash tells all contents apart. *)
Lemma digest_collision :
  ¬ (∀ a b, digest_of_bytes hash a = digest_of_bytes hash b → a = b).
Proof.
  intros Hinj. apply (cut_hash_collides hash fingerprint_bits).
  intros a b Hlen Hfp. apply Hinj. unfold digest_of_bytes. by rewrite Hlen, Hfp.
Qed.

End StoreProperties.

Example write_twice_one_copy :
  size (write byte_sum (write byte_sum ∅ "alpha").1 "alpha").1 = 1%nat.
Proof. reflexivity. Qed.

(** What a collision does: [byte_sum] does not tell "ab" and "ba" apart, and
    the store that was given both holds the first one only. *)
Example byte_sum_collision :
  "ab" ≠ "ba"
  ∧ (write byte_sum ∅ "ab").2 = (write byte_sum ∅ "ba").2
  ∧ read (writes byte_sum ["ab"; "ba"]) (write byte_sum ∅ "ba").2 = Ok "ab".
Proof. split; [discriminate|]. split; reflexivity. Qed.


(** The merge theorem at two trees that define [foo.txt] differently. *)
Lemma merge_foo_txt_different_content :
  merge [foo_txt "alpha"; foo_txt "beta"] = Err ConflictError.
Proof.
  apply (merge_conflict_or_union (foo_txt "alpha") (foo_txt "beta"))
    with (path := ["foo.txt"]) (content_a := "alpha") (content_b := "beta").
  - reflexivity.
  - reflexivity.
  - discriminate.
Defined.

(** The prefix theorem at the prefix the Kotlin rule strips. *)
Lemma remove_prefix_add_prefix_classfiles :
  remove_prefix (add_prefix (foo_txt "alpha") "classfiles") "classfiles"
  = Ok (foo_txt "alpha").
Proof. apply (remove_prefix_add_prefix (foo_txt "alpha") "classfiles"). Defined.


End ContentStore.

(** ** The Dependency Graph (spec, sections 3 and 4.2)

    The graph and the scheduler are engine code outside the embedded
    sources; the rules above reach them only through [await]. *)
Module DependencyGraph.

(** Modelled from the spec: the Node of section 3, "a (RuleIdentity,
    ParamSet) pair", with its lifecycle "{Pending, Running, Completed(Value),
    Failed(Error)}", is missing from the sources.  Within one Generation the
    node is the memoization key. *)
Definition node : Type := string * list string.

(** The values that rules return. *)
Definition value : Type := string.

(** Modelled from the spec: the errors of section 7 that a node can fail
    with. *)
Inductive error :=
| CycleError (chain : list node)
| NoRuleError (n : node)
| ExecutionError (msg : string).

Inductive node_state :=
| Pending
| Running
| Completed (v : value)
| Failed (e : error).

(** What an execution ends with, and what its waiters are handed. *)
Inductive outcome :=
| Value (v : value)
| Error (e : error).

Definition state_of (o : outcome) : node_state :=
  match o with
  | Value v => Completed v
  | Error e => Failed e
  end.

(** Modelled from the spec: the graph of section 4.2 owns the node states and
    the edges "discovered dynamically"; [edges] maps a node to the nodes its
    execution has requested, in request order. *)
Record graph :=
  { states : gmap node node_state;
    edges : gmap node (list node) }.

Definition empty_graph : graph := {| states := ∅; edges := ∅ |}.

(** Modelled from the spec: the "not-yet-completed nodes" of section 4.2.  A
    node is not yet completed while it has neither a value nor an error. *)
Definition is_live (g : graph) (n : node) : bool :=
  match states g !! n with
  | Some (Completed _) | Some (Failed _) => false
  | _ => true
  end.

Definition successors (g : graph) (n : node) : list node :=
  default [] (edges g !! n).

(** The first answer [f] gives along a list. *)
Fixpoint first_some {A B} (f : A → option B) (l : list A) : option B :=
  match l with
  | [] => None
  | x :: rest =>
      match f x with
      | Some y => Some y
      | None => first_some f rest
      end
  end.

(** Modelled from the spec: the cycle search behind [record_dependency]
    (section 4.2) is missing from the sources.  It looks for a chain of
    not-yet-completed nodes from [from] to [to] along the edges,
    searched depth first with at most [fuel] steps. *)
Fixpoint find_path (g : graph) (fuel : nat) (from to : node) : option (list node) :=
  if negb (is_live g from) then None
  else if bool_decide (from = to) then Some [from]
  else match fuel with
       | O => None
       | S fuel' =>
           (λ chain, from :: chain)
             <$> first_some (λ next, find_path g fuel' next to) (successors g from)
       end.

Definition add_edge (g : graph) (caller callee : node) : graph :=
  {| states := states g;
     edges := <[caller := (successors g caller ++ [callee])%list]> (edges g) |}.

(** Modelled from the spec: [record_dependency] (section 4.2: it "adds edge;
    if this introduces a cycle among not-yet-completed nodes, fails with
    CycleError naming the cycle's node chain") is missing from the sources.
    The new edge closes a cycle when the callee already reaches the caller;
    the search is bounded by the number of nodes that have edges. *)
Definition record_dependency (g : graph) (caller callee : node)
  : graph + error :=
  match find_path g (size (edges g)) callee caller with
  | Some chain => inr (CycleError (caller :: chain))
  | None => inl (add_edge g caller callee)
  end.

Definition set_state (g : graph) (n : node) (st : node_state) : graph :=
  {| states := <[n := st]> (states g); edges := edges g |}.

(** Modelled from the spec: [get_or_create] (section 4.2: it "returns
    existing node if present", "otherwise allocates Pending node") is missing
    from the sources; the Generation is fixed, nothing is invalidated. *)
Definition get_or_create (g : graph) (n : node) : graph :=
  match states g !! n with
  | Some _ => g
  | None => set_state g n Pending
  end.

(** Modelled from the spec: the step "Pending -> Running" of the state
    machine of section 4.2, taken when the execution of the node is
    launched. *)
Definition launch (g : graph) (n : node) : graph :=
  match states g !! n with
  | Some Pending => set_state g n Running
  | _ => g
  end.

(** Modelled from the spec: [complete] (section 4.2: it "transitions Running
    -> Completed/Failed") is missing from the sources. *)
Definition complete (g : graph) (n : node) (o : outcome) : graph :=
  match states g !! n with
  | Some Running => set_state g n (state_of o)
  | _ => g
  end.

(** [chain] leads from its first node to [to] along the edges of [g], through
    not-yet-completed nodes only. *)
Inductive live_path (g : graph) (to : node) : node → list node → Prop :=
| live_path_end :
    is_live g to = true → live_path g to to [to]
| live_path_step from next chain :
    is_live g from = true →
    next ∈ successors g from →
    live_path g to next chain →
    live_path g to from (from :: chain).

(** [chain] leads from its first node to [to] along the edges of [g]. *)
Inductive edge_path (g : graph) (to : node) : node → list node → Prop :=
| edge_path_end : edge_path g to to [to]
| edge_path_step from next chain :
    next ∈ successors g from →
    edge_path g to next chain →
    edge_path g to from (from :: chain).

Definition rule_a : node := ("rule_a", ["ParamsA"]).
Definition rule_b : node := ("rule_b", []).
Definition rule_c : node := ("rule_c", []).
Definition rule_d : node := ("rule_d", []).

(** *** The state of a node *)

Definition running (g : graph) (m : node) : Prop := states g !! m = Some Running.

(** A node is started once its execution has been launched. *)
Definition is_started (g : graph) (m : node) : bool :=
  match states g !! m with
  | Some Running | Some (Completed _) | Some (Failed _) => true
  | _ => false
  end.

(** From [g] to [g'], leaving [n] aside: the same nodes are running, what
    was resolved is resolved as it was, and no edge is gone. *)
Record steady_but (n : option node) (g g' : graph) : Prop :=
  { steady_running : ∀ m, Some m ≠ n → running g' m ↔ running g m;
    steady_resolved : ∀ m o,
      states g !! m = Some (state_of o) → states g' !! m = Some (state_of o);
    steady_edges : ∀ m x, x ∈ successors g m → x ∈ successors g' m }.

Abbreviation steady := (steady_but None).

(** The outcome a node is resolved with, if it is. *)
Definition resolution (g : graph) (n : node) : option outcome :=
  match states g !! n with
  | Some (Completed v) => Some (Value v)
  | Some (Failed e) => Some (Error e)
  | _ => None
  end.

(** No not-yet-completed node reaches itself: the edge set is acyclic among
    the nodes that can still wait. *)
Definition acyclic (g : graph) : Prop :=
  ∀ from next chain,
    is_live g from = true → next ∈ successors g from →
    ¬ live_path g from next chain.

(** Only nodes whose execution was launched have requested anything. *)
Definition edges_started (g : graph) : Prop :=
  ∀ m, is_Some (edges g !! m) → is_started g m = true.

Definition sound (g : graph) : Prop := acyclic g ∧ edges_started g.

(** A graph between two runs: sound, and no execution in flight. *)
Definition idle (g : graph) : Prop := sound g ∧ ∀ m, ¬ running g m.

(** *** The cycle search *)












(** *** States and edges after each operation *)

Lemma states_set_state g n st m :
  states (set_state g n st) !! m = if decide (n = m) then Some st else states g !! m.
Proof.
  simpl. destruct (decide (n = m)) as [->|Hne].
  - by rewrite lookup_insert_eq.
  - by rewrite lookup_insert_ne.
Qed.

Lemma states_get_or_create g n m :
  states (get_or_create g n) !! m
  = match states g !! m with
    | Some st => Some st
    | None => if decide (n = m) then Some Pending else None
    end.
Proof.
  unfold get_or_create. destruct (states g !! n) as [st|] eqn:Hn.
  - destruct (states g !! m) eqn:Hm; [done|].
    destruct (decide (n = m)) as [->|]; [congruence|done].
  - rewrite states_set_state. destruct (decide (n = m)) as [->|]; [by rewrite Hn|].
    by destruct (states g !! m).
Qed.

Lemma states_launch g n m :
  states (launch g n) !! m
  = if decide (n = m) then
      match states g !! n with Some Pending => Some Running | st => st end
    else states g !! m.
Proof.
  unfold launch. destruct (decide (n = m)) as [->|Hne].
  - destruct (states g !! m) as [[]|] eqn:Hm; try done.
    by rewrite states_set_state, decide_True.
  - destruct (states g !! n) as [[]|]; try done.
    by rewrite states_set_state, decide_False.
Qed.


Lemma edges_get_or_create g n : edges (get_or_create g n) = edges g.
Proof. unfold get_or_create. by destruct (states g !! n). Qed.
Lemma edges_launch g n : edges (launch g n) = edges g.
Proof. unfold launch. by destruct (states g !! n) as [[]|]. Qed.

Lemma successors_add_edge g caller callee m :
  successors (add_edge g caller callee) m
  = if decide (caller = m) then (successors g caller ++ [callee])%list
    else successors g m.
Proof.
  unfold successors at 1. simpl. destruct (decide (caller = m)) as [->|Hne].
  - by rewrite lookup_insert_eq.
  - by rewrite lookup_insert_ne.
Qed.


Lemma state_of_not_Running o : state_of o ≠ Running.
Proof. by destruct o. Qed.
Lemma state_of_not_Pending o : state_of o ≠ Pending.
Proof. by destruct o. Qed.


Lemma is_live_resolved g m o :
  states g !! m = Some (state_of o) → is_live g m = false.
Proof. unfold is_live. intros ->. by destruct o. Qed.



(** *** Chains under changes of the graph *)


Lemma live_path_last g to from chain :
  live_path g to from chain → last chain = Some to ∧ head chain = Some from.
Proof.
  induction 1 as [Hto|from next chain Hfrom Hin Hpath [IH _]]; [done|].
  split; [|done]. rewrite last_cons, IH. done.
Qed.








Lemma edge_path_app g to mid from chain chain' :
  edge_path g mid from chain → edge_path g to mid chain' →
  ∃ joined, edge_path g to from joined.
Proof.
  intros Hfirst Hsecond.
  induction Hfirst as [|from next chain Hin Hpath [joined IH]].
  - by exists chain'.
  - exists (from :: joined). by econstructor.
Qed.

(** *** The invariants under each operation *)




(** *** The cycle search at three graphs *)

(** Two running nodes that have requested nothing yet. *)
Definition two_running (a b : node) : graph :=
  {| states := {[ a := Running; b := Running ]}; edges := ∅ |}.

Example self_request_refused :
  record_dependency (two_running rule_a rule_b) rule_a rule_a
  = inr (CycleError [rule_a; rule_a]).
Proof. reflexivity. Qed.

(** A completed node closes no cycle: a chain through it is not waiting. *)
Example completed_callee_recorded :
  record_dependency
    {| states := {[ rule_a := Completed "value"; rule_b := Running ]};
       edges := {[ rule_a := [rule_b] ]} |}
    rule_b rule_a
  = inl {| states := {[ rule_a := Completed "value"; rule_b := Running ]};
           edges := {[ rule_a := [rule_b]; rule_b := [rule_a] ]} |}.
Proof. reflexivity. Qed.

Example three_node_cycle_refused :
  record_dependency
    {| states := {[ rule_a := Running; rule_b := Running; rule_c := Running ]};
       edges := {[ rule_a := [rule_b]; rule_b := [rule_c] ]} |}
    rule_c rule_a
  = inr (CycleError [rule_c; rule_a; rule_b; rule_c]).
Proof. reflexivity. Qed.

End DependencyGraph.

(** ** Deduplication of concurrent requests (spec, sections 4.2 and 4.3) *)
Module Deduplication.
Import DependencyGraph.

(** Modelled from the spec: the callers of section 4.3, a root request from
    outside ("run(root_request)") or a running rule that issues a get. *)
Inductive requester :=
| Root (id : nat)
| Rule (n : node).

(** Modelled from the spec: what happens to the scheduler, in the order in
    which it happens: a requester asks for a key, a worker launches the
    execution of a Pending node, an execution returns its outcome.  The
    events of different requesters and nodes come interleaved in any
    order. *)
Inductive event :=
| Request (r : requester) (key : node)
| Start (key : node)
| Finish (key : node) (o : outcome).

(** Modelled from the spec: the scheduler of section 4.3 within one
    Generation.  It owns the graph, the requesters subscribed to each
    in-flight node, the executions it has launched (one entry for each
    launch) and the outcomes it has handed to requesters. *)
Record scheduler :=
  { nodes : graph;
    waiters : gmap node (list requester);
    launched : list node;
    delivered : list (requester * node * outcome) }.

Definition initial : scheduler :=
  {| nodes := empty_graph; waiters := ∅; launched := []; delivered := [] |}.

(** The requesters subscribed to a node. *)
Definition waiting (s : scheduler) (key : node) : list requester :=
  default [] (waiters s !! key).


(** Modelled from the spec: a request (sections 4.2 and 4.3: "get_or_create
    returns existing node if present"; "only one execution is launched; both
    callers subscribe to its single completion").  The requester of a
    resolved node is handed the outcome the graph holds; any other requester
    is subscribed to the node. *)
Definition request (s : scheduler) (r : requester) (key : node) : scheduler :=
  let g := get_or_create (nodes s) key in
  match resolution g key with
  | Some o =>
      {| nodes := g; waiters := waiters s; launched := launched s;
         delivered := (r, key, o) :: delivered s |}
  | None =>
      {| nodes := g; waiters := <[key := r :: waiting s key]> (waiters s);
         launched := launched s; delivered := delivered s |}
  end.

(** Modelled from the spec: a worker takes a Pending node and launches its
    execution; a node in any other state is not launched. *)
Definition start (s : scheduler) (key : node) : scheduler :=
  match states (nodes s) !! key with
  | Some Pending =>
      {| nodes := launch (nodes s) key; waiters := waiters s;
         launched := key :: launched s; delivered := delivered s |}
  | _ => s
  end.

(** Modelled from the spec: the end of an execution (section 4.2:
    [complete] "transitions Running -> Completed/Failed; notifies all
    waiters").  Every subscribed requester is handed the outcome. *)
Definition finish (s : scheduler) (key : node) (o : outcome) : scheduler :=
  match states (nodes s) !! key with
  | Some Running =>
      {| nodes := complete (nodes s) key o;
         waiters := delete key (waiters s);
         launched := launched s;
         delivered := (((λ r, (r, key, o)) <$> waiting s key) ++ delivered s)%list |}
  | _ => s
  end.

Definition step (s : scheduler) (ev : event) : scheduler :=
  match ev with
  | Request r key => request s r key
  | Start key => start s key
  | Finish key o => finish s key o
  end.

(** The scheduler after the events, the first one first. *)
Definition run_events (evs : list event) : scheduler := foldl step initial evs.












Definition key_k : node := ("rule_k", ["Params"]).
Definition key_j : node := ("rule_j", []).

(** Three requesters ask for the same key around its launch, with another
    key in between: one execution, and its outcome for all three. *)
Example three_requests_one_execution :
  let s := run_events
             [ Request (Root 1) key_k; Request (Rule key_j) key_k;
               Request (Root 2) key_j; Start key_k; Start key_j; Start key_k;
               Request (Root 3) key_k; Finish key_k (Value "v");
               Request (Root 4) key_k; Finish key_k (Value "w") ] in
  launched s = [key_j; key_k]
  ∧ delivered s
    = [ (Root 4, key_k, Value "v"); (Root 3, key_k, Value "v");
        (Rule key_j, key_k, Value "v"); (Root 1, key_k, Value "v") ]
  ∧ waiting s key_j = [Root 2].
Proof. vm_compute. done. Qed.

End Deduplication.

(** ** The Scheduler (spec, sections 4.3 and 4.5) *)
Module Scheduler.
Import DependencyGraph.

(** Modelled from the spec: the rule body of sections 4.5 and 5, "a
    single-threaded cooperative coroutine that suspends at every get", is
    missing from the sources.  A body returns a value, raises a fault of its
    own, or requests a node and goes on with the value it is resumed with:
    which nodes it requests next may depend on that value. *)
Inductive body :=
| Done (v : value)
| Fault (msg : string)
| Get (callee : node) (resume : value → body).

(** The rules registered, by node: the rule at a ParamSet. *)
Abbreviation rules := (gmap node body).

(** What the scheduler does, in order. *)
Inductive event :=
| Launched (n : node)
| Recorded (caller callee : node)
| CycleFound (caller callee : node) (e : error)
| Resolved (n : node) (o : outcome).

(** A run that returns leaves a graph, the events and the outcome of the
    node requested; [None] is a run that does not return. *)
Definition run_result : Type := option (graph * list event * outcome).

(** Modelled from the spec: the execution of a rule body on one worker
    (sections 4.2, 4.3 and 4.5).  At a get the dependency is recorded, and a
    cycle fails the requesting execution with the [CycleError]; otherwise the
    body is suspended until [request] has resolved the callee, and it is
    resumed with the value or failed with the error of the callee ("a Failed
    dependency fails all direct waiters with the same error"). *)
Fixpoint exec (request : graph → node → run_result) (n : node) (b : body)
    (g : graph) : run_result :=
  match b with
  | Done v => Some (complete g n (Value v), [Resolved n (Value v)], Value v)
  | Fault msg =>
      let o := Error (ExecutionError msg) in
      Some (complete g n o, [Resolved n o], o)
  | Get callee resume =>
      match record_dependency (get_or_create g callee) n callee with
      | inr e =>
          Some (complete (get_or_create g callee) n (Error e),
                [CycleFound n callee e; Resolved n (Error e)], Error e)
      | inl recorded =>
          match request recorded callee with
          | None => None
          | Some (g', trace, Value v) =>
              match exec request n (resume v) g' with
              | None => None
              | Some (g'', trace', o) =>
                  Some (g'', (Recorded n callee :: trace ++ trace')%list, o)
              end
          | Some (g', trace, Error e) =>
              Some (complete g' n (Error e),
                    (Recorded n callee :: trace ++ [Resolved n (Error e)])%list,
                    Error e)
          end
      end
  end.

(** Modelled from the spec: the resolution of a requested node (sections 4.2
    and 4.3).  A node that has a value or an error is answered from the
    graph; a Pending node is launched and its body executed; a request for a
    Running node waits for it, which on one worker is a wait without end.
    [fuel] bounds the depth of requests within requests. *)
Fixpoint request (rs : rules) (fuel : nat) (g : graph) (n : node) : run_result :=
  match fuel with
  | O => None
  | S fuel' =>
      match states g !! n with
      | Some (Completed v) => Some (g, [], Value v)
      | Some (Failed e) => Some (g, [], Error e)
      | Some Running => None
      | Some Pending | None =>
          let g := launch (get_or_create g n) n in
          match rs !! n with
          | None =>
              let o := Error (NoRuleError n) in
              Some (complete g n o, [Launched n; Resolved n o], o)
          | Some b =>
              match exec (request rs fuel') n b g with
              | None => None
              | Some (g', trace, o) => Some (g', Launched n :: trace, o)
              end
          end
      end
  end.

(** Modelled from the spec: [run] (section 4.3: the "entry point"), with
    fuel for every registered rule to be launched within the one before. *)
Definition run (rs : rules) (g : graph) (root : node) : run_result :=
  request rs (S (size rs)) g root.


(** A requests B and B requests A; C requests D, which returns. *)
Definition cyclic_rules : rules :=
  {[ rule_a := Get rule_b (λ v, Done ("a(" ++ v ++ ")"));
     rule_b := Get rule_a (λ v, Done ("b(" ++ v ++ ")"));
     rule_c := Get rule_d (λ v, Done ("c(" ++ v ++ ")"));
     rule_d := Done "d" ]}.

Definition cycle_b_a_b : error := CycleError [rule_b; rule_a; rule_b].




(** The registered nodes whose execution has not been launched. *)
Definition unstarted (rs : rules) (g : graph) : gset node :=
  filter (λ m, is_started g m = false) (dom rs).






(** *** The frame of each operation *)









Lemma steady_but_started n g g' m :
  steady_but n g g' → Some m ≠ n → is_started g m = true → is_started g' m = true.
Proof.
  intros [Hr Hs _] Hne. unfold is_started.
  destruct (states g !! m) as [[| |v|e]|] eqn:Hm; try done; intros _.
  - apply Hr in Hm; [|done]. unfold running in Hm. by rewrite Hm.
  - by rewrite (Hs m (Value v) Hm).
  - by rewrite (Hs m (Error e) Hm).
Qed.

Lemma steady_live n g g' m :
  steady_but n g g' → Some m ≠ n → is_live g' m = true → is_started g m = true →
  is_live g m = true.
Proof.
  intros [Hr Hs _] Hne. unfold is_live, is_started.
  destruct (states g !! m) as [[| |v|e]|] eqn:Hm; try done.
  - by rewrite (Hs m (Value v) Hm).
  - by rewrite (Hs m (Error e) Hm).
Qed.

(** *** Soundness after each operation *)





(** *** Chains of running nodes *)




(** *** The measure *)

Lemma unstarted_steady rs n g g' :
  steady_but (Some n) g g' → is_started g' n = true →
  unstarted rs g' ⊆ unstarted rs g.
Proof.
  intros Hsteady Hn m. unfold unstarted. rewrite !elem_of_filter.
  intros [Hm Hdom]. split; [|done].
  destruct (is_started g m) eqn:Hstarted; [|done].
  destruct (decide (m = n)) as [->|Hne]; [congruence|].
  rewrite (steady_but_started (Some n) g g' m) in Hm; [done|done| |done].
  congruence.
Qed.

















(** *** A requests B and B requests A *)

Lemma find_path_no_successors g fuel from to :
  from ≠ to → successors g from = [] → find_path g fuel from to = None.
Proof.
  intros Hne Hnone. destruct fuel; simpl.
  - destruct (is_live g from); simpl; [|done]. by rewrite bool_decide_false.
  - destruct (is_live g from); simpl; [|done].
    rewrite bool_decide_false by done. by rewrite Hnone.
Qed.

Lemma successors_unstarted g m :
  edges_started g → is_started g m = false → successors g m = [].
Proof.
  intros Hedges Hm. unfold successors.
  destruct (edges g !! m) eqn:Hedge; [|done].
  rewrite Hedges in Hm; [done|]. by rewrite Hedge.
Qed.

(** Whatever the two bodies go on with, and whatever else is registered:
    the request that A makes of B launches B, and the request that B makes of
    A is refused with the chain B, A, B, which fails both. *)
Lemma mutual_requests_fail rs g a b resume_a resume_b :
  idle g → a ≠ b →
  is_started g a = false → is_started g b = false →
  rs !! a = Some (Get b resume_a) → rs !! b = Some (Get a resume_b) →
  ∃ g' trace,
    run rs g a = Some (g', trace, Error (CycleError [b; a; b]))
    ∧ CycleFound b a (CycleError [b; a; b]) ∈ trace.
Proof.
  intros [[Hacyclic Hedges] Hidle] Hne Ha Hb Hrule_a Hrule_b.
  assert (2 ≤ size rs)%nat as Hsize.
  { rewrite <- size_dom.
    assert ({[a; b]} ⊆ dom rs) as Hsub.
    { intros x [Hx|Hx]%elem_of_union; apply elem_of_singleton in Hx as ->;
        by apply elem_of_dom. }
    apply subseteq_size in Hsub.
    rewrite size_union, !size_singleton in Hsub; [done|]. set_solver. }
  unfold run. destruct (size rs) as [|[|fuel]]; [lia|lia|]. clear Hsize.
  set (ga := launch (get_or_create g a) a).
  assert (states ga !! a = Some Running) as Hga_a.
  { unfold ga. rewrite states_launch, decide_True by done.
    rewrite states_get_or_create, decide_True by done.
    unfold is_started in Ha. by destruct (states g !! a) as [[]|]. }
  assert (∀ m, m ≠ a → states ga !! m = states g !! m
                       ∨ (states g !! m = None ∧ False)) as Hga_other.
  { intros m Hm. left. unfold ga. rewrite states_launch, decide_False by done.
    rewrite states_get_or_create. destruct (states g !! m); [done|].
    by rewrite decide_False. }
  assert (edges ga = edges g) as Hga_edges
    by (unfold ga; by rewrite edges_launch, edges_get_or_create).
  set (g1 := get_or_create ga b).
  assert (edges g1 = edges g) as Hg1_edges
    by (unfold g1; by rewrite edges_get_or_create).
  assert (successors g1 b = []) as Hg1_b.
  { unfold successors. rewrite Hg1_edges. by apply successors_unstarted. }
  assert (successors g1 a = []) as Hg1_a.
  { unfold successors. rewrite Hg1_edges. by apply successors_unstarted. }
  assert (states g1 !! a = Some Running) as Hg1_a_state.
  { unfold g1. by rewrite states_get_or_create, Hga_a. }
  assert (states g1 !! b = Some Pending) as Hg1_b_state.
  { unfold g1. rewrite states_get_or_create.
    destruct (Hga_other b) as [->|[_ []]]; [done|].
    unfold is_started in Hb. destruct (states g !! b) as [[]|]; try done.
    by rewrite decide_True. }
  assert (record_dependency g1 a b = inl (add_edge g1 a b)) as Hrecord.
  { unfold record_dependency. by rewrite find_path_no_successors. }
  set (g2 := add_edge g1 a b).
  set (gb := launch (get_or_create g2 b) b).
  assert (states gb !! b = Some Running) as Hgb_b.
  { unfold gb. rewrite states_launch, decide_True by done.
    rewrite states_get_or_create. change (states g2) with (states g1).
    by rewrite Hg1_b_state. }
  assert (states gb !! a = Some Running) as Hgb_a.
  { unfold gb. rewrite states_launch, decide_False by done.
    rewrite states_get_or_create. change (states g2) with (states g1).
    by rewrite Hg1_a_state. }
  set (g3 := get_or_create gb a).
  assert (states g3 = states gb ∧ edges g3 = edges g2) as [Hg3_states Hg3_edges].
  { unfold g3, get_or_create. rewrite Hgb_a. split; [done|].
    unfold gb. by rewrite edges_launch, edges_get_or_create. }
  assert (successors g3 a = [b]) as Hg3_a.
  { unfold successors. rewrite Hg3_edges. fold (successors g2 a). unfold g2.
    rewrite successors_add_edge, decide_True by done. by rewrite Hg1_a. }
  assert (record_dependency g3 b a = inr (CycleError [b; a; b])) as Hrefused.
  { unfold record_dependency.
    assert (size (edges g3) ≠ 0)%nat as Hnonempty.
    { rewrite Hg3_edges. simpl. intros Hempty%map_size_empty_inv.
      by apply insert_non_empty in Hempty. }
    destruct (size (edges g3)) as [|fuel']; [done|]. simpl.
    unfold is_live at 1. rewrite Hg3_states, Hgb_a. simpl.
    rewrite bool_decide_false by done. rewrite Hg3_a. simpl.
    assert (find_path g3 fuel' b b = Some [b]) as ->; [|done].
    destruct fuel'; simpl; unfold is_live; rewrite Hg3_states, Hgb_b; simpl;
      by rewrite bool_decide_true. }
  assert (states g !! a = None ∨ states g !! a = Some Pending) as Ha_state.
  { unfold is_started in Ha. destruct (states g !! a) as [[]|]; auto; done. }
  assert (request rs (S (S (S fuel))) g a
          = match exec (request rs (S (S fuel))) a (Get b resume_a) ga with
            | None => None
            | Some (g', trace, o) => Some (g', Launched a :: trace, o)
            end) as ->.
  { simpl. fold ga. rewrite Hrule_a. by destruct Ha_state as [->| ->]. }
  cbn [exec]. fold g1. rewrite Hrecord. fold g2.
  assert (request rs (S (S fuel)) g2 b
          = match exec (request rs (S fuel)) b (Get a resume_b) gb with
            | None => None
            | Some (g', trace, o) => Some (g', Launched b :: trace, o)
            end) as ->.
  { cbn [request]. change (states g2) with (states g1). rewrite Hg1_b_state.
    fold gb. by rewrite Hrule_b. }
  cbn [exec]. fold g3. rewrite Hrefused.
  eexists _, _. split; [done|].
  simpl. do 3 right. left.
Qed.

Lemma rule_a_rule_b : rule_a ≠ rule_b.
Proof. discriminate. Qed.


(** After the failed run the scheduler serves the next request: C, which
    requests D, gets its value, and A and B stay failed. *)
Example run_rule_c_after_cycle :
  ∃ g' trace,
    run cyclic_rules empty_graph rule_a = Some (g', trace, Error cycle_b_a_b)
    ∧ ∃ g'' trace',
        run cyclic_rules g' rule_c = Some (g'', trace', Value "c(d)")
        ∧ states g'' !! rule_a = Some (Failed cycle_b_a_b)
        ∧ states g'' !! rule_d = Some (Completed "d").
Proof.
  eexists _, _. split; [vm_compute; reflexivity|].
  eexists _, _. split; [vm_compute; reflexivity|]. split; reflexivity.
Qed.

Example run_rule_a :
  run cyclic_rules empty_graph rule_a
  = Some ({| states := {[ rule_a := Failed cycle_b_a_b;
                          rule_b := Failed cycle_b_a_b ]};
             edges := {[ rule_a := [rule_b] ]} |},
          [ Launched rule_a; Recorded rule_a rule_b; Launched rule_b;
            CycleFound rule_b rule_a cycle_b_a_b;
            Resolved rule_b (Error cycle_b_a_b);
            Resolved rule_a (Error cycle_b_a_b) ],
          Error cycle_b_a_b).
Proof. vm_compute. reflexivity. Qed.

End Scheduler.

(** ** Methods of [str] the backends call *)
Module PyStr.
Import Py.
#[local] Arguments String.append !_ _ / : simpl nomatch.

(** [s.partition(sep)] for a separator of one character, which is what
    every call site passes: the part before the first occurrence, the
    separator, the part after it; [(s, "", "")] when [sep] does not occur. *)
Fixpoint partition (sep : ascii) (s : string) : string * string * string :=
  match s with
  | EmptyString => ("", "", "")
  | String c rest =>
      if Ascii.eqb c sep then ("", String sep "", rest)
      else let '(before, found, after) := partition sep rest in
           (String c before, found, after)
  end.

(** [s.rpartition(sep)] for a separator of one character: the split is at
    the last occurrence; [("", "", s)] when [sep] does not occur. *)
Fixpoint rpartition (sep : ascii) (s : string) : string * string * string :=
  match s with
  | EmptyString => ("", "", "")
  | String c rest =>
      let '(before, found, after) := rpartition sep rest in
      match found with
      | EmptyString =>
          if Ascii.eqb c sep then ("", String sep "", rest) else ("", "", s)
      | _ => (String c before, found, after)
      end
  end.

(** [s.endswith(suffix)] *)
Fixpoint endswith (s suffix : string) : bool :=
  bool_decide (s = suffix)
  || match s with
     | EmptyString => false
     | String _ rest => endswith rest suffix
     end.

(** [s.replace(old, new)] for a non-empty [old]: the occurrences of [old]
    are replaced from the left, without overlap.  [skip] counts the
    characters of a matched occurrence still to be passed over. *)
Fixpoint replace_from (old new : string) (skip : nat) (s : string) : string :=
  match s with
  | EmptyString => ""
  | String c rest =>
      match skip with
      | S k => replace_from old new k rest
      | O =>
          if String.prefix old s
          then new ++ replace_from old new (String.length old - 1) rest
          else String c (replace_from old new 0 rest)
      end
  end.
Definition replace (old new s : string) : string := replace_from old new 0 s.

(** [sep.join(items)] *)
Fixpoint join (sep : string) (items : list string) : string :=
  match items with
  | [] => ""
  | [x] => x
  | x :: rest => x ++ sep ++ join sep rest
  end.

(** [c.lower()] on an ASCII character. *)
Definition lower_char (c : ascii) : ascii :=
  let n := nat_of_ascii c in
  if bool_decide (65 ≤ n ≤ 90)%nat then ascii_of_nat (n + 32) else c.

(** [s.lower()] on a string of ASCII characters. *)
Fixpoint lower (s : string) : string :=
  match s with
  | EmptyString => ""
  | String c rest => String (lower_char c) (lower rest)
  end.

(** Whether every character is in the ASCII range. *)
Definition isascii (s : string) : Prop :=
  Forall (λ c, (nat_of_ascii c < 128)%nat) (chars s).

(** [filter(None, items)] on strings: the empty ones are dropped. *)
Definition filter_None (items : list string) : list string :=
  filter (λ s, s ≠ "") items.

Lemma str_app_nil_r (s : string) : s ++ "" = s.
Proof. induction s; simpl; by f_equal. Qed.

Lemma str_app_assoc (a b c : string) : (a ++ b) ++ c = a ++ b ++ c.
Proof. induction a; simpl; by f_equal. Qed.

Lemma chars_app (a b : string) : chars (a ++ b) = (chars a ++ chars b)%list.
Proof. induction a; simpl; by f_equal. Qed.

Lemma str_app_length (a b : string) :
  String.length (a ++ b) = (String.length a + String.length b)%nat.
Proof. induction a; simpl; by f_equal. Qed.

(** The three parts of a partition put together give the string back. *)
Lemma partition_app sep s :
  (partition sep s).1.1 ++ (partition sep s).1.2 ++ (partition sep s).2 = s.
Proof.
  induction s as [|c s IH]; simpl; [done|].
  destruct (Ascii.eqb_spec c sep) as [->|Hne]; simpl; [done|].
  destruct (partition sep s) as [[before found] after]. simpl in *.
  by rewrite IH.
Qed.

Lemma partition_found sep s :
  sep ∈ chars s →
  (partition sep s).1.2 = String sep ""
  ∧ sep ∉ chars (partition sep s).1.1.
Proof.
  induction s as [|c s IH]; simpl.
  - by intros ?%elem_of_nil.
  - intros Hin. destruct (Ascii.eqb_spec c sep) as [->|Hne]; simpl.
    + split; [done|]. apply not_elem_of_nil.
    + apply elem_of_cons in Hin as [->|Hin]; [done|].
      destruct (IH Hin) as [Hf Hb].
      destruct (partition sep s) as [[before found] after]. simpl in *.
      split; [done|]. rewrite not_elem_of_cons. split; [congruence|done].
Qed.

Lemma partition_not_found sep s :
  sep ∉ chars s → partition sep s = (s, "", "").
Proof.
  induction s as [|c s IH]; simpl; [done|].
  rewrite not_elem_of_cons. intros [Hne Hnin].
  destruct (Ascii.eqb_spec c sep) as [->|_]; [done|].
  by rewrite IH.
Qed.

(** The separator found is the one looked for, or nothing. *)
Lemma rpartition_sep sep s :
  (rpartition sep s).1.2 = "" ∨ (rpartition sep s).1.2 = String sep "".
Proof.
  induction s as [|c s IH]; simpl; [by left|].
  destruct (rpartition sep s) as [[before found] after]. simpl in *.
  destruct found as [|f fs]; simpl.
  - destruct (Ascii.eqb c sep); simpl; auto.
  - destruct IH as [?|?]; [done|]. by right.
Qed.

(** The separator is reported as found exactly when it occurs. *)
Lemma rpartition_found_iff sep s :
  (rpartition sep s).1.2 = String sep "" ↔ sep ∈ chars s.
Proof.
  induction s as [|c s IH]; simpl.
  - split; [done|by intros ?%elem_of_nil].
  - rewrite elem_of_cons.
    pose proof (rpartition_sep sep s) as Hsep.
    destruct (rpartition sep s) as [[before found] after]. simpl in *.
    destruct found as [|f fs]; simpl.
    + destruct (Ascii.eqb_spec c sep) as [->|Hne]; simpl.
      * split; auto.
      * split; [done|]. intros [?|Hin]; [congruence|]. by apply IH in Hin.
    + destruct Hsep as [?|Hsep]; [done|]. split; [|done].
      intros _. right. by apply IH.
Qed.

(** A string without the separator is handed back as the last part. *)
Lemma rpartition_not_found sep s :
  sep ∉ chars s → rpartition sep s = ("", "", s).
Proof.
  induction s as [|c s IH]; simpl; [done|].
  rewrite not_elem_of_cons. intros [Hne Hnin].
  rewrite (IH Hnin).
  by destruct (Ascii.eqb_spec c sep) as [->|_].
Qed.

(** The part after the last separator holds no separator. *)
Lemma rpartition_found sep s :
  sep ∈ chars s →
  s = (rpartition sep s).1.1 ++ String sep (rpartition sep s).2
  ∧ sep ∉ chars (rpartition sep s).2.
Proof.
  induction s as [|c s IH]; simpl.
  - by intros ?%elem_of_nil.
  - intros Hin.
    destruct (decide (sep ∈ chars s)) as [Hs|Hs].
    + destruct (IH Hs) as [Heq Hafter].
      apply rpartition_found_iff in Hs.
      destruct (rpartition sep s) as [[before found] after]. simpl in *.
      subst found. simpl. split; [by f_equal|done].
    + rewrite (rpartition_not_found _ _ Hs).
      apply elem_of_cons in Hin as [->|Hin]; [|done].
      rewrite Ascii.eqb_refl. simpl. done.
Qed.

(** Cutting at the last separator shortens every non-empty string. *)
Lemma rpartition_shorter sep s :
  s ≠ "" → (String.length (rpartition sep s).1.1 < String.length s)%nat.
Proof.
  intros Hne. destruct (decide (sep ∈ chars s)) as [Hs|Hs].
  - destruct (rpartition_found _ _ Hs) as [Heq _].
    rewrite Heq at 2. rewrite str_app_length. simpl. lia.
  - rewrite (rpartition_not_found _ _ Hs). destruct s; [done|simpl; lia].
Qed.

Lemma endswith_spec s suffix :
  endswith s suffix = true ↔ ∃ p, s = p ++ suffix.
Proof.
  induction s as [|c s IH]; simpl.
  - rewrite orb_false_r, bool_decide_eq_true. split.
    + intros <-. by exists "".
    + intros [[|??] ?]; simpl in *; [done|discriminate].
  - rewrite orb_true_iff, bool_decide_eq_true, IH. split.
    + intros [<-|[p ->]]; [by exists ""|by exists (String c p)].
    + intros [[|d p] Heq]; simpl in *; [by left|].
      injection Heq as -> ->. right. by exists p.
Qed.

End PyStr.

(** ** [kotlin_parser.py]: the methods of [KotlinSourceDependencyAnalysis] *)
Module KotlinSymbols.
Import Py PyStr KotlinParser.
#[local] Arguments String.append !_ _ / : simpl nomatch.

(** [scope_and_parents] (lines 98-103).  Each turn of the loop yields the
    scope and cuts it at its last dot; the loop is left at the empty scope.
    [turns] bounds the number of turns. *)
Fixpoint scope_and_parents_loop (turns : nat) (scope : string) : list string :=
  match turns with
  | O => []
  | S turns' =>
      scope :: (if bool_decide (scope = "") then []
                else scope_and_parents_loop turns' (rpartition "." scope).1.1)
  end.

(** A scope of [n] characters is cut at most [n] times. *)
Definition scope_and_parents (scope : string) : list string :=
  scope_and_parents_loop (S (String.length scope)) scope.

(** The truth value of a [str | None]. *)
Definition truthy (s : option string) : bool :=
  match s with
  | Some (String _ _) => true
  | _ => false
  end.

(** The f-string [f"{qualifier}.{symbol}"]. *)
Definition qualified (qualifier symbol : string) : string :=
  qualifier ++ "." ++ symbol.

(** The body of [for imp in ...] (lines 120-130). *)
Definition import_candidates (symbol symbol_rel_prefix symbol_rel_suffix : string)
    (dot_in_symbol : bool) (imp : KotlinImport) : list string :=
  ((if is_wildcard imp then [qualified (name imp) symbol] else [])
   ++ (if dot_in_symbol then
         if truthy (alias imp) then
           if bool_decide (alias imp = Some symbol_rel_prefix)
           then [qualified (name imp) symbol_rel_suffix] else []
         else if endswith (name imp) (String "." symbol_rel_prefix)
              then [qualified (name imp) symbol_rel_suffix] else []
       else []))%list.

(** The body of [for parent_scope in parent_scopes] (lines 114-130). *)
Definition parent_scope_candidates (a : KotlinSourceDependencyAnalysis)
    (symbol symbol_rel_prefix symbol_rel_suffix : string) (dot_in_symbol : bool)
    (parent_scope : string) : list string :=
  ((if bool_decide (parent_scope ∈ scopes a)
    then [qualified parent_scope symbol] else [])
   ++ ((if bool_decide (parent_scope = package a)
        then elements (imports a) else [])
       ≫= import_candidates symbol symbol_rel_prefix symbol_rel_suffix
            dot_in_symbol))%list.

(** The body of [for symbol in consumed_symbols] (lines 108-130). *)
Definition symbol_candidates (a : KotlinSourceDependencyAnalysis)
    (parent_scopes : list string) (symbol : string) : list string :=
  let '(symbol_rel_prefix, dot_in_symbol, symbol_rel_suffix) :=
    partition "." symbol in
  let dotted := bool_decide (dot_in_symbol ≠ "") in
  ((if bool_decide (scopes a = ∅) || dotted then [symbol] else [])
   ++ (parent_scopes
       ≫= parent_scope_candidates a symbol symbol_rel_prefix symbol_rel_suffix
            dotted))%list.

(** [fully_qualified_consumed_symbols] (lines 90-130): the names the
    generator yields.  The mapping and the sets are gone through in the
    order of [map_to_list] and [elements]; Python goes through them in an
    order of its own, so only membership in the result is meaningful. *)
Definition fully_qualified_consumed_symbols (a : KotlinSourceDependencyAnalysis)
  : list string :=
  map_to_list (consumed_symbols_by_scope a) ≫= λ item,
    let parent_scopes := scope_and_parents item.1 in
    elements item.2 ≫= symbol_candidates a parent_scopes.

(** [parent] is [scope], the root scope, or a prefix of [scope] that ends
    before one of its dots. *)
Definition encloses (parent scope : string) : Prop :=
  parent = scope ∨ parent = "" ∨ ∃ rest, scope = parent ++ "." ++ rest.

(** [sorted(v)] of a set of strings. *)
Definition sorted (v : gset string) : list string :=
  merge_sort String.le (elements v).

(** [KotlinImport.to_debug_json_dict] (lines 74-79). *)
Definition KotlinImport_to_debug_json_dict (imp : KotlinImport) : json :=
  JObject {[ "name" := JString (name imp);
             "alias" := match alias imp with
                        | Some s => JString s
                        | None => JNull
                        end;
             "is_wildcard" := JBool (is_wildcard imp) ]}.

(** [KotlinSourceDependencyAnalysis.to_debug_json_dict] (lines 144-153). *)
Definition to_debug_json_dict (a : KotlinSourceDependencyAnalysis) : json :=
  JObject
    {[ "package" := JString (package a);
       "imports" := JArray (KotlinImport_to_debug_json_dict <$> elements (imports a));
       "named_declarations" := JArray (JString <$> elements (named_declarations a));
       "consumed_symbols_by_scope" :=
         JObject ((λ v, JArray (JString <$> sorted v))
                    <$> consumed_symbols_by_scope a);
       "scopes" := JArray (JString <$> elements (scopes a)) ]}.

(** The analysis with its imports taken away. *)
Definition without_imports (a : KotlinSourceDependencyAnalysis)
  : KotlinSourceDependencyAnalysis :=
  {| package := package a;
     imports := ∅;
     named_declarations := named_declarations a;
     consumed_symbols_by_scope := consumed_symbols_by_scope a;
     scopes := scopes a |}.

(** *** The loop of [scope_and_parents] *)

Lemma scope_and_parents_loop_enough turns scope :
  (String.length scope < turns)%nat →
  scope_and_parents_loop turns scope = scope_and_parents scope.
Proof.
  unfold scope_and_parents.
  remember (String.length scope) as n eqn:Hn.
  revert scope Hn turns.
  induction n as [n IH] using lt_wf_ind. intros scope Hn turns Hlt.
  destruct turns as [|turns]; [lia|]. simpl.
  case_bool_decide as Hempty; [done|]. f_equal.
  pose proof (rpartition_shorter "." scope Hempty) as Hshort.
  set (parent := (rpartition "." scope).1.1) in *.
  rewrite (IH (String.length parent)) by lia.
  symmetry. apply (IH (String.length parent)); lia.
Qed.

(** The loop as the source writes it: yield, test, cut. *)
Lemma scope_and_parents_unfold scope :
  scope_and_parents scope
  = scope :: (if bool_decide (scope = "") then []
              else scope_and_parents (rpartition "." scope).1.1).
Proof.
  unfold scope_and_parents at 1. simpl.
  case_bool_decide as Hempty; [done|]. f_equal.
  apply scope_and_parents_loop_enough.
  apply rpartition_shorter. done.
Qed.

Lemma chars_qualified qualifier symbol :
  chars (qualified qualifier symbol)
  = (chars qualifier ++ "."%char :: chars symbol)%list.
Proof. unfold qualified. by rewrite chars_app. Qed.

(** Two ways of cutting a string at a dot, the second at its last dot: the
    first cut is the same or lies further left. *)
Lemma cut_before_last_dot p r h a :
  p ++ String "." r = h ++ String "." a →
  "."%char ∉ chars a →
  p = h ∨ ∃ r', h = p ++ String "." r'.
Proof.
  revert h. induction p as [|c p IH]; intros [|d h]; simpl.
  - by left.
  - intros [= <- _] _. right. by exists h.
  - intros [= <- <-]. rewrite chars_app. simpl.
    rewrite elem_of_app, elem_of_cons. tauto.
  - intros [= <- Heq] Ha. destruct (IH h Heq Ha) as [->|[r' ->]].
    + by left.
    + right. by exists r'.
Qed.

Lemma encloses_cut scope p :
  scope ≠ "" →
  encloses p scope
  ↔ p = scope ∨ encloses p (rpartition "." scope).1.1.
Proof.
  intros Hne. unfold encloses.
  destruct (decide ("."%char ∈ chars scope)) as [Hdot|Hdot].
  - destruct (rpartition_found _ _ Hdot) as [Heq Hafter].
    set (parent := (rpartition "." scope).1.1) in *.
    set (after := (rpartition "." scope).2) in *.
    split.
    + intros [->|[->|[rest Hrest]]]; [by left|by right; right; left|].
      right. rewrite Heq in Hrest. simpl in Hrest.
      symmetry in Hrest.
      destruct (cut_before_last_dot _ _ _ _ Hrest Hafter) as [->|[r' ->]].
      * by left.
      * right; right. by exists r'.
    + intros [->|[->|[->|[rest Hrest]]]]; [by left| |by right; left|].
      * right; right. by exists after.
      * right; right. exists (rest ++ String "." after).
        rewrite Heq, Hrest. simpl. by rewrite !str_app_assoc.
  - rewrite (rpartition_not_found _ _ Hdot). simpl. split.
    + intros [->|[->|[rest ->]]]; [by left|by right; left|].
      exfalso. apply Hdot. rewrite chars_app. simpl.
      rewrite elem_of_app, elem_of_cons. auto.
    + intros [->|[->|[->|[rest Hrest]]]]; [by left|by right; left..|].
      by destruct p.
Qed.

Lemma elem_of_scope_and_parents scope p :
  p ∈ scope_and_parents scope ↔ encloses p scope.
Proof.
  remember (String.length scope) as n eqn:Hn. revert scope Hn.
  induction n as [n IH] using lt_wf_ind. intros scope Hn.
  rewrite scope_and_parents_unfold, elem_of_cons.
  case_bool_decide as Hempty.
  - subst scope. rewrite elem_of_nil. unfold encloses. split.
    + intros [->|[]]. by left.
    + intros [->|[->|[rest Hrest]]]; [by left..|]. by destruct p.
  - rewrite (encloses_cut _ _ Hempty).
    pose proof (rpartition_shorter "." scope Hempty) as Hshort.
    rewrite (IH (String.length (rpartition "." scope).1.1)); [done|lia|done].
Qed.

Lemma last_scope_and_parents scope :
  last (scope_and_parents scope) = Some "".
Proof.
  remember (String.length scope) as n eqn:Hn. revert scope Hn.
  induction n as [n IH] using lt_wf_ind. intros scope Hn.
  rewrite scope_and_parents_unfold, last_cons.
  case_bool_decide as Hempty; [by subst|].
  pose proof (rpartition_shorter "." scope Hempty) as Hshort.
  rewrite (IH (String.length (rpartition "." scope).1.1)); [done|lia|done].
Qed.

(** X1.  The scopes [scope_and_parents] yields start with the scope itself, end
    with the root scope [""], at which the loop is left, and are the scope,
    the root scope and the prefixes of the scope that end before one of its
    dots. *)
Theorem scope_and_parents_are_the_enclosing_scopes (scope : string) :
  head (scope_and_parents scope) = Some scope
  ∧ last (scope_and_parents scope) = Some ""
  ∧ ∀ parent, parent ∈ scope_and_parents scope ↔ encloses parent scope.
Proof.
  split; [by rewrite scope_and_parents_unfold|].
  split; [apply last_scope_and_parents|].
  intros parent. apply elem_of_scope_and_parents.
Qed.

Example scope_and_parents_nested :
  scope_and_parents "org.pantsbuild.example"
  = ["org.pantsbuild.example"; "org.pantsbuild"; "org"; ""].
Proof. reflexivity. Qed.

(** *** What [fully_qualified_consumed_symbols] yields *)

Lemma elem_of_fully_qualified a q :
  q ∈ fully_qualified_consumed_symbols a
  ↔ ∃ scope symbols symbol,
      consumed_symbols_by_scope a !! scope = Some symbols
      ∧ symbol ∈ symbols
      ∧ q ∈ symbol_candidates a (scope_and_parents scope) symbol.
Proof.
  unfold fully_qualified_consumed_symbols. rewrite list_elem_of_bind. split.
  - intros ([scope symbols] & Hq & Hitem). simpl in Hq.
    apply elem_of_map_to_list in Hitem.
    apply list_elem_of_bind in Hq as (symbol & Hq & Hsym).
    apply elem_of_elements in Hsym. eauto 6.
  - intros (scope & symbols & symbol & Hscope & Hsym & Hq).
    exists (scope, symbols). split; [|by apply elem_of_map_to_list].
    simpl. apply list_elem_of_bind. exists symbol.
    split; [done|]. by apply elem_of_elements.
Qed.

Lemma elem_of_import_candidates symbol pre suf dotted imp q :
  q ∈ import_candidates symbol pre suf dotted imp →
  q = qualified (name imp) symbol ∨ q = qualified (name imp) suf.
Proof.
  unfold import_candidates. rewrite elem_of_app.
  intros [Hq|Hq].
  - destruct (is_wildcard imp); [|by apply elem_of_nil in Hq].
    apply list_elem_of_singleton in Hq. by left.
  - right. repeat case_match; try by apply elem_of_nil in Hq.
    all: by apply list_elem_of_singleton in Hq.
Qed.

Lemma elem_of_parent_scope_candidates a symbol pre suf dotted parent q :
  q ∈ parent_scope_candidates a symbol pre suf dotted parent →
  ∃ qualifier rest, q = qualified qualifier rest.
Proof.
  unfold parent_scope_candidates. rewrite elem_of_app.
  intros [Hq|Hq].
  - case_bool_decide; [|by apply elem_of_nil in Hq].
    apply list_elem_of_singleton in Hq. eauto.
  - apply list_elem_of_bind in Hq as (imp & Hq & _).
    apply elem_of_import_candidates in Hq as [->| ->]; eauto.
Qed.

(** X2.  When the file declares a scope, every name yielded holds a dot: a
    consumed symbol without a dot is never yielded as it stands. *)
Theorem declared_scopes_yield_dotted_names (a : KotlinSourceDependencyAnalysis)
    (q : string) :
  scopes a ≠ ∅ →
  q ∈ fully_qualified_consumed_symbols a →
  "."%char ∈ chars q.
Proof.
  intros Hscopes (scope & symbols & symbol & _ & _ & Hq)%elem_of_fully_qualified.
  unfold symbol_candidates in Hq.
  destruct (partition "." symbol) as [[pre dot] suf] eqn:Hpart.
  apply elem_of_app in Hq as [Hq|Hq].
  - rewrite bool_decide_eq_false_2 in Hq by done. simpl in Hq.
    case_bool_decide as Hdot; [|by apply elem_of_nil in Hq].
    apply list_elem_of_singleton in Hq as ->.
    destruct (decide ("."%char ∈ chars symbol)) as [|Hnin]; [done|].
    rewrite (partition_not_found _ _ Hnin) in Hpart. by simplify_eq.
  - apply list_elem_of_bind in Hq as (parent & Hq & _).
    apply elem_of_parent_scope_candidates in Hq as (qualifier & rest & ->).
    rewrite chars_qualified, elem_of_app, elem_of_cons. auto.
Qed.

Lemma symbol_candidates_intro a scope symbol parent q :
  encloses parent scope →
  q ∈ parent_scope_candidates a symbol (partition "." symbol).1.1
        (partition "." symbol).2
        (bool_decide ((partition "." symbol).1.2 ≠ "")) parent →
  q ∈ symbol_candidates a (scope_and_parents scope) symbol.
Proof.
  intros Henc Hq. unfold symbol_candidates.
  destruct (partition "." symbol) as [[pre dot] suf]. simpl in Hq.
  apply elem_of_app. right. apply list_elem_of_bind. exists parent.
  split; [done|]. by apply elem_of_scope_and_parents.
Qed.

Lemma import_candidates_intro a symbol pre suf dotted imp q :
  imp ∈ imports a →
  q ∈ import_candidates symbol pre suf dotted imp →
  q ∈ parent_scope_candidates a symbol pre suf dotted (package a).
Proof.
  intros Himp Hq. unfold parent_scope_candidates. apply elem_of_app. right.
  rewrite (bool_decide_eq_true_2 (package a = package a)) by done.
  apply list_elem_of_bind. exists imp. split; [done|].
  by apply elem_of_elements.
Qed.

(** X3.  A symbol consumed in a scope is yielded as it stands when it holds a dot
    or the file declares no scope, qualified by every declared scope that
    encloses the consumption scope and, when the package of the file
    encloses it, qualified by every wildcard import. *)
Theorem consumed_symbol_is_qualified_by_enclosing_scopes
    (a : KotlinSourceDependencyAnalysis) (scope symbol : string)
    (symbols : gset string) :
  consumed_symbols_by_scope a !! scope = Some symbols →
  symbol ∈ symbols →
  (scopes a = ∅ ∨ "."%char ∈ chars symbol →
     symbol ∈ fully_qualified_consumed_symbols a)
  ∧ (∀ parent, parent ∈ scopes a → encloses parent scope →
       qualified parent symbol ∈ fully_qualified_consumed_symbols a)
  ∧ (∀ imp, encloses (package a) scope → imp ∈ imports a →
       is_wildcard imp = true →
       qualified (name imp) symbol ∈ fully_qualified_consumed_symbols a).
Proof.
  intros Hscope Hsym. split; [|split].
  - intros Hplain. apply elem_of_fully_qualified.
    exists scope, symbols, symbol. do 2 (split; [done|]).
    unfold symbol_candidates.
    destruct (partition "." symbol) as [[pre dot] suf] eqn:Hpart.
    apply elem_of_app. left.
    destruct Hplain as [->|Hdot].
    + rewrite bool_decide_eq_true_2 by done. by apply list_elem_of_singleton.
    + apply partition_found in Hdot as [Hfound _].
      rewrite Hpart in Hfound. simpl in Hfound. subst dot.
      rewrite (bool_decide_eq_true_2 (_ ≠ _)) by done.
      rewrite orb_true_r. by apply list_elem_of_singleton.
  - intros parent Hparent Henc. apply elem_of_fully_qualified.
    exists scope, symbols, symbol. do 2 (split; [done|]).
    apply (symbol_candidates_intro _ _ _ parent); [done|].
    unfold parent_scope_candidates. apply elem_of_app. left.
    rewrite bool_decide_eq_true_2 by done. by apply list_elem_of_singleton.
  - intros imp Henc Himp Hwild. apply elem_of_fully_qualified.
    exists scope, symbols, symbol. do 2 (split; [done|]).
    apply (symbol_candidates_intro _ _ _ (package a)); [done|].
    apply (import_candidates_intro _ _ _ _ _ imp); [done|].
    unfold import_candidates. rewrite Hwild. apply elem_of_app. left.
    by apply list_elem_of_singleton.
Qed.

(** X4.  A consumed symbol [Prefix.rest], used in a scope the package encloses,
    is resolved against the imports: an import whose non-empty alias is
    [Prefix], or that has no alias (or an empty one) and whose name ends in
    [.Prefix], yields its name followed by [.rest]. *)
Theorem relative_use_of_import_is_qualified
    (a : KotlinSourceDependencyAnalysis) (scope symbol : string)
    (symbols : gset string) (imp : KotlinImport) :
  consumed_symbols_by_scope a !! scope = Some symbols →
  symbol ∈ symbols →
  "."%char ∈ chars symbol →
  encloses (package a) scope →
  imp ∈ imports a →
  (alias imp = Some (partition "." symbol).1.1 ∧ (partition "." symbol).1.1 ≠ "")
  ∨ (truthy (alias imp) = false
     ∧ ∃ p, name imp = p ++ String "." (partition "." symbol).1.1) →
  qualified (name imp) (partition "." symbol).2
    ∈ fully_qualified_consumed_symbols a.
Proof.
  intros Hscope Hsym Hdot Henc Himp Hmatch. apply elem_of_fully_qualified.
  exists scope, symbols, symbol. do 2 (split; [done|]).
  apply (symbol_candidates_intro _ _ _ (package a)); [done|].
  apply (import_candidates_intro _ _ _ _ _ imp); [done|].
  apply partition_found in Hdot as [Hfound _]. rewrite Hfound.
  rewrite (bool_decide_eq_true_2 (_ ≠ _)) by done.
  unfold import_candidates. apply elem_of_app. right.
  destruct Hmatch as [[Halias Hpre]|[Hnone [p Hname]]].
  - rewrite Halias. simpl.
    destruct ((partition "." symbol).1.1) as [|c pre] eqn:Hp; [done|].
    simpl. rewrite bool_decide_eq_true_2 by done.
    by apply list_elem_of_singleton.
  - rewrite Hnone.
    assert (endswith (name imp) (String "." (partition "." symbol).1.1) = true)
      as -> by (apply endswith_spec; eauto).
    by apply list_elem_of_singleton.
Qed.

(** X5.  The imports are consulted only for symbols consumed in a scope that the
    package of the file encloses: when it encloses none of the consumption
    scopes, the names yielded are those of the analysis without imports. *)
Theorem imports_apply_under_the_package_only
    (a : KotlinSourceDependencyAnalysis) :
  (∀ scope, is_Some (consumed_symbols_by_scope a !! scope) →
     ¬ encloses (package a) scope) →
  fully_qualified_consumed_symbols a
  = fully_qualified_consumed_symbols (without_imports a).
Proof.
  intros Hout. unfold fully_qualified_consumed_symbols. simpl.
  apply Forall_bind_ext, Forall_forall. intros [scope symbols] Hitem.
  apply elem_of_map_to_list in Hitem. simpl.
  apply Forall_bind_ext, Forall_forall. intros symbol _.
  unfold symbol_candidates.
  destruct (partition "." symbol) as [[pre dot] suf].
  lazy beta iota zeta. f_equal.
  apply Forall_bind_ext, Forall_forall. intros parent Hparent.
  apply elem_of_scope_and_parents in Hparent.
  unfold parent_scope_candidates.
  change (scopes (without_imports a)) with (scopes a).
  change (package (without_imports a)) with (package a).
  change (imports (without_imports a)) with (∅ : gset KotlinImport).
  f_equal.
  destruct (bool_decide_reflect (parent = package a)) as [->|_]; [|done].
  exfalso. by apply (Hout scope).
Qed.

(** *** The debug rendering *)

(** X6.  What [to_debug_json_dict] writes is not what [from_json_dict] reads: the
    keys of the former are in snake case, those of the latter in camel case,
    so reading a rendering back raises [KeyError], at the first import when
    there is one and at the named declarations otherwise. *)
Theorem debug_json_is_not_read_back (a : KotlinSourceDependencyAnalysis) :
  from_json_dict (to_debug_json_dict a)
  = Raise (KeyError (if decide (imports a = ∅) then "namedDeclarations"
                     else "isWildcard")).
Proof.
  destruct (decide (imports a = ∅)) as [Hemp|Hne].
  - unfold to_debug_json_dict. rewrite Hemp, elements_empty. reflexivity.
  - destruct (elements (imports a)) as [|imp imps] eqn:Helems.
    { apply elements_empty_inv, leibniz_equiv in Helems. done. }
    unfold to_debug_json_dict. rewrite Helems.
    destruct imp as [n [al|] w]; reflexivity.
Qed.

(** *** The theorems at the analysis of a source file *)

Definition main_kt : KotlinSourceDependencyAnalysis :=
  {| package := "org.example";
     imports :=
       {[ {| name := "kotlin.io.path"; alias := None; is_wildcard := true |};
          {| name := "java.time.Instant"; alias := None; is_wildcard := false |};
          {| name := "java.util.Date"; alias := Some "D"; is_wildcard := false |} ]};
     named_declarations := {[ "org.example.Main" ]};
     consumed_symbols_by_scope :=
       {[ "org.example.Main" := {[ "Path"; "Instant.now"; "D.from" ]} ]};
     scopes := {[ "org.example" ]} |}.

(** The same file with its package declaration changed. *)
Definition moved_kt : KotlinSourceDependencyAnalysis :=
  {| package := "com.example";
     imports := imports main_kt;
     named_declarations := named_declarations main_kt;
     consumed_symbols_by_scope := consumed_symbols_by_scope main_kt;
     scopes := scopes main_kt |}.

Example fully_qualified_consumed_symbols_main_kt :
  fully_qualified_consumed_symbols main_kt
  ≡ₚ [ "org.example.Path"; "kotlin.io.path.Path";
       "Instant.now"; "org.example.Instant.now"; "kotlin.io.path.Instant.now";
       "java.time.Instant.now";
       "D.from"; "org.example.D.from"; "kotlin.io.path.D.from";
       "java.util.Date.from" ].
Proof. vm_compute. solve_Permutation. Qed.

Lemma encloses_org_example : encloses "org.example" "org.example.Main".
Proof. right; right. by exists "Main". Qed.

Lemma main_kt_names_hold_a_dot : "."%char ∈ chars "kotlin.io.path.Path".
Proof.
  apply (declared_scopes_yield_dotted_names main_kt).
  - intros Hempty. apply (f_equal elements) in Hempty. vm_compute in Hempty.
    discriminate.
  - vm_compute. set_solver.
Defined.

Lemma main_kt_Path_qualified :
  "org.example.Path" ∈ fully_qualified_consumed_symbols main_kt
  ∧ "kotlin.io.path.Path" ∈ fully_qualified_consumed_symbols main_kt.
Proof.
  destruct (consumed_symbol_is_qualified_by_enclosing_scopes main_kt
              "org.example.Main" "Path" {[ "Path"; "Instant.now"; "D.from" ]})
    as (_ & Hscopes & Hwild); [reflexivity|set_solver|].
  split.
  - apply (Hscopes "org.example"); [set_solver|apply encloses_org_example].
  - apply (Hwild {| name := "kotlin.io.path"; alias := None;
                    is_wildcard := true |});
      [apply encloses_org_example|set_solver|reflexivity].
Defined.

Lemma main_kt_aliased_Date_qualified :
  "java.util.Date.from" ∈ fully_qualified_consumed_symbols main_kt.
Proof.
  apply (relative_use_of_import_is_qualified main_kt "org.example.Main" "D.from"
           {[ "Path"; "Instant.now"; "D.from" ]}
           {| name := "java.util.Date"; alias := Some "D"; is_wildcard := false |}).
  - reflexivity.
  - set_solver.
  - vm_compute. set_solver.
  - apply encloses_org_example.
  - set_solver.
  - left. split; [reflexivity|done].
Defined.

Lemma moved_kt_ignores_imports :
  fully_qualified_consumed_symbols moved_kt
  = fully_qualified_consumed_symbols (without_imports moved_kt).
Proof.
  apply (imports_apply_under_the_package_only moved_kt).
  intros scope [symbols Hscope] Henc. simpl in Hscope.
  apply lookup_singleton_Some in Hscope as [<- _].
  destruct Henc as [Heq|[Heq|[rest Heq]]]; discriminate.
Defined.

End KotlinSymbols.

(** ** Rule bodies that await the engine

    The outcome of a rule body is paired with the requests it issued, in
    order.  [E] is the type of the exceptions the body can end with. *)
Module Rules.

Inductive outcome (E A : Type) :=
| Returned (a : A)
| Raised (e : E).
Arguments Returned {E A} a.
Arguments Raised {E A} e.

Definition rule (R E A : Type) : Type := list R * outcome E A.

Definition rule_return {R E A} (a : A) : rule R E A := ([], Returned a).
Definition raise {R E A} (e : E) : rule R E A := ([], Raised e).
Definition rule_bind {R E A B} (f : A → rule R E B) (m : rule R E A)
  : rule R E B :=
  match m.2 with
  | Returned a => ((m.1 ++ (f a).1)%list, (f a).2)
  | Raised e => (m.1, Raised e)
  end.
#[global] Instance rule_mret {R E} : MRet (rule R E) := @rule_return R E.
#[global] Instance rule_mbind {R E} : MBind (rule R E) := @rule_bind R E.

(** [await rule(args)]: the request is recorded, the engine's answer is the
    value of the expression or the failure it re-raises. *)
Definition await {R E A} (q : R) (answer : outcome E A) : rule R E A :=
  ([q], answer).

End Rules.

(** ** [pants/backend/javascript/subsystems/nodejs.py] *)
Module NodeJS.
Import Py PyStr Engine Rules.
#[local] Arguments String.append !_ _ / : simpl nomatch.

(** *** Engine classes the module reads

    [BinaryShims], [Process] and [ProcessResult] are declared by the
    engine; they are kept with the attributes this module reads or sets.
    [EnvironmentVars] is a [FrozenDict[str, str]]. *)
Record BinaryShims :=
  { path_component : string;
    immutable_input_digests : gmap string Digest }.

Record Process :=
  { argv : list string;
    input_digest : Digest;
    output_files : list string;
    process_immutable_input_digests : gmap string Digest;
    output_directories : list string;
    description : string;
    level : LogLevel;
    env : gmap string string;
    working_directory : option string;
    append_only_caches : gmap string string;
    timeout_seconds : option Z }.

Record ProcessResult := { output_digest : Digest }.

Record BinaryPath := { path : string; fingerprint : string }.
Record BinaryPathTest := { test_args : list string; fingerprint_stdout : bool }.
Record BinaryPathRequest :=
  { search_path : list string;
    binary_name : string;
    test : option BinaryPathTest }.
Record BinaryPaths := { paths : list BinaryPath }.

(** *** The classes of the module *)

(** The options of the [NodeJS] subsystem that the embedded code reads.
    [resolves] is a [dict] in insertion order; [version] is the semver
    range of the acceptable Node.js versions. *)
Record NodeJS :=
  { version : string;
    known_versions : list string;
    url_template : string;
    url_platform_mapping : gmap string string;
    package_manager : string;
    package_managers : gmap string string;
    resolves : list (string * string) }.

(** [NodeJS.default_url_platform_mapping] (lines 79-84). *)
Definition default_url_platform_mapping : gmap string string :=
  {[ "macos_arm64" := "darwin-arm64";
     "macos_x86_64" := "darwin-x64";
     "linux_arm64" := "linux-arm64";
     "linux_x86_64" := "linux-x64" ]}.

Record NodeJSBinaries := { binary_dir : string; digest : option Digest }.

Record NodeJSProcessEnvironment :=
  { binaries : NodeJSBinaries;
    npm_config_cache : string;
    tool_binaries : BinaryShims;
    corepack_home : string;
    corepack_shims : string;
    corepack_env_vars : gmap string string }.

Definition base_bin_dir : string := "__node".

Record NodeJSBootstrap := { nodejs_search_paths : list string }.

(** [CorepackToolRequest] (lines 639-642), with its fields [tool] and
    [version]. *)
Record CorepackToolRequest :=
  { corepack_tool : string; corepack_version : option string }.
Record CorepackToolDigest := { corepack_digest : Digest }.

(** [os.pathsep] and [os.path.join] of posixpath. *)
Definition pathsep : string := ":".
Definition path_join : string → string → string := KotlinParser.path_join.

(** The truth value of a [str | None]: [None] and [""] are false. *)
Definition truthy (s : option string) : bool :=
  match s with
  | Some (String _ _) => true
  | _ => false
  end.

(** [NodeJSProcessEnvironment.binary_directory] (lines 361-363). *)
Definition binary_directory (self : NodeJSProcessEnvironment) : string :=
  binary_dir (binaries self).

(** [NodeJSProcessEnvironment.to_env_dict] (lines 342-355).  In
    [{**a, k: v, **b}] a later entry replaces an earlier one with the same
    key. *)
Definition to_env_dict (self : NodeJSProcessEnvironment)
    (extras : option (gmap string string)) : gmap string string :=
  let extras := default ∅ extras in
  let extra_path := default "" (extras !! "PATH") in
  let path :=
    ([ path_component (tool_binaries self); corepack_shims self;
       binary_directory self ]
     ++ (if bool_decide (extra_path ≠ "") then [extra_path] else []))%list in
  corepack_env_vars self
  ∪ <["COREPACK_HOME" := path_join "{chroot}" (corepack_home self)]>
      (<["npm_config_cache" := npm_config_cache self]>
         (<["PATH" := join pathsep path]> extras)).

(** [NodeJSProcessEnvironment.append_only_caches] (lines 357-359). *)
Definition environment_append_only_caches (self : NodeJSProcessEnvironment)
  : gmap string string :=
  {[ "npm" := npm_config_cache self ]}.

(** [NodeJSProcessEnvironment.immutable_digest] (lines 365-370); a [Digest]
    object is true, [None] is false. *)
Definition immutable_digest (self : NodeJSProcessEnvironment)
  : gmap string Digest :=
  match digest (binaries self) with
  | Some d =>
      immutable_input_digests (tool_binaries self) ∪ {[ base_bin_dir := d ]}
  | None => immutable_input_digests (tool_binaries self)
  end.

(** *** The rules *)

Inductive request :=
| Get_fallible_to_exec_result_or_raise (p : Process)
| Get_merge_digests (digests : list Digest)
| Get_environment_vars_subset (names : list string)
| Get_find_binary (r : BinaryPathRequest).

Record engine :=
  { fallible_to_exec_result_or_raise : Process → outcome exn ProcessResult;
    merge_digests : list Digest → outcome exn Digest;
    environment_vars_subset : list string → outcome exn (gmap string string);
    find_binary : BinaryPathRequest → outcome exn BinaryPaths }.

Abbreviation rule := (Rules.rule request exn).

(** The [Process] built at lines 659-669; the arguments that are not
    passed are left at the defaults of [Process]. *)
Definition corepack_process (environment : NodeJSProcessEnvironment)
    (argv : list string) (description : string) : Process :=
  {| argv := argv;
     input_digest := EMPTY_DIGEST;
     output_files := [];
     process_immutable_input_digests := immutable_digest environment;
     output_directories := [corepack_home environment];
     description := description;
     level := DEBUG;
     env := to_env_dict environment None;
     working_directory := None;
     append_only_caches := environment_append_only_caches environment;
     timeout_seconds := None |}.

(** [prepare_corepack_tool] (lines 650-672). *)
Definition prepare_corepack_tool (E : engine) (request : CorepackToolRequest)
    (environment : NodeJSProcessEnvironment) (nodejs : NodeJS)
  : rule CorepackToolDigest :=
  let version :=
    if truthy (corepack_version request) then corepack_version request
    else package_managers nodejs !! corepack_tool request in
  let tool_spec :=
    if truthy version
    then corepack_tool request ++ "@" ++ default "" version
    else corepack_tool request in
  let tool_description :=
    if truthy version then tool_spec
    else "default " ++ tool_spec ++ " version" in
  let process :=
    corepack_process environment
      (filter_None [ "corepack"; "prepare";
                     if truthy version then tool_spec else "--all";
                     "--activate" ])
      ("Preparing configured " ++ tool_description ++ ".") in
  result ← await (Get_fallible_to_exec_result_or_raise process)
                 (fallible_to_exec_result_or_raise E process);
  mret {| corepack_digest := output_digest result |}.

(** [setup_node_tool_process] (lines 675-701).  The rule
    [prepare_corepack_tool] it awaits is the one above; the engine hands it
    the same [NodeJSProcessEnvironment] and the [NodeJS] subsystem. *)
Definition setup_node_tool_process (E : engine)
    (request : Dataclasses.NodeJSToolProcess)
    (environment : NodeJSProcessEnvironment) (nodejs : NodeJS)
  : rule Process :=
  input_digest ←
    (if bool_decide (Dataclasses.tool request ∈ ["npm"; "npx"; "pnpm"; "yarn"])
     then
       let tool_name := replace "npx" "npm" (Dataclasses.tool request) in
       corepack_tool ←
         prepare_corepack_tool E
           {| corepack_tool := tool_name;
              corepack_version := Dataclasses.tool_version request |}
           environment nodejs;
       let digests :=
         [Dataclasses.input_digest request; corepack_digest corepack_tool] in
       await (Get_merge_digests digests) (merge_digests E digests)
     else mret (Dataclasses.input_digest request));
  mret
    {| argv := filter_None (Dataclasses.tool request :: Dataclasses.args request);
       input_digest := input_digest;
       output_files := Dataclasses.output_files request;
       process_immutable_input_digests := immutable_digest environment;
       output_directories := Dataclasses.output_directories request;
       description := Dataclasses.description request;
       level := Dataclasses.level request;
       env := to_env_dict environment
                (Some (Dataclasses.Mapping_items (Dataclasses.extra_env request)));
       working_directory := Dataclasses.working_directory request;
       append_only_caches :=
         environment_append_only_caches environment
         ∪ Dataclasses.append_only_caches request;
       timeout_seconds := Dataclasses.timeout_seconds request |}.

(** [_get_nvm_root] (lines 492-504).  The engine answers with the variables
    of the three names that are set. *)
Definition _get_nvm_root (E : engine) : rule (option string) :=
  let names := ["NVM_DIR"; "XDG_CONFIG_HOME"; "HOME"] in
  env ← await (Get_environment_vars_subset names)
              (environment_vars_subset E names);
  let nvm_dir := env !! "NVM_DIR" in
  let default_dir :=
    match env !! "XDG_CONFIG_HOME" with
    | Some d => Some d
    | None => env !! "HOME"
    end in
  if truthy nvm_dir then mret nvm_dir
  else if truthy default_dir
       then mret (Some (path_join (default "" default_dir) ".nvm"))
       else mret None.

(** [itertools.groupby(items, key)] on a finite sequence, each group read
    to its end before the next is asked for: the maximal runs of consecutive
    items with equal keys, each with its key. *)
Fixpoint groupby {A} (key : A → string) (items : list A)
  : list (string * list A) :=
  match items with
  | [] => []
  | x :: rest =>
      match groupby key rest with
      | (k, run) :: groups =>
          if bool_decide (key x = k) then (k, x :: run) :: groups
          else (key x, [x]) :: (k, run) :: groups
      | [] => [(key x, [x])]
      end
  end.

(** [dict(pairs)] and a dict comprehension: a later pair replaces an
    earlier one with the same key. *)
Definition dict_of {V} (pairs : list (string * V)) : gmap string V :=
  list_to_map (reverse pairs).

(** The keys of [dict(pairs)], in the order a [dict] keeps them: that of
    their first insertion. *)
Fixpoint first_insertions (seen keys : list string) : list string :=
  match keys with
  | [] => []
  | k :: rest =>
      if bool_decide (k ∈ seen) then first_insertions seen rest
      else k :: first_insertions (k :: seen) rest
  end.
Definition dict_keys {V} (pairs : list (string * V)) : list string :=
  first_insertions [] pairs.*1.

(** The [BinaryPathRequest] built at lines 580-586. *)
Definition node_binary_request (bootstrap : NodeJSBootstrap)
  : BinaryPathRequest :=
  {| search_path := nodejs_search_paths bootstrap;
     binary_name := "node";
     test := Some {| test_args := ["--version"];
                     fingerprint_stdout := false |} |}.

(** [get_valid_nodejs_paths_by_version] (lines 577-591). *)
Definition get_valid_nodejs_paths_by_version (E : engine)
    (bootstrap : NodeJSBootstrap) : rule (gmap string (list BinaryPath)) :=
  let request := node_binary_request bootstrap in
  found ← await (Get_find_binary request) (find_binary E request);
  let group_by_version := groupby fingerprint (paths found) in
  mret (dict_of group_by_version).

(** [user_chosen_resolve_aliases] (lines 708-710): the mapping built from
    the pairs [(value, key)]; a later pair replaces an earlier one with the
    same first component. *)
Definition user_chosen_resolve_aliases (nodejs : NodeJS) : gmap string string :=
  dict_of ((λ item, (item.2, item.1)) <$> resolves nodejs).

(** What a caller of [to_env_dict] adds to [PATH]. *)
Definition path_suffix (extras : option (gmap string string)) : string :=
  match default ∅ extras !! "PATH" with
  | Some (String c p) => pathsep ++ String c p
  | _ => ""
  end.

(** The version corepack is asked for: the one of the request unless it is
    missing or empty, else the one configured for the tool. *)
Definition requested_version (request : CorepackToolRequest) (nodejs : NodeJS)
  : option string :=
  match corepack_version request with
  | Some (String c v) => Some (String c v)
  | _ => package_managers nodejs !! corepack_tool request
  end.

Definition package_manager_tools : list string := ["npm"; "npx"; "pnpm"; "yarn"].

(** The corepack request [setup_node_tool_process] makes for a package
    manager: [npx] is prepared as [npm]. *)
Definition corepack_request_of (request : Dataclasses.NodeJSToolProcess)
  : CorepackToolRequest :=
  {| corepack_tool := if bool_decide (Dataclasses.tool request = "npx")
                      then "npm" else Dataclasses.tool request;
     corepack_version := Dataclasses.tool_version request |}.

Definition nvm_variables : list string := ["NVM_DIR"; "XDG_CONFIG_HOME"; "HOME"].

(** *** The environment of a Node.js process *)

(** X7.  In the environment of a Node.js process the corepack variables of the
    subsystem replace every other entry of the same name.  Below them,
    [npm_config_cache] and [COREPACK_HOME] are those of the environment and
    [PATH] is the tool shims, the corepack shims and the Node.js binary
    directory, in this order, followed by the caller's [PATH] when it gave a
    non-empty one; a caller's entry of another name is passed on, and its
    entries of these three names are not. *)
Theorem to_env_dict_precedence (self : NodeJSProcessEnvironment)
    (extras : option (gmap string string)) :
  (∀ k v, corepack_env_vars self !! k = Some v →
     to_env_dict self extras !! k = Some v)
  ∧ (corepack_env_vars self !! "PATH" = None →
       to_env_dict self extras !! "PATH"
       = Some (path_component (tool_binaries self) ++ ":" ++ corepack_shims self
               ++ ":" ++ binary_directory self ++ path_suffix extras))
  ∧ (corepack_env_vars self !! "npm_config_cache" = None →
       to_env_dict self extras !! "npm_config_cache"
       = Some (npm_config_cache self))
  ∧ (corepack_env_vars self !! "COREPACK_HOME" = None →
       to_env_dict self extras !! "COREPACK_HOME"
       = Some (path_join "{chroot}" (corepack_home self)))
  ∧ (∀ k, k ∉ ["PATH"; "npm_config_cache"; "COREPACK_HOME"] →
       corepack_env_vars self !! k = None →
       to_env_dict self extras !! k = default ∅ extras !! k).
Proof.
  unfold to_env_dict. repeat split.
  - intros k v Hk. by apply lookup_union_Some_l.
  - intros Hnone. rewrite lookup_union_r by done.
    rewrite lookup_insert_ne, lookup_insert_ne, lookup_insert_eq by done.
    f_equal. unfold path_suffix, pathsep.
    destruct (default ∅ extras !! "PATH") as [[|c p]|]; simpl;
      by rewrite ?str_app_nil_r.
  - intros Hnone. rewrite lookup_union_r by done.
    by rewrite lookup_insert_ne, lookup_insert_eq.
  - intros Hnone. rewrite lookup_union_r by done.
    by rewrite lookup_insert_eq.
  - intros k Hk Hnone. rewrite lookup_union_r by done.
    rewrite !not_elem_of_cons in Hk. destruct Hk as (? & ? & ? & _).
    by rewrite !lookup_insert_ne.
Qed.

(** *** Preparing a package manager through corepack *)

Lemma filter_None_id (items : list string) :
  Forall (λ s, s ≠ "") items → filter_None items = items.
Proof.
  unfold filter_None. induction 1 as [|s items Hs _ IH]; [done|].
  by rewrite filter_cons_True, IH.
Qed.

Lemma filter_None_nonempty (items : list string) : "" ∉ filter_None items.
Proof. unfold filter_None. rewrite list_elem_of_filter. tauto. Qed.

(** X8.  [prepare_corepack_tool] issues one request, for a process
    [corepack prepare <what> --activate] of four arguments, and returns or
    raises as the engine answers it.  [<what>] is [tool@version] for the
    version of the request, or for the version configured for the tool when
    the request names none or an empty one, and [--all] when neither gives a
    non-empty version. *)
Theorem prepare_corepack_tool_version (E : engine) (request : CorepackToolRequest)
    (environment : NodeJSProcessEnvironment) (nodejs : NodeJS) :
  ∃ process,
    argv process
    = [ "corepack"; "prepare";
        match requested_version request nodejs with
        | Some (String c v) => corepack_tool request ++ "@" ++ String c v
        | _ => "--all"
        end;
        "--activate" ]
    ∧ prepare_corepack_tool E request environment nodejs
      = ([Get_fallible_to_exec_result_or_raise process],
         match fallible_to_exec_result_or_raise E process with
         | Returned result =>
             Returned {| corepack_digest := output_digest result |}
         | Raised e => Raised e
         end).
Proof.
  unfold prepare_corepack_tool, requested_version. cbv zeta.
  set (v := if truthy (corepack_version request) then corepack_version request
            else package_managers nodejs !! corepack_tool request).
  assert (match corepack_version request with
          | Some (String c w) => Some (String c w)
          | _ => package_managers nodejs !! corepack_tool request
          end = v) as ->.
  { unfold v. by destruct (corepack_version request) as [[|??]|]. }
  set (process := corepack_process _ _ _). exists process. split.
  - unfold process, corepack_process, argv.
    rewrite filter_None_id.
    + by destruct v as [[|c w]|].
    + repeat constructor; try done.
      destruct v as [[|c w]|]; simpl; try done.
      by destruct (corepack_tool request).
  - unfold mbind, rule_mbind, rule_bind, await. simpl.
    by destruct (fallible_to_exec_result_or_raise E process).
Qed.

(** *** Setting up the process of a tool *)

Lemma replace_npx tool :
  tool ∈ package_manager_tools →
  replace "npx" "npm" tool = if bool_decide (tool = "npx") then "npm" else tool.
Proof.
  unfold package_manager_tools. rewrite !elem_of_cons, elem_of_nil.
  intros [->|[->|[->|[->|[]]]]]; reflexivity.
Qed.

(** X9.  A tool that is none of [npm], [npx], [pnpm] and [yarn] is set up
    without a request to the engine, on the input digest of the request.  A
    package manager is first prepared through corepack, [npx] as [npm]: a
    failure of the preparation is raised before any digest is merged; after
    it the input digest of the request is merged with the digest corepack
    produced, and the process runs on what the merge returns. *)
Theorem setup_node_tool_process_prepares_package_managers (E : engine)
    (request : Dataclasses.NodeJSToolProcess)
    (environment : NodeJSProcessEnvironment) (nodejs : NodeJS) :
  (Dataclasses.tool request ∉ package_manager_tools →
     ∃ process,
       setup_node_tool_process E request environment nodejs
       = ([], Returned process)
       ∧ input_digest process = Dataclasses.input_digest request)
  ∧ (Dataclasses.tool request ∈ package_manager_tools →
       let prepared :=
         prepare_corepack_tool E (corepack_request_of request) environment
           nodejs in
       match prepared.2 with
       | Raised e =>
           setup_node_tool_process E request environment nodejs
           = (prepared.1, Raised e)
       | Returned tool_digest =>
           let digests :=
             [Dataclasses.input_digest request; corepack_digest tool_digest] in
           match merge_digests E digests with
           | Raised e =>
               setup_node_tool_process E request environment nodejs
               = ((prepared.1 ++ [Get_merge_digests digests])%list, Raised e)
           | Returned merged =>
               ∃ process,
                 setup_node_tool_process E request environment nodejs
                 = ((prepared.1 ++ [Get_merge_digests digests])%list,
                    Returned process)
                 ∧ input_digest process = merged
           end
       end).
Proof.
  split.
  - intros Hother. unfold setup_node_tool_process.
    rewrite bool_decide_eq_false_2 by done.
    eexists. split; [reflexivity|done].
  - intros Hpm. unfold setup_node_tool_process.
    rewrite bool_decide_eq_true_2 by done.
    rewrite (replace_npx _ Hpm). fold (corepack_request_of request).
    cbv zeta.
    destruct (prepare_corepack_tool E (corepack_request_of request)
                environment nodejs) as [reqs [tool_digest|e]] eqn:Hprep;
      [|reflexivity].
    cbn [snd fst].
    destruct (merge_digests E _) as [merged|e] eqn:Hmerge.
    + eexists. unfold mbind, rule_mbind, rule_bind, await, mret, rule_mret,
        rule_return. cbn [fst snd]. rewrite Hmerge. cbn [fst snd].
      rewrite app_nil_r. split; [reflexivity|done].
    + unfold mbind, rule_mbind, rule_bind, await, mret, rule_mret,
        rule_return. cbn [fst snd]. by rewrite Hmerge.
Qed.

(** X10.  Whatever the request, the process that [setup_node_tool_process]
    returns has no empty argument, and its cache named [npm] is the npm
    cache of the environment, whatever cache the request gave under this
    name; the other caches are those of the request. *)
Theorem setup_node_tool_process_argv_and_caches (E : engine)
    (request : Dataclasses.NodeJSToolProcess)
    (environment : NodeJSProcessEnvironment) (nodejs : NodeJS)
    (issued : list NodeJS.request) (process : Process) :
  setup_node_tool_process E request environment nodejs
  = (issued, Returned process) →
  ("" ∉ argv process)
  ∧ argv process
    = filter (λ s, s ≠ "") (Dataclasses.tool request :: Dataclasses.args request)
  ∧ append_only_caches process !! "npm" = Some (npm_config_cache environment)
  ∧ (∀ k, k ≠ "npm" →
       append_only_caches process !! k
       = Dataclasses.append_only_caches request !! k)
  ∧ env process
    = to_env_dict environment
        (Some (Dataclasses.Mapping_items (Dataclasses.extra_env request))).
Proof.
  unfold setup_node_tool_process.
  set (m := if bool_decide _ then _ else _).
  unfold mbind, rule_mbind, rule_bind, mret, rule_mret, rule_return.
  destruct m as [reqs [d|e]]; cbn [fst snd]; [|discriminate].
  intros [= _ <-]. cbn [argv append_only_caches env].
  split; [apply filter_None_nonempty|]. split; [done|].
  unfold environment_append_only_caches. split; [|split; [|done]].
  - apply lookup_union_Some_l. apply lookup_singleton_eq.
  - intros k Hk. rewrite lookup_union_r; [done|].
    by apply lookup_singleton_ne.
Qed.

(** *** The root directory of nvm *)

(** X11.  [_get_nvm_root] asks for the three variables and, when the engine
    answers, returns: a non-empty [NVM_DIR]; otherwise [.nvm] under
    [XDG_CONFIG_HOME] when that variable is set and non-empty, and nothing
    when it is set and empty, whatever [HOME] is; [.nvm] under a non-empty
    [HOME] when [XDG_CONFIG_HOME] is not set; nothing otherwise. *)
Theorem get_nvm_root_precedence (E : engine) (vars : gmap string string) :
  environment_vars_subset E nvm_variables = Returned vars →
  _get_nvm_root E
  = ([Get_environment_vars_subset nvm_variables],
     Returned
       match vars !! "NVM_DIR" with
       | Some (String c d) => Some (String c d)
       | _ =>
           match vars !! "XDG_CONFIG_HOME" with
           | Some (String c d) => Some (path_join (String c d) ".nvm")
           | Some EmptyString => None
           | None =>
               match vars !! "HOME" with
               | Some (String c d) => Some (path_join (String c d) ".nvm")
               | _ => None
               end
           end
       end).
Proof.
  intros Hvars. unfold _get_nvm_root. fold nvm_variables. cbv zeta.
  unfold mbind, rule_mbind, rule_bind, await. cbn [fst snd]. rewrite Hvars.
  destruct (vars !! "NVM_DIR") as [[|c d]|]; simpl;
    destruct (vars !! "XDG_CONFIG_HOME") as [[|c' d']|]; simpl;
    try reflexivity;
    destruct (vars !! "HOME") as [[|c'' d'']|]; reflexivity.
Qed.

(** *** Resolve aliases *)

Lemma snoc_eq_app_cons {A} (l before after : list A) x y :
  (l ++ [x] = before ++ y :: after)%list →
  (after = [] ∧ l = before ∧ x = y)
  ∨ ∃ after', after = (after' ++ [x])%list ∧ l = (before ++ y :: after')%list.
Proof.
  intros Heq. induction after as [|z after' _] using rev_ind.
  - left. apply app_inj_tail in Heq as [-> ->]. done.
  - right. exists after'. rewrite app_comm_cons, app_assoc in Heq.
    apply app_inj_tail in Heq as [-> ->]. done.
Qed.

(** The value of a key in [dict(pairs)] is that of the last pair with this
    key. *)
Lemma dict_of_last_wins {V} (pairs : list (string * V)) (k : string) (v : V) :
  dict_of pairs !! k = Some v
  ↔ ∃ before after,
      pairs = (before ++ (k, v) :: after)%list ∧ k ∉ after.*1.
Proof.
  unfold dict_of. induction pairs as [|[k' v'] pairs IH] using rev_ind.
  - simpl. rewrite lookup_empty. split; [done|].
    intros (before & after & Heq & _). by destruct before.
  - rewrite reverse_app. simpl.
    destruct (decide (k' = k)) as [->|Hne].
    + rewrite lookup_insert_eq. split.
      * intros [= ->]. exists pairs, []. split; [done|]. apply not_elem_of_nil.
      * intros (before & after & Heq & Hnin).
        apply snoc_eq_app_cons in Heq as [(_ & _ & [= ->])|(after' & -> & _)];
          [done|].
        rewrite fmap_app, elem_of_app in Hnin. simpl in Hnin.
        exfalso. apply Hnin. right. by apply list_elem_of_singleton.
    + rewrite lookup_insert_ne by done. rewrite IH. split.
      * intros (before & after & -> & Hnin).
        exists before, (after ++ [(k', v')])%list. split.
        { by rewrite <- app_assoc. }
        rewrite fmap_app, elem_of_app. simpl.
        rewrite list_elem_of_singleton. intros [?|?]; [done|congruence].
      * intros (before & after & Heq & Hnin).
        apply snoc_eq_app_cons in Heq as [(_ & _ & [= -> _])|(after' & -> & ->)];
          [done|].
        exists before, after'. split; [done|].
        rewrite fmap_app, elem_of_app in Hnin. tauto.
Qed.

Lemma dict_of_None {V} (pairs : list (string * V)) (k : string) :
  dict_of pairs !! k = None ↔ k ∉ pairs.*1.
Proof.
  unfold dict_of. rewrite <- not_elem_of_list_to_map.
  by rewrite fmap_reverse, elem_of_reverse.
Qed.

(** X12.  [user_chosen_resolve_aliases] maps a lockfile path to the resolve name
    that is the last one configured with this path.  When no two resolves
    share a path it is the inverse of the [resolves] option. *)
Theorem user_chosen_resolve_aliases_last_wins (nodejs : NodeJS)
    (path name : string) :
  (user_chosen_resolve_aliases nodejs !! path = Some name
   ↔ ∃ before after,
       resolves nodejs = (before ++ (name, path) :: after)%list
       ∧ path ∉ after.*2)
  ∧ (NoDup (resolves nodejs).*2 →
       user_chosen_resolve_aliases nodejs !! path = Some name
       ↔ (name, path) ∈ resolves nodejs).
Proof.
  assert (user_chosen_resolve_aliases nodejs !! path = Some name
          ↔ ∃ before after,
              resolves nodejs = (before ++ (name, path) :: after)%list
              ∧ path ∉ after.*2) as Hlast.
  { unfold user_chosen_resolve_aliases. rewrite dict_of_last_wins. split.
    - intros (before & after & Heq & Hnin).
      apply fmap_app_inv in Heq as (before' & rest & -> & Hrest & ->).
      symmetry in Hrest.
      apply fmap_cons_inv in Hrest as ([n p] & after' & [= -> ->] & -> & ->).
      exists before', after'. split; [done|].
      by rewrite <- list_fmap_compose in Hnin.
    - intros (before & after & -> & Hnin).
      exists ((λ item, (item.2, item.1)) <$> before),
             ((λ item, (item.2, item.1)) <$> after).
      rewrite fmap_app, fmap_cons. split; [done|].
      by rewrite <- list_fmap_compose. }
  split; [done|].
  intros Hnodup. rewrite Hlast. split.
  - intros (before & after & -> & _). rewrite elem_of_app, elem_of_cons. auto.
  - intros (before & after & Heq)%list_elem_of_split.
    exists before, after. split; [done|].
    rewrite Heq, fmap_app, fmap_cons in Hnodup.
    apply NoDup_app in Hnodup as (_ & _ & Hnodup).
    by apply NoDup_cons in Hnodup as [? _].
Qed.

(** *** The Node.js binaries found, by version *)

Lemma groupby_head {A} (key : A → string) x rest :
  ∃ run groups, groupby key (x :: rest) = (key x, x :: run) :: groups.
Proof.
  simpl. destruct (groupby key rest) as [|[k run] groups]; [by eauto|].
  case_bool_decide as Hk; [|by eauto]. subst k. eauto.
Qed.

Lemma groupby_keys {A} (key : A → string) items k :
  k ∈ (groupby key items).*1 ↔ k ∈ key <$> items.
Proof.
  induction items as [|x rest IH]; simpl; [done|].
  rewrite elem_of_cons, <- IH.
  destruct (groupby key rest) as [|[k' run] groups]; simpl.
  - rewrite list_elem_of_singleton, elem_of_nil. tauto.
  - case_bool_decide as Hk; simpl; rewrite !elem_of_cons; [|tauto].
    subst k'. tauto.
Qed.

(** A run of items with one key is one group. *)
Lemma groupby_run {A} (key : A → string) run k :
  run ≠ [] → Forall (λ x, key x = k) run → groupby key run = [(k, run)].
Proof.
  induction run as [|x rest IH]; [done|]. intros _ Hall.
  apply Forall_cons in Hall as [Hx Hrest]. simpl.
  destruct rest as [|y rest]; [by rewrite <- Hx|].
  rewrite IH by done. by rewrite bool_decide_eq_true_2.
Qed.

(** Where the key changes, the groups of a sequence are those of its two
    parts. *)
Lemma groupby_app {A} (key : A → string) l1 l2 :
  (∀ a b, last l1 = Some a → head l2 = Some b → key a ≠ key b) →
  groupby key (l1 ++ l2) = (groupby key l1 ++ groupby key l2)%list.
Proof.
  induction l1 as [|x l1 IH]; [done|]. intros Hchange.
  change ((x :: l1) ++ l2)%list with (x :: (l1 ++ l2))%list.
  cbn [groupby]. rewrite IH.
  2:{ intros a b Ha Hb. apply Hchange; [|done].
      rewrite last_cons, Ha. done. }
  destruct l1 as [|y l1].
  - simpl. destruct l2 as [|b l2]; [done|].
    destruct (groupby_head key b l2) as (run & groups & ->).
    rewrite bool_decide_eq_false_2; [done|]. by apply Hchange.
  - destruct (groupby_head key y l1) as (run & groups & ->). simpl.
    by case_bool_decide.
Qed.

(** X13.  [get_valid_nodejs_paths_by_version] files the binaries the engine found
    under their fingerprints, the versions.  The versions of the result are
    the fingerprints found; the binaries under a version are the last run of
    consecutive binaries with this fingerprint: binaries of the same version
    found earlier, before a binary of another version, are left out. *)
Theorem paths_by_version_keep_the_last_run (E : engine)
    (bootstrap : NodeJSBootstrap) (found : BinaryPaths) :
  find_binary E (node_binary_request bootstrap) = Returned found →
  ∃ by_version,
    get_valid_nodejs_paths_by_version E bootstrap
    = ([Get_find_binary (node_binary_request bootstrap)], Returned by_version)
    ∧ (∀ v, is_Some (by_version !! v) ↔ v ∈ fingerprint <$> paths found)
    ∧ (∀ v before run after,
         paths found = (before ++ run ++ after)%list →
         run ≠ [] →
         Forall (λ b, fingerprint b = v) run →
         v ∉ fingerprint <$> after →
         (∀ b, last before = Some b → fingerprint b ≠ v) →
         by_version !! v = Some run).
Proof.
  intros Hfound. eexists. split; [|split].
  - unfold get_valid_nodejs_paths_by_version. cbv zeta.
    unfold mbind, rule_mbind, rule_bind, await. cbn [fst snd].
    rewrite Hfound. reflexivity.
  - intros v. rewrite <- groupby_keys, <- not_eq_None_Some, dict_of_None.
    split; [apply dec_stable|auto].
  - intros v before run after Heq Hrun Hall Hafter Hbefore.
    apply dict_of_last_wins.
    exists (groupby fingerprint before), (groupby fingerprint after).
    split; [|by rewrite groupby_keys].
    rewrite Heq.
    rewrite (groupby_app _ before (run ++ after)).
    2:{ intros a b Ha Hb.
        destruct run as [|r run]; [done|]. simpl in Hb. injection Hb as <-.
        apply Forall_cons in Hall as [-> _]. by apply Hbefore. }
    rewrite (groupby_app _ run after).
    2:{ intros a b Ha Hb.
        assert (fingerprint a = v) as ->.
        { apply last_Some in Ha as [l' ->].
          apply Forall_app in Hall as [_ Hall].
          by inversion Hall. }
        intros Hv. apply Hafter. destruct after as [|b' after]; [done|].
        simpl in Hb. injection Hb as ->. rewrite fmap_cons, elem_of_cons. auto. }
    by rewrite (groupby_run _ run v).
Qed.

(** *** The theorems at a sample engine *)

(** An engine that runs every process successfully, answers a merge with
    its last digest, and knows the variables [vars] and the binaries
    [found]. *)
Definition sample_engine (vars : gmap string string) (found : list BinaryPath)
  : engine :=
  {| fallible_to_exec_result_or_raise _ :=
       Returned {| output_digest := EMPTY_DIGEST |};
     merge_digests digests := Returned (default EMPTY_DIGEST (last digests));
     environment_vars_subset names :=
       Returned (filter (λ kv, kv.1 ∈ names) vars);
     find_binary _ := Returned {| paths := found |} |}.

Definition sample_environment : NodeJSProcessEnvironment :=
  {| binaries := {| binary_dir := "{chroot}/__node/node-v22/bin";
                    digest := Some EMPTY_DIGEST |};
     npm_config_cache := "._npm";
     tool_binaries := {| path_component := "/shims";
                         immutable_input_digests := ∅ |};
     corepack_home := "._corepack_home";
     corepack_shims := "{chroot}/__node/._corepack";
     corepack_env_vars := ∅ |}.

Definition sample_nodejs : NodeJS :=
  {| version := ">=18";
     known_versions := [];
     url_template := "https://nodejs.org/dist/{version}/node-{version}-{platform}.tar";
     url_platform_mapping := default_url_platform_mapping;
     package_manager := "npm";
     package_managers := {[ "npm" := "10.9.2" ]};
     resolves := [("js.a", "src/js/a/package-lock.json");
                  ("js.b", "src/js/b/package-lock.json")] |}.

(** A request for a tool that is no package manager, with an empty
    argument and a cache of its own under the name [npm]. *)
Definition tsc_request : Dataclasses.NodeJSToolProcess :=
  {| Dataclasses.tool := "tsc";
     Dataclasses.tool_version := None;
     Dataclasses.args := ["--build"; ""];
     Dataclasses.description := "Compiling";
     Dataclasses.level := INFO;
     Dataclasses.input_digest := EMPTY_DIGEST;
     Dataclasses.output_files := [];
     Dataclasses.output_directories := [];
     Dataclasses.working_directory := None;
     Dataclasses.append_only_caches := {[ "npm" := "elsewhere" ]};
     Dataclasses.timeout_seconds := None;
     Dataclasses.extra_env := Dataclasses.FrozenDict ∅;
     Dataclasses.project_digest := None |}.

Example prepare_corepack_tool_npx_default :
  (prepare_corepack_tool (sample_engine ∅ [])
     {| corepack_tool := "npm"; corepack_version := Some "" |}
     sample_environment sample_nodejs).1
  = [Get_fallible_to_exec_result_or_raise
       (corepack_process sample_environment
          ["corepack"; "prepare"; "npm@10.9.2"; "--activate"]
          "Preparing configured npm@10.9.2.")].
Proof. reflexivity. Qed.

Lemma tsc_process_argv_and_caches :
  ∃ process,
    setup_node_tool_process (sample_engine ∅ []) tsc_request
      sample_environment sample_nodejs = ([], Returned process)
    ∧ argv process = ["tsc"; "--build"]
    ∧ append_only_caches process !! "npm" = Some "._npm".
Proof.
  eexists. split; [reflexivity|].
  destruct (setup_node_tool_process_argv_and_caches (sample_engine ∅ [])
              tsc_request sample_environment sample_nodejs [] _ eq_refl)
    as (_ & Hargv & Hnpm & _).
  split; [exact Hargv|exact Hnpm].
Defined.

Lemma nvm_root_with_empty_XDG_CONFIG_HOME :
  _get_nvm_root
    (sample_engine {[ "XDG_CONFIG_HOME" := ""; "HOME" := "/home/dev" ]} [])
  = ([Get_environment_vars_subset nvm_variables], Returned None).
Proof.
  exact (get_nvm_root_precedence
           (sample_engine {[ "XDG_CONFIG_HOME" := ""; "HOME" := "/home/dev" ]} [])
           _ eq_refl).
Defined.

Definition node18_first : BinaryPath :=
  {| path := "/opt/node18/bin/node"; fingerprint := "v18.20.4" |}.
Definition node20 : BinaryPath :=
  {| path := "/usr/bin/node"; fingerprint := "v20.11.0" |}.
Definition node18_second : BinaryPath :=
  {| path := "/home/dev/.nvm/versions/node/v18.20.4/bin/node";
     fingerprint := "v18.20.4" |}.

Lemma separated_binary_of_a_version_is_left_out :
  ∃ by_version,
    get_valid_nodejs_paths_by_version
      (sample_engine ∅ [node18_first; node20; node18_second])
      {| nodejs_search_paths := ["<PATH>"] |}
    = ([Get_find_binary (node_binary_request {| nodejs_search_paths := ["<PATH>"] |})],
       Returned by_version)
    ∧ by_version !! "v18.20.4" = Some [node18_second].
Proof.
  destruct (paths_by_version_keep_the_last_run
              (sample_engine ∅ [node18_first; node20; node18_second])
              {| nodejs_search_paths := ["<PATH>"] |}
              {| paths := [node18_first; node20; node18_second] |} eq_refl)
    as (by_version & Hrule & _ & Hlast).
  exists by_version. split; [exact Hrule|].
  apply (Hlast "v18.20.4" [node18_first; node20] [node18_second] []).
  - reflexivity.
  - discriminate.
  - by repeat constructor.
  - apply not_elem_of_nil.
  - intros b [= <-]. discriminate.
Defined.

End NodeJS.

(** ** [nodejs.py]: choosing the Node.js distribution *)
Module NodeJSDistribution.
Import Py PyStr Engine Rules NodeJS.
#[local] Arguments String.append !_ _ / : simpl nomatch.

(** The exceptions the rule ends with: those of [Py.exn], and
    [BinaryNotFoundError] of the engine. *)
Inductive nodejs_exn :=
| Builtin (e : exn)
| BinaryNotFoundError (msg : string).

(** Engine classes the rule reads or builds, with the attributes it uses. *)
Record ExternalToolVersion :=
  { tool_version : string; platform : string; sha256 : string; filesize : Z }.
Record Platform := { value : string; is_macos : bool }.
Record FileDigest := { file_fingerprint : string; file_length : Z }.
Record DownloadFile := { url : string; expected_digest : FileDigest }.
Record ExternalToolRequest :=
  { download_file_request : DownloadFile; request_exe : string }.
Record DownloadedExternalTool := { downloaded_digest : Digest; exe : string }.

(** Whether a string is made of slashes only. *)
Fixpoint all_slashes (s : string) : bool :=
  match s with
  | EmptyString => true
  | String c rest => Ascii.eqb c "/" && all_slashes rest
  end.

(** [s.rstrip("/")] *)
Fixpoint rstrip_slashes (s : string) : string :=
  match s with
  | EmptyString => ""
  | String c rest =>
      if all_slashes s then "" else String c (rstrip_slashes rest)
  end.

(** [os.path.dirname] of posixpath: the path up to its last slash, without
    the slashes it ends with unless it is made of slashes only. *)
Definition dirname (p : string) : string :=
  let '(before, found, _) := rpartition "/" p in
  let head := if bool_decide (found = "") then "" else before ++ "/" in
  if bool_decide (head ≠ "") && negb (all_slashes head)
  then rstrip_slashes head else head.

Section Rules.
(** [ExternalToolVersion.decode], [nodesemver.min_satisfying],
    [str.format] on the URL template and [softwrap] are declared outside
    the embedded sources. *)
Variable decode : string → outcome nodejs_exn ExternalToolVersion.
Variable min_satisfying : list string → string → option string.
Variable format_url : string → string → string → outcome nodejs_exn string.
Variable softwrap : string → string.

Inductive request :=
| Get_download_external_tool (r : ExternalToolRequest).

Record engine :=
  { download_external_tool :
      ExternalToolRequest → outcome nodejs_exn DownloadedExternalTool }.

#[local] Abbreviation rule := (Rules.rule request nodejs_exn).

(** The value of an expression that may raise, inside a rule body. *)
Definition evaluate {A} (o : outcome nodejs_exn A) : rule A := ([], o).

(** [NodeJS.generate_url] (lines 112-117). *)
Definition generate_url (self : NodeJS) (version : string) (plat : Platform)
  : rule string :=
  let platform := default "" (url_platform_mapping self !! value plat) in
  url ← evaluate (format_url (url_template self) version platform);
  let extension := if is_macos plat then "gz" else "xz" in
  mret (url ++ "." ++ extension).

(** [NodeJS.generate_exe] (lines 119-122); the class attribute
    [default_url_platform_mapping] is a [dict], so the assertion holds. *)
Definition generate_exe (self : NodeJS) (version : string) (plat : Platform)
  : rule string :=
  match default_url_platform_mapping !! value plat with
  | Some plat_str => mret ("./node-" ++ version ++ "-" ++ plat_str ++ "/bin/node")
  | None => raise (Builtin (KeyError (value plat)))
  end.

(** [NodeJS.download_known_version] (lines 124-130). *)
Definition download_known_version (E : engine) (self : NodeJS)
    (known_version : ExternalToolVersion) (platform : Platform)
  : rule DownloadedExternalTool :=
  exe ← generate_exe self (tool_version known_version) platform;
  url ← generate_url self (tool_version known_version) platform;
  let download_file :=
    {| url := url;
       expected_digest := {| file_fingerprint := sha256 known_version;
                             file_length := filesize known_version |} |} in
  let tool_request :=
    {| download_file_request := download_file; request_exe := exe |} in
  await (Get_download_external_tool tool_request)
        (download_external_tool E tool_request).

(** The known versions decoded one after the other; the first that does not
    decode ends the decoding. *)
Fixpoint decode_all (unparsed : list string)
  : outcome nodejs_exn (list ExternalToolVersion) :=
  match unparsed with
  | [] => Returned []
  | u :: rest =>
      match decode u with
      | Raised e => Raised e
      | Returned v =>
          match decode_all rest with
          | Raised e => Raised e
          | Returned vs => Returned (v :: vs)
          end
      end
  end.

(** The dict comprehension at lines 603-610, as its items in order. *)
Definition decoded_per_version (platform : Platform)
    (decoded : list ExternalToolVersion)
  : list (string * list ExternalToolVersion) :=
  (λ group, (group.1,
             filter (λ known_version,
                       NodeJSDistribution.platform known_version = value platform)
                    group.2))
  <$> groupby tool_version decoded.

(** [x[key][0]] on a mapping of sequences. *)
Definition first_of {V} (d : gmap string (list V)) (key : string)
  : outcome nodejs_exn V :=
  match d !! key with
  | None => Raised (Builtin (KeyError key))
  | Some [] => Raised (Builtin (IndexError "tuple index out of range"))
  | Some (x :: _) => Returned x
  end.

(** [determine_nodejs_binaries] (lines 594-636).  [paths_per_version] is
    given by its items in order. *)
Definition determine_nodejs_binaries (E : engine) (nodejs : NodeJS)
    (platform : Platform)
    (paths_per_version : list (string * list BinaryPath))
  : rule NodeJSBinaries :=
  decoded ← evaluate (decode_all (known_versions nodejs));
  let decoded_per_version := decoded_per_version platform decoded in
  let satisfying_version :=
    min_satisfying (dict_keys decoded_per_version) (version nodejs) in
  if truthy satisfying_version then
    known_version ← evaluate (first_of (dict_of decoded_per_version)
                                (default "" satisfying_version));
    downloaded ← download_known_version E nodejs known_version platform;
    let nodejs_bin_dir :=
      path_join (path_join "{chroot}" base_bin_dir) (dirname (exe downloaded)) in
    mret {| binary_dir := nodejs_bin_dir;
            digest := Some (downloaded_digest downloaded) |}
  else
    let satisfying_version :=
      min_satisfying (dict_keys paths_per_version) (version nodejs) in
    if negb (truthy satisfying_version) then
      raise (BinaryNotFoundError
        (softwrap
           ("
                Cannot find any `node` binaries satisfying the range '"
            ++ version nodejs ++ "'.

                To fix, either list a `[nodejs].known_versions` version that satisfies the range,
                or ensure `[nodejs].search_path` contains a path to binaries that satisfy the range.
                ")))
    else
      first ← evaluate (first_of (dict_of paths_per_version)
                          (default "" satisfying_version));
      mret {| binary_dir := dirname (path first); digest := None |}.

(** *** Known versions *)

Lemma evaluate_returned {A B} (a : A) (f : A → rule B) :
  evaluate (Returned a) ≫= f = f a.
Proof.
  unfold evaluate, mbind, rule_mbind, rule_bind. cbn [fst snd].
  by destruct (f a).
Qed.

Lemma evaluate_raised {A B} (e : nodejs_exn) (f : A → rule B) :
  evaluate (Raised e) ≫= f = ([], Raised e).
Proof. reflexivity. Qed.

(** The items of a group have the key of the group and are items of the
    sequence. *)
Lemma groupby_group {A} (key : A → string) (items : list A) k run :
  (k, run) ∈ groupby key items →
  Forall (λ x, key x = k ∧ x ∈ items) run.
Proof.
  revert k run. induction items as [|x rest IH]; intros k run; simpl.
  - by intros ?%elem_of_nil.
  - destruct (groupby key rest) as [|[k' run'] groups] eqn:Hgroups.
    + intros [= -> ->]%list_elem_of_singleton.
      repeat constructor.
    + assert (∀ k run, (k, run) ∈ (k', run') :: groups →
                Forall (λ y, key y = k ∧ y ∈ x :: rest) run) as IH'.
      { intros k0 run0 Hin. eapply Forall_impl; [by apply IH|].
        intros y [? ?]. split; [done|]. by apply elem_of_cons; right. }
      case_bool_decide as Hk.
      * intros [[= -> ->]|Hin]%elem_of_cons.
        -- constructor; [split; [done|by apply elem_of_cons; left]|].
           apply IH'. by apply elem_of_cons; left.
        -- apply IH'. by apply elem_of_cons; right.
      * intros [[= -> ->]|Hin]%elem_of_cons.
        -- repeat constructor.
        -- by apply IH'.
Qed.

Lemma decoded_per_version_keys platform decoded v :
  v ∈ (decoded_per_version platform decoded).*1 ↔ v ∈ tool_version <$> decoded.
Proof.
  unfold decoded_per_version. rewrite <- list_fmap_compose.
  rewrite <- (groupby_keys tool_version). done.
Qed.

Lemma decoded_per_version_entries platform decoded v entries :
  dict_of (decoded_per_version platform decoded) !! v = Some entries →
  Forall (λ known_version,
            tool_version known_version = v
            ∧ NodeJSDistribution.platform known_version = value platform
            ∧ known_version ∈ decoded) entries.
Proof.
  intros (before & after & Heq & _)%dict_of_last_wins.
  assert ((v, entries) ∈ decoded_per_version platform decoded) as Hin.
  { rewrite Heq, elem_of_app, elem_of_cons. auto. }
  unfold decoded_per_version in Hin.
  apply list_elem_of_fmap in Hin as ([k run] & [= -> ->] & Hgroup).
  apply groupby_group in Hgroup. simpl.
  apply Forall_forall. intros known_version [Hplat Hrun]%list_elem_of_filter.
  rewrite Forall_forall in Hgroup. destruct (Hgroup _ Hrun). done.
Qed.

(** X14.  A known version that satisfies the range takes precedence over the
    binaries found on the search path, which are then not looked at.  When
    the known versions decode and the one chosen is listed for other
    platforms only, the rule raises [IndexError] without a request to the
    engine, whatever binaries were found. *)
Theorem known_version_without_platform_entry (E : engine) (nodejs : NodeJS)
    (platform : Platform) (decoded : list ExternalToolVersion)
    (chosen : string) :
  decode_all (known_versions nodejs) = Returned decoded →
  min_satisfying (dict_keys (decoded_per_version platform decoded))
    (version nodejs) = Some chosen →
  chosen ≠ "" →
  (∀ paths_per_version other_paths,
     determine_nodejs_binaries E nodejs platform paths_per_version
     = determine_nodejs_binaries E nodejs platform other_paths)
  ∧ (chosen ∈ tool_version <$> decoded →
     (∀ known_version, known_version ∈ decoded →
        tool_version known_version = chosen →
        NodeJSDistribution.platform known_version ≠ value platform) →
     ∀ paths_per_version,
       determine_nodejs_binaries E nodejs platform paths_per_version
       = ([], Raised (Builtin (IndexError "tuple index out of range")))).
Proof.
  intros Hdecoded Hmin Hchosen.
  assert (truthy (Some chosen) = true) as Htruthy by by destruct chosen.
  split.
  - intros paths_per_version other_paths. unfold determine_nodejs_binaries.
    rewrite Hdecoded, !evaluate_returned. cbv zeta.
    by rewrite Hmin, Htruthy.
  - intros Hlisted Hother paths_per_version.
    unfold determine_nodejs_binaries.
    rewrite Hdecoded, evaluate_returned. cbv zeta.
    rewrite Hmin, Htruthy.
    change (default "" (Some chosen)) with chosen. unfold first_of.
    destruct (dict_of (decoded_per_version platform decoded) !! chosen)
      as [entries|] eqn:Hentries.
    + pose proof (decoded_per_version_entries _ _ _ _ Hentries) as Hall.
      destruct entries as [|known_version entries].
      * apply evaluate_raised.
      * apply Forall_cons in Hall as [(Hv & Hplat & Hin) _].
        by destruct (Hother known_version).
    + apply dict_of_None in Hentries.
      by apply (decoded_per_version_keys platform) in Hlisted.
Qed.

(** X15.  When the known versions decode and the version chosen has an entry for
    the platform, the first such entry is downloaded.  The executable is
    looked up in the default platform mapping of the class, not in the
    configured one: a platform outside it raises [KeyError] before the URL
    is built or anything is asked of the engine.  Otherwise the one request
    is the download of the URL built from the template, with [.gz] on macOS
    and [.xz] elsewhere, and the binary directory is the directory of the
    executable the engine reports, under [{chroot}/__node]. *)
Theorem known_version_is_downloaded (E : engine) (nodejs : NodeJS)
    (platform : Platform) (decoded : list ExternalToolVersion)
    (chosen : string) (known_version : ExternalToolVersion)
    (others : list ExternalToolVersion)
    (paths_per_version : list (string * list BinaryPath)) :
  decode_all (known_versions nodejs) = Returned decoded →
  min_satisfying (dict_keys (decoded_per_version platform decoded))
    (version nodejs) = Some chosen →
  chosen ≠ "" →
  dict_of (decoded_per_version platform decoded) !! chosen
  = Some (known_version :: others) →
  (tool_version known_version = chosen
   ∧ NodeJSDistribution.platform known_version = value platform)
  ∧ (default_url_platform_mapping !! value platform = None →
     determine_nodejs_binaries E nodejs platform paths_per_version
     = ([], Raised (Builtin (KeyError (value platform)))))
  ∧ (∀ plat_str url,
       default_url_platform_mapping !! value platform = Some plat_str →
       format_url (url_template nodejs) chosen
         (default "" (url_platform_mapping nodejs !! value platform))
       = Returned url →
       let tool_request :=
         {| download_file_request :=
              {| url := url ++ "." ++ (if is_macos platform then "gz" else "xz");
                 expected_digest :=
                   {| file_fingerprint := sha256 known_version;
                      file_length := filesize known_version |} |};
            request_exe := "./node-" ++ chosen ++ "-" ++ plat_str ++ "/bin/node" |} in
       determine_nodejs_binaries E nodejs platform paths_per_version
       = ([Get_download_external_tool tool_request],
          match download_external_tool E tool_request with
          | Returned downloaded =>
              Returned
                {| binary_dir :=
                     path_join (path_join "{chroot}" base_bin_dir)
                       (dirname (exe downloaded));
                   digest := Some (downloaded_digest downloaded) |}
          | Raised e => Raised e
          end)).
Proof.
  intros Hdecoded Hmin Hchosen Hentries.
  assert (truthy (Some chosen) = true) as Htruthy by by destruct chosen.
  pose proof (decoded_per_version_entries _ _ _ _ Hentries) as Hall.
  apply Forall_cons in Hall as [(Hv & Hplat & _) _].
  split; [done|].
  assert (determine_nodejs_binaries E nodejs platform paths_per_version
          = download_known_version E nodejs known_version platform
            ≫= λ downloaded,
                 mret {| binary_dir :=
                           path_join (path_join "{chroot}" base_bin_dir)
                             (dirname (exe downloaded));
                         digest := Some (downloaded_digest downloaded) |})
    as ->.
  { unfold determine_nodejs_binaries.
    rewrite Hdecoded, evaluate_returned. cbv zeta.
    rewrite Hmin, Htruthy. change (default "" (Some chosen)) with chosen.
    unfold first_of. rewrite Hentries. by rewrite evaluate_returned. }
  split.
  - intros Hnone.
    unfold download_known_version, generate_exe. rewrite Hnone. reflexivity.
  - intros plat_str url Hsome Hurl tool_request.
    unfold download_known_version, generate_exe, generate_url.
    rewrite Hsome, Hv. cbv zeta. rewrite Hurl.
    unfold evaluate, mbind, rule_mbind, rule_bind, mret, rule_mret,
      rule_return, await. cbn [fst snd app]. fold tool_request.
    by destruct (download_external_tool E tool_request).
Qed.

(** *** Binaries of the search path *)

(** X16.  When the known versions decode and none of them satisfies the range,
    nothing is downloaded.  The rule then raises [BinaryNotFoundError] when
    no version found on the search path satisfies the range either, and
    otherwise returns, without a digest, the directory of the first binary
    found of the version chosen. *)
Theorem search_path_binaries_are_the_fallback (E : engine) (nodejs : NodeJS)
    (platform : Platform) (decoded : list ExternalToolVersion)
    (paths_per_version : list (string * list BinaryPath)) :
  decode_all (known_versions nodejs) = Returned decoded →
  truthy (min_satisfying (dict_keys (decoded_per_version platform decoded))
            (version nodejs)) = false →
  (truthy (min_satisfying (dict_keys paths_per_version) (version nodejs))
   = false →
   ∃ msg, determine_nodejs_binaries E nodejs platform paths_per_version
          = ([], Raised (BinaryNotFoundError msg)))
  ∧ (∀ chosen first others,
       min_satisfying (dict_keys paths_per_version) (version nodejs)
       = Some chosen →
       chosen ≠ "" →
       dict_of paths_per_version !! chosen = Some (first :: others) →
       determine_nodejs_binaries E nodejs platform paths_per_version
       = ([], Returned {| binary_dir := dirname (path first);
                          digest := None |})).
Proof.
  intros Hdecoded Hknown. split.
  - intros Hpaths. unfold determine_nodejs_binaries.
    rewrite Hdecoded, evaluate_returned. cbv zeta.
    rewrite Hknown, Hpaths. cbn [negb]. eexists. reflexivity.
  - intros chosen first others Hmin Hchosen Hfirst.
    unfold determine_nodejs_binaries.
    rewrite Hdecoded, evaluate_returned. cbv zeta.
    rewrite Hknown, Hmin.
    assert (truthy (Some chosen) = true) as -> by by destruct chosen.
    cbn [negb]. change (default "" (Some chosen)) with chosen.
    unfold first_of. rewrite Hfirst.
    by rewrite evaluate_returned.
Qed.

End Rules.

(** *** The theorems at sample options *)

(** Stand-ins: a decoder that knows one line, the first version of the
    sequence for [min_satisfying], and a template filled in by
    concatenation. *)
Definition sample_decode (unparsed : string)
  : outcome nodejs_exn ExternalToolVersion :=
  if bool_decide (unparsed = "v22.14.0|macos_arm64|e940|47035396")
  then Returned {| tool_version := "v22.14.0"; platform := "macos_arm64";
                   sha256 := "e940"; filesize := 47035396 |}
  else Raised (Builtin (ValueError unparsed)).
Definition sample_min_satisfying (versions : list string) (range : string)
  : option string :=
  head versions.
Definition sample_format_url (template version platform : string)
  : outcome nodejs_exn string :=
  Returned (template ++ version ++ platform).
Definition sample_engine : engine :=
  {| download_external_tool r :=
       Returned {| downloaded_digest := EMPTY_DIGEST; exe := request_exe r |} |}.

Definition linux_x86_64 : Platform :=
  {| value := "linux_x86_64"; is_macos := false |}.

Definition nodejs_with (known : list string) : NodeJS :=
  {| version := ">=18";
     known_versions := known;
     url_template := "https://nodejs.org/dist/";
     url_platform_mapping := default_url_platform_mapping;
     package_manager := "npm";
     package_managers := ∅;
     resolves := [] |}.

Definition sample_determine (known : list string)
    (paths_per_version : list (string * list BinaryPath))
  : Rules.rule request nodejs_exn NodeJSBinaries :=
  determine_nodejs_binaries sample_decode sample_min_satisfying
    sample_format_url id sample_engine (nodejs_with known) linux_x86_64
    paths_per_version.

Lemma known_version_for_macos_only_on_linux :
  sample_determine ["v22.14.0|macos_arm64|e940|47035396"]
    [("v22.14.0", [node20])]
  = ([], Raised (Builtin (IndexError "tuple index out of range"))).
Proof.
  destruct (known_version_without_platform_entry sample_decode
              sample_min_satisfying sample_format_url id sample_engine
              (nodejs_with ["v22.14.0|macos_arm64|e940|47035396"]) linux_x86_64
              [ {| tool_version := "v22.14.0"; platform := "macos_arm64";
                   sha256 := "e940"; filesize := 47035396 |} ]
              "v22.14.0" eq_refl eq_refl) as [_ Hindex]; [done|].
  apply Hindex.
  - apply list_elem_of_singleton. reflexivity.
  - intros known_version ->%list_elem_of_singleton _. discriminate.
Defined.

Definition node22_for_linux : ExternalToolVersion :=
  {| tool_version := "v22.14.0"; platform := "linux_x86_64";
     sha256 := "69b0"; filesize := 29893360 |}.

(** A decoder that knows the line of [node22_for_linux] as well. *)
Definition linux_decode (unparsed : string)
  : outcome nodejs_exn ExternalToolVersion :=
  if bool_decide (unparsed = "v22.14.0|linux_x86_64|69b0|29893360")
  then Returned node22_for_linux
  else sample_decode unparsed.

Lemma node22_is_downloaded_on_linux :
  determine_nodejs_binaries linux_decode sample_min_satisfying
    sample_format_url id sample_engine
    (nodejs_with ["v22.14.0|macos_arm64|e940|47035396";
                  "v22.14.0|linux_x86_64|69b0|29893360"])
    linux_x86_64 []
  = ([Get_download_external_tool
        {| download_file_request :=
             {| url := "https://nodejs.org/dist/v22.14.0linux-x64.xz";
                expected_digest := {| file_fingerprint := "69b0";
                                      file_length := 29893360 |} |};
           request_exe := "./node-v22.14.0-linux-x64/bin/node" |}],
     Returned {| binary_dir := "{chroot}/__node/./node-v22.14.0-linux-x64/bin";
                 digest := Some EMPTY_DIGEST |}).
Proof.
  destruct (known_version_is_downloaded linux_decode sample_min_satisfying
              sample_format_url id sample_engine
              (nodejs_with ["v22.14.0|macos_arm64|e940|47035396";
                            "v22.14.0|linux_x86_64|69b0|29893360"])
              linux_x86_64
              [ {| tool_version := "v22.14.0"; platform := "macos_arm64";
                   sha256 := "e940"; filesize := 47035396 |};
                node22_for_linux ]
              "v22.14.0" node22_for_linux [] [] eq_refl eq_refl)
    as (_ & _ & Hdownload); [done|reflexivity|].
  apply (Hdownload "linux-x64" "https://nodejs.org/dist/v22.14.0linux-x64");
    reflexivity.
Defined.

Lemma binary_of_the_search_path_is_used :
  sample_determine [] [("v20.11.0", [node20])]
  = ([], Returned {| binary_dir := "/usr/bin"; digest := None |}).
Proof.
  destruct (search_path_binaries_are_the_fallback sample_decode
              sample_min_satisfying sample_format_url id sample_engine
              (nodejs_with []) linux_x86_64 [] [("v20.11.0", [node20])]
              eq_refl eq_refl) as [_ Hfirst].
  apply (Hfirst "v20.11.0" node20 []); [reflexivity|done|reflexivity].
Defined.

Example dirname_of_node_exe :
  dirname "./node-v22.14.0-linux-x64/bin/node" = "./node-v22.14.0-linux-x64/bin".
Proof. reflexivity. Qed.

Example dirname_of_root_file : dirname "/node" = "/".
Proof. reflexivity. Qed.

End NodeJSDistribution.

(** ** [nodejs.py]: the search path of Node.js binaries *)
Module NodeJSSearchPaths.
Import Py PyStr Engine Rules NodeJS.
#[local] Arguments String.append !_ _ / : simpl nomatch.

(** Engine classes the function builds or reads.  An environment target is
    identified by its name. *)
Definition EnvironmentTarget : Type := string.
Record AsdfToolPathsRequest :=
  { asdf_paths : list string;
    asdf_env_tgt : EnvironmentTarget;
    tool_name : string;
    tool_description : string;
    paths_option_name : string }.
Record AsdfToolPathsResult :=
  { standard_tool_paths : list string; local_tool_paths : list string }.
(** [VersionManagerSearchPathsRequest], with the six arguments the call at
    lines 527-534 passes by position. *)
Record VersionManagerSearchPathsRequest :=
  { env_tgt : EnvironmentTarget;
    root_dir : option string;
    tool_path : string;
    option_origin : string;
    version_files : list string;
    local_token : option string }.

Inductive request :=
| Get_nvm_root (q : NodeJS.request)
| Get_asdf_search_paths (r : AsdfToolPathsRequest)
| Get_version_manager_paths (r : VersionManagerSearchPathsRequest)
| Get_environment_path_variable.

Record engine :=
  { nodejs_engine : NodeJS.engine;
    get_un_cachable_search_paths :
      AsdfToolPathsRequest → outcome exn AsdfToolPathsResult;
    get_un_cachable_version_manager_paths :
      VersionManagerSearchPathsRequest → outcome exn (list string);
    environment_path_variable : outcome exn (list string) }.

Abbreviation rule := (Rules.rule request exn).

(** A call of a function of [NodeJS]: its requests are requests of the
    caller. *)
Definition call {A} (r : NodeJS.rule A) : rule A := (Get_nvm_root <$> r.1, r.2).

(** [await concurrently(gets)]: every request is issued; the results are
    returned in order when all succeed, the first failure is raised. *)
Fixpoint concurrently {A} (gets : list (rule A)) : rule (list A) :=
  match gets with
  | [] => ([], Returned [])
  | g :: rest =>
      ((g.1 ++ (concurrently rest).1)%list,
       match g.2, (concurrently rest).2 with
       | Returned x, Returned xs => Returned (x :: xs)
       | Raised e, _ => Raised e
       | Returned _, Raised e => Raised e
       end)
  end.

(** [FrozenOrderedSet(items)]: the items in the order of their first
    occurrence. *)
Definition FrozenOrderedSet (items : list string) : list string :=
  first_insertions [] items.

Definition is_nvm_string (s : string) : bool :=
  bool_decide (s = "<NVM>") || bool_decide (s = "<NVM_LOCAL>").

Section SearchPaths.
(** [AsdfPathString.STANDARD] and [AsdfPathString.LOCAL], declared
    outside the embedded sources. *)
Variables AsdfPathString_STANDARD AsdfPathString_LOCAL : string.

(** The request built at lines 526-534. *)
Definition nvm_request (env_tgt : EnvironmentTarget) (nvm_dir : option string)
    (s : string) : VersionManagerSearchPathsRequest :=
  {| env_tgt := env_tgt;
     root_dir := nvm_dir;
     tool_path := "versions/node";
     option_origin := "[nodejs].search_path";
     version_files := [".nvmrc"];
     local_token :=
       if bool_decide (s = "<NVM_LOCAL>") then Some s else None |}.

(** The loop at lines 541-549, with what each entry adds to [expanded]. *)
Fixpoint expand (E : engine) (special_strings : gmap string (list string))
    (paths : list string) : rule (list string) :=
  match paths with
  | [] => mret []
  | s :: rest =>
      added ←
        (if bool_decide (s = "<PATH>") then
           await Get_environment_path_variable (environment_path_variable E)
         else match special_strings !! s with
              | Some tool_paths => mret tool_paths
              | None => if is_nvm_string s then mret [] else mret [s]
              end);
      more ← expand E special_strings rest;
      mret (added ++ more)%list
  end.

(** [_nodejs_search_paths] (lines 507-550). *)
Definition _nodejs_search_paths (E : engine) (env_tgt : EnvironmentTarget)
    (paths : list string) : rule (list string) :=
  let asdf_request :=
    {| asdf_paths := paths;
       asdf_env_tgt := env_tgt;
       tool_name := "nodejs";
       tool_description := "Node.js distribution";
       paths_option_name := "[nodejs].search_path" |} in
  asdf_result ← await (Get_asdf_search_paths asdf_request)
                      (get_un_cachable_search_paths E asdf_request);
  let special_strings :=
    dict_of [ (AsdfPathString_STANDARD, standard_tool_paths asdf_result);
              (AsdfPathString_LOCAL, local_tool_paths asdf_result) ] in
  nvm_dir ← call (_get_nvm_root (nodejs_engine E));
  nvm_path_results ←
    concurrently
      ((λ s, await (Get_version_manager_paths (nvm_request env_tgt nvm_dir s))
               (get_un_cachable_version_manager_paths E
                  (nvm_request env_tgt nvm_dir s)))
       <$> filter (λ s, is_nvm_string s = true) paths);
  let expanded := FrozenOrderedSet (mjoin nvm_path_results) in
  others ← expand E special_strings paths;
  mret (expanded ++ others)%list.

(** An entry that stands for itself: none of the special strings. *)
Definition is_plain (s : string) : Prop :=
  s ≠ "<PATH>" ∧ s ≠ AsdfPathString_STANDARD ∧ s ≠ AsdfPathString_LOCAL
  ∧ is_nvm_string s = false.

#[global] Instance is_plain_dec s : Decision (is_plain s).
Proof. unfold is_plain. apply _. Defined.

(** *** What becomes of the entries *)

Lemma bind_returned {A B} (m : rule A) (f : A → rule B) issued b :
  m ≫= f = (issued, Returned b) →
  ∃ a before after,
    m = (before, Returned a) ∧ f a = (after, Returned b)
    ∧ issued = (before ++ after)%list.
Proof.
  unfold mbind, rule_mbind, rule_bind. destruct m as [before [a|e]]; simpl.
  - destruct (f a) as [after o] eqn:Hf. simpl. intros [= <- ->]. eauto 6.
  - intros [=].
Qed.

Lemma special_strings_plain (standard local : list string) s :
  is_plain s →
  dict_of [ (AsdfPathString_STANDARD, standard); (AsdfPathString_LOCAL, local) ]
    !! s = None.
Proof.
  intros (_ & Hs & Hl & _). apply dict_of_None. simpl.
  rewrite !not_elem_of_cons. repeat split; [done..|]. apply not_elem_of_nil.
Qed.

Lemma expand_plain (E : engine) special_strings paths issued others :
  (∀ s, is_plain s → special_strings !! s = None) →
  expand E special_strings paths = (issued, Returned others) →
  filter is_plain paths `sublist_of` others
  ∧ (Forall is_plain paths → others = paths ∧ issued = []).
Proof.
  intros Hspecial. revert issued others.
  induction paths as [|s rest IH]; intros issued others.
  - intros [= <- <-]. split; [done|]. done.
  - cbn [expand].
    intros (added & before & after & Hadded
            & (more & before' & after' & Hmore & Hret & ->)%bind_returned
            & ->)%bind_returned.
    injection Hret as <- <-.
    destruct (IH _ _ Hmore) as [Hsub Hall].
    destruct (decide (is_plain s)) as [Hplain|Hplain].
    + assert (added = [s] ∧ before = []) as [-> ->].
      { destruct Hplain as (Hpath & Hs & Hl & Hnvm).
        rewrite bool_decide_eq_false_2 in Hadded by done.
        rewrite Hspecial, Hnvm in Hadded by done. by injection Hadded. }
      split.
      * rewrite filter_cons_True by done. by apply sublist_skip.
      * intros [_ Hrest]%Forall_cons. destruct (Hall Hrest) as [-> ->].
        done.
    + split.
      * rewrite filter_cons_False by done. by apply sublist_inserts_l.
      * by intros [? _]%Forall_cons.
Qed.

Lemma get_nvm_root_requests (E : NodeJS.engine) :
  (_get_nvm_root E).1 = [Get_environment_vars_subset nvm_variables].
Proof.
  unfold _get_nvm_root. fold nvm_variables. cbv zeta.
  unfold mbind, rule_mbind, rule_bind, await. cbn [fst snd].
  destruct (environment_vars_subset E nvm_variables) as [vars|e]; [|done].
  by repeat case_match.
Qed.

Lemma first_insertions_spec (seen items : list string) :
  NoDup (first_insertions seen items)
  ∧ ∀ x, x ∈ first_insertions seen items ↔ x ∈ items ∧ x ∉ seen.
Proof.
  revert seen. induction items as [|k rest IH]; intros seen; simpl.
  - split; [constructor|]. intros x. rewrite elem_of_nil. tauto.
  - case_bool_decide as Hseen.
    + destruct (IH seen) as [Hnodup Hin]. split; [done|].
      intros x. rewrite Hin, elem_of_cons. split; [tauto|].
      intros [[->|?] ?]; done.
    + destruct (IH (k :: seen)) as [Hnodup Hin]. split.
      * constructor; [|done]. rewrite Hin, elem_of_cons. tauto.
      * intros x. rewrite elem_of_cons, Hin, !elem_of_cons.
        destruct (decide (x = k)) as [->|Hne]; [tauto|]. tauto.
Qed.

Lemma concurrently_returned {A} (E : engine) (query : string → request)
    (answer : string → outcome exn A) (entries : list string) issued results :
  concurrently ((λ s, await (query s) (answer s)) <$> entries)
  = (issued, Returned results) →
  Forall2 (λ s r, answer s = Returned r) entries results.
Proof.
  revert issued results. induction entries as [|s rest IH]; simpl.
  - intros issued results [= _ <-]. constructor.
  - intros issued results.
    destruct (answer s) as [r|e] eqn:Hs; [|intros [=]].
    destruct (concurrently _) as [issued' [rs|e]] eqn:Hrest; [|intros [=]].
    intros [= _ <-]. constructor; [done|]. by eapply IH.
Qed.

(** X17.  The paths [_nodejs_search_paths] returns start with the paths the
    engine found for the entries [<NVM>] and [<NVM_LOCAL>], each once,
    wherever these entries stand in the search path.  After them, the
    entries that are no special string are kept, in their order.  A search
    path without a special string is returned as it is, after the two
    requests the function always makes: for the asdf paths and for the
    variables of the nvm root. *)
Theorem search_paths_begin_with_nvm_and_keep_plain_entries (E : engine)
    (target : EnvironmentTarget) (paths expanded : list string)
    (issued : list request) :
  _nodejs_search_paths E target paths = (issued, Returned expanded) →
  (∃ nvm_dir nvm_paths others,
     expanded = (nvm_paths ++ others)%list
     ∧ NoDup nvm_paths
     ∧ (∀ p, p ∈ nvm_paths
           ↔ ∃ s found,
               s ∈ paths ∧ is_nvm_string s = true
               ∧ get_un_cachable_version_manager_paths E
                   (nvm_request target nvm_dir s) = Returned found
               ∧ p ∈ found)
     ∧ filter is_plain paths `sublist_of` others)
  ∧ (Forall is_plain paths →
     expanded = paths
     ∧ ∃ asdf_request,
         issued = [ Get_asdf_search_paths asdf_request;
                    Get_nvm_root (Get_environment_vars_subset nvm_variables) ]).
Proof.
  unfold _nodejs_search_paths. cbv zeta.
  intros (asdf_result & before1 & after1 & Hasdf & Hrest & ->)%bind_returned.
  apply bind_returned in Hrest
    as (nvm_dir & before2 & after2 & Hnvm & Hrest & ->).
  apply bind_returned in Hrest
    as (nvm_path_results & before3 & after3 & Hresults & Hrest & ->).
  apply bind_returned in Hrest
    as (others & before4 & after4 & Hothers & Hret & ->).
  injection Hret as <- <-.
  destruct (expand_plain _ _ _ _ _
              (special_strings_plain _ _) Hothers) as [Hsub Hall].
  split.
  - exists nvm_dir, (FrozenOrderedSet (mjoin nvm_path_results)), others.
    destruct (first_insertions_spec [] (mjoin nvm_path_results))
      as [Hnodup Hin].
    split; [done|]. split; [done|]. split; [|done].
    intros p. unfold FrozenOrderedSet. rewrite Hin.
    apply (concurrently_returned E
             (λ s, Get_version_manager_paths (nvm_request target nvm_dir s))
             (λ s, get_un_cachable_version_manager_paths E
                     (nvm_request target nvm_dir s))) in Hresults.
    rewrite list_elem_of_join. split.
    + intros [(found & Hp & Hfound) _].
      apply list_elem_of_lookup in Hfound as [i Hi].
      destruct (Forall2_lookup_r _ _ _ _ _ Hresults Hi) as (s & Hs & Hanswer).
      apply list_elem_of_lookup_2, list_elem_of_filter in Hs as [Hnvm' Hs].
      eauto 8.
    + intros (s & found & Hs & Hnvm' & Hanswer & Hp).
      split; [|apply not_elem_of_nil].
      assert (s ∈ filter (λ s, is_nvm_string s = true) paths) as Hs'
        by by apply list_elem_of_filter.
      apply list_elem_of_lookup in Hs' as [i Hi].
      destruct (Forall2_lookup_l _ _ _ _ _ Hresults Hi) as (r & Hr & Hanswer').
      rewrite Hanswer in Hanswer'. injection Hanswer' as <-.
      exists found. split; [done|]. by eapply list_elem_of_lookup_2.
  - intros Hplain. destruct (Hall Hplain) as [-> ->].
    assert (filter (λ s, is_nvm_string s = true) paths = []) as Hnone.
    { clear -Hplain.
      induction Hplain as [|s rest (_ & _ & _ & Hs) _ IH]; [done|].
      rewrite filter_cons_False; [done|]. by rewrite Hs. }
    rewrite Hnone in Hresults. injection Hresults as <- <-.
    injection Hasdf as <- _.
    unfold call in Hnvm. rewrite get_nvm_root_requests in Hnvm.
    injection Hnvm as <- _.
    split; [done|]. eexists. reflexivity.
Qed.

End SearchPaths.

(** *** The theorem at a search path with [<NVM>] in the middle *)

(** An engine without asdf paths that finds two Node.js versions under the
    nvm root. *)
Definition sample_engine : engine :=
  {| nodejs_engine := NodeJS.sample_engine {[ "NVM_DIR" := "/home/dev/.nvm" ]} [];
     get_un_cachable_search_paths _ :=
       Returned {| standard_tool_paths := []; local_tool_paths := [] |};
     get_un_cachable_version_manager_paths _ :=
       Returned [ "/home/dev/.nvm/versions/node/v18.20.4/bin";
                  "/home/dev/.nvm/versions/node/v20.11.0/bin" ];
     environment_path_variable := Returned ["/usr/bin"; "/bin"] |}.

Example search_paths_with_NVM_in_the_middle :
  (_nodejs_search_paths "<ASDF>" "<ASDF_LOCAL>" sample_engine "local"
     ["/opt/node/bin"; "<NVM>"; "<PATH>"; "<NVM_LOCAL>"; "/usr/local/bin"]).2
  = Returned [ "/home/dev/.nvm/versions/node/v18.20.4/bin";
               "/home/dev/.nvm/versions/node/v20.11.0/bin";
               "/opt/node/bin"; "/usr/bin"; "/bin"; "/usr/local/bin" ].
Proof. reflexivity. Qed.

Lemma plain_entries_follow_the_nvm_paths :
  ∃ nvm_dir nvm_paths others,
    [ "/home/dev/.nvm/versions/node/v18.20.4/bin";
      "/home/dev/.nvm/versions/node/v20.11.0/bin";
      "/opt/node/bin"; "/usr/local/bin" ] = (nvm_paths ++ others)%list
    ∧ NoDup nvm_paths
    ∧ (∀ p, p ∈ nvm_paths
          ↔ ∃ s found,
              s ∈ ["/opt/node/bin"; "<NVM>"; "/usr/local/bin"]
              ∧ is_nvm_string s = true
              ∧ get_un_cachable_version_manager_paths sample_engine
                  (nvm_request "local" nvm_dir s) = Returned found
              ∧ p ∈ found)
    ∧ filter (is_plain "<ASDF>" "<ASDF_LOCAL>")
        ["/opt/node/bin"; "<NVM>"; "/usr/local/bin"] `sublist_of` others.
Proof.
  eapply proj1.
  eapply (search_paths_begin_with_nvm_and_keep_plain_entries "<ASDF>"
            "<ASDF_LOCAL>" sample_engine "local"
            ["/opt/node/bin"; "<NVM>"; "/usr/local/bin"]).
  reflexivity.
Defined.

End NodeJSSearchPaths.

(** ** [pants/option/scope.py] *)
Module OptionScope.
Import Py PyStr.
#[local] Arguments String.append !_ _ / : simpl nomatch.

(** [normalize_scope] (lines 12-13). *)
Definition normalize_scope (scope : string) : string :=
  replace "-" "_" (lower scope).

(** An upper-case ASCII letter. *)
Definition isupper_char (c : ascii) : Prop :=
  (65 ≤ nat_of_ascii c ≤ 90)%nat.

Lemma replace_hyphen_cons c rest :
  replace "-" "_" (String c rest)
  = String (if Ascii.eqb c "-" then "_"%char else c) (replace "-" "_" rest).
Proof.
  unfold replace. cbn [replace_from String.prefix String.length Nat.sub].
  destruct (ascii_dec "-" c) as [<-|Hne].
  - by destruct rest.
  - destruct (Ascii.eqb_spec c "-") as [->|_]; done.
Qed.

Lemma lower_char_not_upper c : ¬ isupper_char (lower_char c).
Proof.
  unfold isupper_char, lower_char. case_bool_decide as Hup; [|done].
  rewrite nat_ascii_embedding by lia. lia.
Qed.

Lemma lower_char_fixed c : ¬ isupper_char c → lower_char c = c.
Proof. unfold isupper_char, lower_char. intros. by rewrite bool_decide_eq_false_2. Qed.

Lemma normalize_scope_cons c rest :
  normalize_scope (String c rest)
  = String (if Ascii.eqb (lower_char c) "-" then "_"%char else lower_char c)
      (normalize_scope rest).
Proof. unfold normalize_scope. simpl. by rewrite replace_hyphen_cons. Qed.

(** X18.  A normalised scope keeps the length of the scope, holds no hyphen and
    no upper-case letter, and is left as it is by a second normalisation. *)
Theorem normalize_scope_is_a_normal_form (scope : string) :
  isascii scope →
  String.length (normalize_scope scope) = String.length scope
  ∧ ("-"%char ∉ chars (normalize_scope scope))
  ∧ Forall (λ c, ¬ isupper_char c) (chars (normalize_scope scope))
  ∧ normalize_scope (normalize_scope scope) = normalize_scope scope.
Proof.
  intros _. induction scope as [|c rest (Hlen & Hhyphen & Hupper & Hidem)].
  - repeat split; [apply not_elem_of_nil|constructor].
  - rewrite !normalize_scope_cons. simpl.
    set (c' := if Ascii.eqb (lower_char c) "-" then "_"%char else lower_char c).
    assert (c' ≠ "-"%char) as Hc'.
    { unfold c'. by destruct (Ascii.eqb_spec (lower_char c) "-"). }
    assert (¬ isupper_char c') as Hup.
    { unfold c'. destruct (Ascii.eqb (lower_char c) "-").
      - unfold isupper_char. change (nat_of_ascii "_") with 95%nat. lia.
      - apply lower_char_not_upper. }
    repeat split.
    + by rewrite Hlen.
    + rewrite not_elem_of_cons. auto.
    + by constructor.
    + rewrite Hidem, (lower_char_fixed c') by done.
      by destruct (Ascii.eqb_spec c' "-").
Qed.

Example normalize_scope_python_infer :
  normalize_scope "Python-Infer" = "python_infer".
Proof. reflexivity. Qed.

Lemma normalize_scope_twice_python_infer :
  String.length (normalize_scope "Python-Infer") = 12%nat
  ∧ ("-"%char ∉ chars (normalize_scope "Python-Infer"))
  ∧ Forall (λ c, ¬ isupper_char c) (chars (normalize_scope "Python-Infer"))
  ∧ normalize_scope (normalize_scope "Python-Infer")
    = normalize_scope "Python-Infer".
Proof.
  apply (normalize_scope_is_a_normal_form "Python-Infer").
  unfold isascii. simpl. repeat constructor.
Defined.

End OptionScope.

(** ** [pants/backend/python/util_rules/faas.py]: resolving the handler *)
Module FaasRules.
Import Py PyStr Rules.
#[local] Arguments String.append !_ _ / : simpl nomatch.

(** Engine classes the rule builds or reads. *)
Inductive GlobMatchErrorBehavior := ignore | warn | error.
Record PathGlobs :=
  { globs : list string;
    glob_match_error_behavior : GlobMatchErrorBehavior;
    description_of_origin : string }.
Record Paths := { files : list string; dirs : list string }.
Record SourceRoot := { source_root_path : string }.

(** [ResolvedPythonFaaSHandler] (lines 147-151). *)
Record ResolvedPythonFaaSHandler :=
  { module : string; func : string; file_name_used : bool }.

(** [os.path.sep] and [os.path.join] of posixpath. *)
Definition sep : string := "/".
Definition path_join : string → string → string := KotlinParser.path_join.

Section Rules.
(** [Address], with [str(address)] and [address.spec_path], is declared by
    the engine; [os.path.relpath], [os.path.splitext] and [repr] are those
    of Python. *)
Variable Address : Type.
Variable address_str : Address → string.
Variable spec_path : Address → string.
Variable relpath : string → string → string.
Variable splitext : string → string * string.
Variable repr : string → string.
Variable repr_list : list string → string.

(** A [PythonFaaSHandlerField] (lines 124-144) of a target. *)
Record PythonFaaSHandlerField := { value : string; address : Address }.

(** [ResolvePythonFaaSHandlerRequest] (lines 154-156). *)
Record ResolvePythonFaaSHandlerRequest := { field : PythonFaaSHandlerField }.

Inductive request :=
| Get_path_globs_to_paths (path_globs : PathGlobs)
| Get_get_source_root_for_file (file : string).

Record engine :=
  { path_globs_to_paths : PathGlobs → outcome exn Paths;
    get_source_root_for_file : string → outcome exn SourceRoot }.

#[local] Abbreviation rule := (Rules.rule request exn).

(** The [PathGlobs] built at lines 174-181. *)
Definition handler_globs (address : Address) (path : string) : PathGlobs :=
  let full_glob := path_join (spec_path address) path in
  {| globs := [full_glob];
     glob_match_error_behavior := error;
     description_of_origin :=
       address_str address ++ "'s `" ++ Faas.alias ++ "` field" |}.

(** [resolve_python_faas_handler] (lines 159-196). *)
Definition resolve_python_faas_handler (E : engine)
    (request : ResolvePythonFaaSHandlerRequest)
  : rule ResolvedPythonFaaSHandler :=
  let handler_val := value (field request) in
  let field_alias := Faas.alias in
  let address := address (field request) in
  let '(path, _, func) := partition ":" handler_val in
  if negb (endswith path ".py") then
    mret {| module := path; func := func; file_name_used := false |}
  else
    handler_paths ← await (Get_path_globs_to_paths (handler_globs address path))
                          (path_globs_to_paths E (handler_globs address path));
    if bool_decide (length (files handler_paths) ≠ 1) then
      raise (InvalidFieldException
        ("Multiple files matched for the `" ++ field_alias ++ "` "
         ++ repr handler_val ++ " for the target " ++ address_str address
         ++ ", but only one file expected. Are you using a glob, rather than a file name?"
         ++ String "010" (String "010" "All matching files: ")
         ++ repr_list (files handler_paths) ++ "."))
    else
      match files handler_paths with
      | [] => raise (IndexError "tuple index out of range")
      | handler_path :: _ =>
          source_root ← await (Get_get_source_root_for_file handler_path)
                              (get_source_root_for_file E handler_path);
          let stripped_source_path :=
            relpath handler_path (source_root_path source_root) in
          let '(module_base, _) := splitext stripped_source_path in
          let normalized_path := replace sep "." module_base in
          mret {| module := normalized_path; func := func;
                  file_name_used := true |}
      end.

(** *** Handlers given as a module *)

(** X19.  A handler value that [PythonFaaSHandlerField.compute_value] has let
    through and whose part before the first colon does not end in [.py]
    is resolved without a request to the engine: the module is the part
    before the first colon, which holds no colon, the function the part
    after it, and the two joined by a colon are the handler value. *)
Theorem module_handler_is_split_at_the_first_colon (E : engine)
    (StringField_compute_value : option string → Address → result string)
    (raw_value : option string) (target : Address) (handler : string) :
  Faas.compute_value Address address_str StringField_compute_value
    raw_value target = Return handler →
  endswith (partition ":" handler).1.1 ".py" = false →
  ∃ resolved,
    resolve_python_faas_handler E
      {| field := {| value := handler; address := target |} |}
    = ([], Returned resolved)
    ∧ file_name_used resolved = false
    ∧ module resolved ++ ":" ++ func resolved = handler
    ∧ ":"%char ∉ chars (module resolved).
Proof.
  intros [_ Hcolon]%Faas.compute_value_returned Hmodule.
  unfold resolve_python_faas_handler. cbn [value field address].
  pose proof (partition_app ":" handler) as Happ.
  destruct (partition_found _ _ Hcolon) as [Hfound Hbefore].
  destruct (partition ":" handler) as [[path colon] func'] eqn:Hpart.
  cbn [fst snd] in *. subst colon. rewrite Hmodule. cbn [negb].
  eexists. split; [reflexivity|]. cbn [module func file_name_used].
  done.
Qed.

(** *** Handlers given as a file *)

Lemma replace_sep_no_slash (s : string) : "/"%char ∉ chars (replace sep "." s).
Proof.
  unfold replace, sep. induction s as [|c rest IH].
  - apply not_elem_of_nil.
  - cbn [replace_from String.prefix String.length Nat.sub].
    destruct (ascii_dec "/" c) as [<-|Hne].
    + assert (String.prefix "" rest = true) as -> by by destruct rest.
      simpl. rewrite not_elem_of_cons. split; [done|apply IH].
    + simpl. rewrite not_elem_of_cons. split; [congruence|apply IH].
Qed.

(** X20.  A handler whose part before the first colon ends in [.py] names a
    file.  When the glob built from it matches no file or more than one,
    the rule raises [InvalidFieldException] after this one request, without
    asking for a source root.  Whenever the rule returns for such a handler
    it has asked for the files of the glob and for the source root of the
    single file matched, the function is the part of the handler after its
    first colon, and the module holds no slash. *)
Theorem file_handler_needs_one_file (E : engine) (target : Address)
    (handler : string) (matched : Paths) :
  let path := (partition ":" handler).1.1 in
  let resolve :=
    resolve_python_faas_handler E
      {| field := {| value := handler; address := target |} |} in
  endswith path ".py" = true →
  path_globs_to_paths E (handler_globs target path) = Returned matched →
  (length (files matched) ≠ 1 →
     ∃ msg, resolve
            = ([Get_path_globs_to_paths (handler_globs target path)],
               Raised (InvalidFieldException msg)))
  ∧ (∀ issued resolved, resolve = (issued, Returned resolved) →
       ∃ file,
         files matched = [file]
         ∧ issued = [ Get_path_globs_to_paths (handler_globs target path);
                      Get_get_source_root_for_file file ]
         ∧ file_name_used resolved = true
         ∧ func resolved = (partition ":" handler).2
         ∧ "/"%char ∉ chars (module resolved)).
Proof.
  intros path resolve Hfile Hmatched. unfold resolve, path in *.
  unfold resolve_python_faas_handler. cbn [value field address].
  destruct (partition ":" handler) as [[path' colon] func'].
  cbn [fst snd] in *. rewrite Hfile. cbn [negb].
  unfold mbind, rule_mbind, rule_bind, await, raise, mret, rule_mret,
    rule_return. cbn [fst snd]. rewrite Hmatched. cbn [fst snd].
  case_bool_decide as Hlen.
  - split; [intros _; by eexists|]. cbn [fst snd]. intros ?? [=].
  - split; [done|]. intros issued resolved.
    destruct (files matched) as [|file [|??]] eqn:Hfiles; simpl in Hlen;
      [lia| |lia].
    cbn [fst snd].
    destruct (get_source_root_for_file E file) as [root|e]; cbn [fst snd];
      [|intros [=]].
    destruct (splitext _) as [module_base ext]. cbn [fst snd].
    intros [= <- <-]. exists file. cbn [module func file_name_used].
    repeat split. apply replace_sep_no_slash.
Qed.

End Rules.

(** *** The theorems at two handlers *)

Definition sample_engine (matched : list string) : engine :=
  {| path_globs_to_paths _ := Returned {| files := matched; dirs := [] |};
     get_source_root_for_file _ := Returned {| source_root_path := "src/py" |} |}.

(** A stand-in for [os.path.relpath] that cuts the root off the front of
    the path, and one for [os.path.splitext] that cuts at the last dot. *)
Definition sample_relpath (path root : string) : string :=
  String.substring (S (String.length root))
    (String.length path - S (String.length root)) path.
Definition sample_splitext (path : string) : string * string :=
  ((rpartition "." path).1.1, "." ++ (rpartition "." path).2).

Definition sample_resolve (matched : list string) (handler : string)
  : Rules.rule request exn ResolvedPythonFaaSHandler :=
  resolve_python_faas_handler string id id sample_relpath sample_splitext id
    (join ", ") (sample_engine matched)
    {| field := {| value := handler; address := "src/py/project" |} |}.

Example resolve_file_handler :
  sample_resolve ["src/py/project/lambda/app.py"] "lambda/app.py:run"
  = ([ Get_path_globs_to_paths
         (handler_globs string id id "src/py/project" "lambda/app.py");
       Get_get_source_root_for_file "src/py/project/lambda/app.py" ],
     Returned {| module := "project.lambda.app"; func := "run";
                 file_name_used := true |}).
Proof. reflexivity. Qed.

Lemma module_handler_with_two_colons :
  ∃ resolved,
    sample_resolve [] "project.app:Handlers:run" = ([], Returned resolved)
    ∧ file_name_used resolved = false
    ∧ module resolved ++ ":" ++ func resolved = "project.app:Handlers:run"
    ∧ ":"%char ∉ chars (module resolved).
Proof.
  apply (module_handler_is_split_at_the_first_colon string id id sample_relpath
           sample_splitext id (join ", ") (sample_engine [])
           Faas.required_string_field (Some "project.app:Handlers:run")
           "src/py/project" "project.app:Handlers:run");
    reflexivity.
Defined.

Lemma file_handler_glob_matching_two_files :
  ∃ msg,
    sample_resolve ["src/py/project/a.py"; "src/py/project/b.py"] "*.py:run"
    = ([Get_path_globs_to_paths
          (handler_globs string id id "src/py/project" "*.py")],
       Raised (InvalidFieldException msg)).
Proof.
  destruct (file_handler_needs_one_file string id id sample_relpath
              sample_splitext id (join ", ")
              (sample_engine ["src/py/project/a.py"; "src/py/project/b.py"])
              "src/py/project" "*.py:run"
              {| files := ["src/py/project/a.py"; "src/py/project/b.py"];
                 dirs := [] |} eq_refl eq_refl) as [Hmany _].
  apply Hmany. simpl. lia.
Defined.

End FaasRules.

(** ** [pants/backend/python/util_rules/faas.py]: the platforms of a runtime *)
Module FaasRuntime.
Import Py PyStr Rules.
#[local] Arguments String.append !_ _ / : simpl nomatch.

(** The exceptions the rules of this part end with: those of [Py.exn], and
    [InvalidTargetException] with its message and its origin. *)
Inductive faas_exn :=
| Builtin (e : exn)
| InvalidTargetException (msg : string) (description_of_origin : option string).

(** [FaaSArchitecture] (lines 289-291). *)
Inductive FaaSArchitecture := X86_64 | ARM64.
#[global] Instance FaaSArchitecture_eq_dec : EqDecision FaaSArchitecture.
Proof. solve_decision. Defined.
Definition architecture_value (a : FaaSArchitecture) : string :=
  match a with X86_64 => "x86_64" | ARM64 => "arm64" end.

(** [PythonFaaSKnownRuntime] (lines 294-304). *)
Record PythonFaaSKnownRuntime :=
  { name : string;
    major : Z;
    minor : Z;
    docker_repo : string;
    tag : string;
    architecture : FaaSArchitecture }.

(** [PythonFaaSKnownRuntime.file_name] (lines 303-304). *)
Definition file_name (self : PythonFaaSKnownRuntime) : string :=
  "complete_platform_" ++ tag self ++ ".json".

(** A [PythonFaaSRuntimeField] (lines 307-336): the class is abstract; a
    field of a subclass comes with the known runtimes of the subclass, the
    module the subclass is declared in and its [to_interpreter_version()]. *)
Record PythonFaaSRuntimeField :=
  { known_runtimes : list PythonFaaSKnownRuntime;
    cls_module : string;
    to_interpreter_version : option (Z * Z) }.

Definition runtime_alias : string := "runtime".

(** [known_runtimes_complete_platforms_module] (lines 313-317):
    [cls.__module__.rsplit(".", 1)[0]]. *)
Definition known_runtimes_complete_platforms_module
    (self : PythonFaaSRuntimeField) : string :=
  let '(before, found, _) := rpartition "." (cls_module self) in
  if bool_decide (found = "") then cls_module self else before.

(** [FrozenOrderedSet(items)]: the items in the order of their first
    occurrence. *)
Fixpoint first_occurrences (seen items : list string) : list string :=
  match items with
  | [] => []
  | x :: rest =>
      if bool_decide (x ∈ seen) then first_occurrences seen rest
      else x :: first_occurrences (x :: seen) rest
  end.
Definition FrozenOrderedSet (items : list string) : list string :=
  first_occurrences [] items.

(** [FileContent] of the engine. *)
Record FileContent := { path : string; content : string }.

Section Rules.
(** Types and functions that are declared outside the embedded sources:
    the engine's [Address], [CompletePlatforms], [UnparsedAddressInputs],
    [InterpreterConstraints] and [Snapshot] with the methods the rules call,
    the resource reader of [importlib.resources], and the helpers the
    messages are built with. *)
Variables Address CompletePlatforms UnparsedAddressInputs : Type.
Variables InterpreterConstraints Snapshot : Type.
Variable address_str : Address → string.
Variable ics_str : InterpreterConstraints → string.
Variable major_minor_version_when_single_and_entire :
  InterpreterConstraints → option (Z * Z).
Variable from_snapshot : Snapshot → CompletePlatforms.
Variable read_bytes : string → string → outcome faas_exn string.
Variable softwrap : string → string.
Variable doc_url : string → string.
Variable repr : string → string.
Variable complete_platforms_alias : string.

(** [PythonFaaSCompletePlatforms] (lines 277-286): the value of the field
    and the address of its target. *)
Record PythonFaaSCompletePlatforms :=
  { value : option (list string); field_address : Address }.
Variable to_unparsed_address_inputs :
  PythonFaaSCompletePlatforms → UnparsedAddressInputs.

(** [RuntimePlatformsRequest] (lines 354-361). *)
Record RuntimePlatformsRequest :=
  { address : Address;
    target_name : string;
    runtime : PythonFaaSRuntimeField;
    complete_platforms : PythonFaaSCompletePlatforms;
    request_architecture : FaaSArchitecture }.

(** [RuntimePlatforms] (lines 364-367). *)
Record RuntimePlatforms :=
  { interpreter_version : option (Z * Z);
    platforms : CompletePlatforms }.

Inductive request :=
| Get_digest_complete_platform_addresses (inputs : UnparsedAddressInputs)
| Get_interpreter_constraints_for_targets (addresses : list Address)
| Get_digest_to_snapshot (create_digest : list FileContent).

Record engine :=
  { digest_complete_platform_addresses :
      UnparsedAddressInputs → outcome faas_exn CompletePlatforms;
    interpreter_constraints_for_targets :
      list Address → outcome faas_exn InterpreterConstraints;
    digest_to_snapshot : list FileContent → outcome faas_exn Snapshot }.

#[local] Abbreviation rule := (Rules.rule request faas_exn).

(** [str((major, minor))] *)
Definition version_str (version : Z * Z) : string :=
  "(" ++ pretty version.1 ++ ", " ++ pretty version.2 ++ ")".

(** [digest_complete_platforms] (lines 347-351). *)
Definition digest_complete_platforms (E : engine)
    (complete_platforms : PythonFaaSCompletePlatforms) : rule CompletePlatforms :=
  await (Get_digest_complete_platform_addresses
           (to_unparsed_address_inputs complete_platforms))
        (digest_complete_platform_addresses E
           (to_unparsed_address_inputs complete_platforms)).

(** [_infer_from_ics] (lines 370-410). *)
Definition _infer_from_ics (E : engine) (request : RuntimePlatformsRequest)
  : rule (Z * Z) :=
  ics ← await (Get_interpreter_constraints_for_targets [address request])
              (interpreter_constraints_for_targets E [address request]);
  let major_minor := major_minor_version_when_single_and_entire ics in
  match major_minor with
  | Some version => mret version
  | None =>
      raise (InvalidTargetException
        (softwrap
           ("
            The " ++ repr (target_name request) ++ " target "
            ++ address_str (address request)
            ++ " cannot have its runtime platform
            inferred, because inference requires simple interpreter constraints covering exactly one
            minor release of Python, and all its patch version. The constraints for this target
            (" ++ ics_str ics ++ ") aren't understood.

            To fix, provide one of the following:

            - a value for the `" ++ runtime_alias ++ "` field, or

            - a value for the `" ++ complete_platforms_alias ++ "` field, or

            - simple and narrow interpreter constraints (for example, `==3.10.*` or `>=3.10,<3.11` are simple enough to imply Python 3.10)
            "))
        None)
  end.

(** Whether a known runtime is for the version and the architecture
    (line 434). *)
Definition runtime_matches (version : Z * Z) (arch : FaaSArchitecture)
    (rt : PythonFaaSKnownRuntime) : Prop :=
  version = (major rt, minor rt) ∧ arch = architecture rt.

#[global] Instance runtime_matches_dec version arch rt :
  Decision (runtime_matches version arch rt).
Proof. unfold runtime_matches. apply _. Defined.

(** [infer_runtime_platforms] (lines 413-472). *)
Definition infer_runtime_platforms (E : engine)
    (request : RuntimePlatformsRequest) : rule RuntimePlatforms :=
  if bool_decide (value (complete_platforms request) ≠ None) then
    complete_platforms ← digest_complete_platforms E (complete_platforms request);
    mret {| interpreter_version := None; platforms := complete_platforms |}
  else
    found ← match to_interpreter_version (runtime request) with
            | Some version => mret (version, false)
            | None =>
                version ← _infer_from_ics E request;
                mret (version, true)
            end;
    let version : Z * Z := found.1 in
    let inferred_from_ics : bool := found.2 in
    match list_find (runtime_matches version (request_architecture request))
            (known_runtimes (runtime request)) with
    | None =>
        let version_modifier :=
          if inferred_from_ics then "[inferred from interpreter constraints]"
          else "" in
        let version_adjective :=
          if inferred_from_ics then "inferred" else "specified" in
        let known_runtimes_str :=
          join ", " (FrozenOrderedSet (name <$> known_runtimes (runtime request))) in
        raise (InvalidTargetException
          (softwrap
             ("
                Could not find a known runtime for the " ++ version_adjective
              ++ " Python version and machine architecture!

                * Python version: " ++ version_str version ++ " "
              ++ version_modifier ++ "
                * Machine architecture: "
              ++ architecture_value (request_architecture request) ++ "
                * Known runtime values: " ++ known_runtimes_str ++ "

                To fix, please generate a `complete_platforms` file for the given Python version and
                machine architecture, or specify a runtime that is known to Pants.

                You can follow the instructions at "
              ++ doc_url "docs/python/overview/pex#generating-the-complete_platforms-file"
              ++ "
                to generate a `complete_platforms` file for your Python version and machine
                architecture.
                "))
          (Some ("In the " ++ repr (target_name request) ++ " target")))
    | Some (_, rt) =>
        let file_name := file_name rt in
        let module := known_runtimes_complete_platforms_module (runtime request) in
        match read_bytes module file_name with
        | Raised e => raise e
        | Returned content =>
            let files := [ {| path := file_name; content := content |} ] in
            snapshot ← await (Get_digest_to_snapshot files)
                             (digest_to_snapshot E files);
            mret {| interpreter_version := Some version;
                    platforms := from_snapshot snapshot |}
        end
    end.

(** *** Which platforms are used *)

(** X21.  When the [complete_platforms] field has a value, the platforms are the
    ones the engine digests for this field and no interpreter version is
    reported; the rule asks for nothing else, and the runtime, the
    architecture, the name and the address of the request are not looked
    at. *)
Theorem explicit_complete_platforms_win (E : engine)
    (request : RuntimePlatformsRequest) :
  value (complete_platforms request) ≠ None →
  infer_runtime_platforms E request
  = ([Get_digest_complete_platform_addresses
        (to_unparsed_address_inputs (complete_platforms request))],
     match digest_complete_platform_addresses E
             (to_unparsed_address_inputs (complete_platforms request)) with
     | Returned digested =>
         Returned {| interpreter_version := None; platforms := digested |}
     | Raised e => Raised e
     end)
  ∧ ∀ other, complete_platforms other = complete_platforms request →
      infer_runtime_platforms E other = infer_runtime_platforms E request.
Proof.
  intros Hvalue.
  assert (∀ r, complete_platforms r = complete_platforms request →
            infer_runtime_platforms E r
            = ([Get_digest_complete_platform_addresses
                  (to_unparsed_address_inputs (complete_platforms request))],
               match digest_complete_platform_addresses E
                       (to_unparsed_address_inputs (complete_platforms request)) with
               | Returned digested =>
                   Returned {| interpreter_version := None; platforms := digested |}
               | Raised e => Raised e
               end)) as Hrun.
  { intros r Hr. unfold infer_runtime_platforms. rewrite Hr.
    rewrite bool_decide_eq_true_2 by done.
    unfold digest_complete_platforms, mbind, rule_mbind, rule_bind, await.
    cbn [fst snd].
    by destruct (digest_complete_platform_addresses E _). }
  split; [by apply Hrun|].
  intros other Hother. by rewrite (Hrun other), (Hrun request).
Qed.

Lemma list_find_first {A} (P : A → Prop) `{∀ x, Decision (P x)}
    (before after : list A) (x : A) :
  Forall (λ y, ¬ P y) before → P x →
  list_find P (before ++ x :: after) = Some (length before, x).
Proof.
  intros Hbefore Hx. induction Hbefore as [|y before Hy _ IH]; simpl.
  - by rewrite decide_True.
  - rewrite decide_False by done. by rewrite IH.
Qed.

(** X22.  Without a value for [complete_platforms] and with a runtime that gives
    a Python version, the platforms are those of the first known runtime
    of this version and of the architecture of the request: its file is
    read from the module next to the runtime field and made a snapshot, and
    a later known runtime that matches as well is not used.  When no known
    runtime matches, the rule raises [InvalidTargetException] without a
    request to the engine. *)
Theorem first_matching_known_runtime_is_used (E : engine)
    (request : RuntimePlatformsRequest) (version : Z * Z) :
  value (complete_platforms request) = None →
  to_interpreter_version (runtime request) = Some version →
  (Forall (λ rt, ¬ runtime_matches version (request_architecture request) rt)
     (known_runtimes (runtime request)) →
   ∃ msg origin,
     infer_runtime_platforms E request
     = ([], Raised (InvalidTargetException msg origin)))
  ∧ (∀ before rt after contents,
       known_runtimes (runtime request) = (before ++ rt :: after)%list →
       Forall (λ rt, ¬ runtime_matches version (request_architecture request) rt)
         before →
       runtime_matches version (request_architecture request) rt →
       read_bytes (known_runtimes_complete_platforms_module (runtime request))
         (file_name rt) = Returned contents →
       let files := [ {| path := file_name rt; content := contents |} ] in
       infer_runtime_platforms E request
       = ([Get_digest_to_snapshot files],
          match digest_to_snapshot E files with
          | Returned snapshot =>
              Returned {| interpreter_version := Some version;
                          platforms := from_snapshot snapshot |}
          | Raised e => Raised e
          end)).
Proof.
  intros Hvalue Hversion. split.
  - intros Hnone. unfold infer_runtime_platforms.
    rewrite Hvalue, Hversion. rewrite bool_decide_eq_false_2 by (by intros []).
    unfold mbind, rule_mbind, rule_bind, mret, rule_mret, rule_return, raise.
    cbn [fst snd].
    rewrite (proj2 (list_find_None _ _) Hnone).
    cbn [fst snd app]. eauto.
  - intros before rt after contents Hknown Hbefore Hrt Hread files.
    unfold infer_runtime_platforms.
    rewrite Hvalue, Hversion. rewrite bool_decide_eq_false_2 by (by intros []).
    unfold mbind, rule_mbind, rule_bind, mret, rule_mret, rule_return, raise,
      await. cbn [fst snd].
    rewrite Hknown, (list_find_first _ before after rt) by done.
    rewrite Hread. fold files. cbn [fst snd app].
    by destruct (digest_to_snapshot E files).
Qed.

End Rules.

(** *** The theorems at a sample runtime field *)

Definition python39 (tag : string) (arch : FaaSArchitecture)
  : PythonFaaSKnownRuntime :=
  {| name := "python3.9"; major := 3; minor := 9;
     docker_repo := "public.ecr.aws/lambda/python"; tag := tag;
     architecture := arch |}.

Definition lambda_runtime : PythonFaaSRuntimeField :=
  {| known_runtimes := [ python39 "3.9-arm64" ARM64;
                         python39 "3.9-x86_64" X86_64;
                         python39 "3.9-x86_64-later" X86_64 ];
     cls_module := "pants.backend.awslambda.python.target_types";
     to_interpreter_version := Some (3, 9)%Z |}.

(** An engine over stand-ins for the engine's types: an address is its
    spec, the platforms and a snapshot are the names of their files. *)
Definition sample_engine : engine string (list string) unit unit (list string) :=
  {| digest_complete_platform_addresses _ := Returned ["given.json"];
     interpreter_constraints_for_targets _ := Returned tt;
     digest_to_snapshot files := Returned (path <$> files) |}.

Definition sample_read_bytes (module file : string) : outcome faas_exn string :=
  Returned (module ++ "/" ++ file).

Definition sample_request (given : option (list string))
  : RuntimePlatformsRequest string :=
  {| address := "src/py:lambda";
     target_name := "python_aws_lambda_function";
     runtime := lambda_runtime;
     complete_platforms := {| value := given; field_address := "src/py:lambda" |};
     request_architecture := X86_64 |}.

Definition sample_infer (given : option (list string))
  : Rules.rule (request string unit) faas_exn (RuntimePlatforms (list string)) :=
  infer_runtime_platforms string (list string) unit unit (list string) id
    (λ _, "") (λ _, None) id sample_read_bytes id id id "complete_platforms"
    (λ _, tt) sample_engine (sample_request given).

Example known_runtimes_complete_platforms_module_of_lambda :
  known_runtimes_complete_platforms_module lambda_runtime
  = "pants.backend.awslambda.python".
Proof. reflexivity. Qed.

Lemma given_complete_platforms_are_used :
  sample_infer (Some ["src/py:platform"])
  = ([Get_digest_complete_platform_addresses string unit tt],
     Returned {| interpreter_version := None; platforms := ["given.json"] |}).
Proof.
  assert (Some ["src/py:platform"] ≠ None) as Hgiven by discriminate.
  destruct (explicit_complete_platforms_win string (list string) unit unit
              (list string) id (λ _, "") (λ _, None) id sample_read_bytes id id
              id "complete_platforms" (λ _, tt) sample_engine
              (sample_request (Some ["src/py:platform"])) Hgiven)
    as [Hrun _].
  exact Hrun.
Defined.

Lemma first_python39_x86_64_runtime_is_used :
  sample_infer None
  = ([Get_digest_to_snapshot string unit
        [ {| path := "complete_platform_3.9-x86_64.json";
             content := "pants.backend.awslambda.python/complete_platform_3.9-x86_64.json" |} ]],
     Returned {| interpreter_version := Some (3, 9)%Z;
                 platforms := ["complete_platform_3.9-x86_64.json"] |}).
Proof.
  destruct (first_matching_known_runtime_is_used string (list string) unit unit
              (list string) id (λ _, "") (λ _, None) id sample_read_bytes id id
              id "complete_platforms" (λ _, tt) sample_engine
              (sample_request None) (3, 9)%Z eq_refl eq_refl) as [_ Hfirst].
  apply (Hfirst [python39 "3.9-arm64" ARM64] (python39 "3.9-x86_64" X86_64)
           [python39 "3.9-x86_64-later" X86_64]).
  - reflexivity.
  - constructor; [|constructor]. by intros [_ [=]].
  - by split.
  - reflexivity.
Defined.

End FaasRuntime.
